(** * Nurse rostering model (test1.py): shallow embedding and verification

    The program builds a CP-SAT model over boolean variables indexed by
    (department, nurse, day, slot), adds seven families of linear constraints,
    and extracts a per-department schedule from a solution inside a solver
    callback.  The solver itself is external: a solution is any assignment of
    booleans to the model's variables that satisfies every added constraint. *)

From Stdlib Require Import ZArith Lia.
From stdpp Require Import base option list strings pretty gmap.

Open Scope Z_scope.
Open Scope nat_scope.

(** ** Python values and control flow *)

(** A key of the [shifts] dict: the tuple [(dep, n, day, s)]. *)
Abbreviation Key := (nat * nat * nat * nat)%type.

(** The argument of a Python [KeyError]: a tuple key of [shifts], or an int key
    of one of the nested schedule dicts. *)
Inductive pykey : Type :=
| TupleKey (k : Key)
| IntKey (i : nat).

Inductive exn : Type :=
| KeyError (k : pykey)
| NameError (x : string)
| ZeroDivisionError.

Inductive result (A : Type) : Type :=
| Ok (a : A)
| Raise (e : exn).
Arguments Ok {A} a.
Arguments Raise {A} e.

(** Statements run over a mutable frame [S] and either finish with a value and
    the new frame, or raise. *)
Definition M (S A : Type) : Type := S → result (A * S).

Definition ret {S A} (a : A) : M S A := λ st, Ok (a, st).

Definition bind {S A B} (m : M S A) (k : A → M S B) : M S B :=
  λ st, match m st with
        | Ok (a, st') => k a st'
        | Raise e => Raise e
        end.

Definition raise {S A} (e : exn) : M S A := λ _, Raise e.

Declare Scope py_scope.
Delimit Scope py_scope with py.
Notation "x <- m ;; k" := (bind m (λ x, k))
  (at level 100, m at next level, right associativity) : py_scope.
Notation "m ;;; k" := (bind m (λ _, k))
  (at level 100, right associativity) : py_scope.
Open Scope py_scope.

(** [for x in xs: body x] *)
Fixpoint for_ {S A} (xs : list A) (body : A → M S unit) : M S unit :=
  match xs with
  | [] => ret tt
  | x :: xs' => body x ;;; for_ xs' body
  end.

(** [[f(x) for x in xs]] where [f] may raise: evaluated left to right. *)
Fixpoint mapM {S A B} (f : A → M S B) (xs : list A) : M S (list B) :=
  match xs with
  | [] => ret []
  | x :: xs' => y <- f x ;; ys <- mapM f xs' ;; ret (y :: ys)
  end.

(** [if b: body] without an [else] branch. *)
Definition when_ {S} (b : bool) (body : M S unit) : M S unit :=
  if b then body else ret tt.

(** [range(n)] and [range(a, b)]. *)
Definition range (n : nat) : list nat := seq 0 n.
Definition range2 (a b : nat) : list nat := seq a (b - a).

(** [x in xs] for a range of ints. *)
Definition elem (x : nat) (xs : list nat) : bool := existsb (Nat.eqb x) xs.

(** ** The CP-SAT model *)

(** A boolean variable is identified by its index in the model; the label given
    to [NewBoolVar] is a display name only and is not modelled. *)
Abbreviation BoolVar := N.

Inductive comparator : Type := CmpEq | CmpLe | CmpGe.

(** A bounded linear expression: the sum of the listed variables (each
    occurrence with coefficient 1) compared with an integer.  The sum of an
    empty generator is the int 0, so its comparison is a Python bool; [Add]
    accepts a bool, and OR-tools stores it as a [bool_or] over a constant
    literal (for [True], creating the variable of the constant the first
    time) or over no literal (for [False]).  Such a constraint is kept here as
    the comparison of an empty [lhs], which has the same truth value under
    every solution; the variable of the constant is not counted in
    [num_vars].  With at least one department, one nurse and one slot on
    weekdays and on weekend days no sum of [main] is empty, and properties
    about the number of variables or the variables of a constraint are stated
    for such constants. *)
Record Constraint : Type := MkConstraint {
  lhs : list BoolVar;
  cmp : comparator;
  rhs : Z
}.

Record CpModel : Type := MkModel {
  num_vars : N;
  constraints : list Constraint
}.

(** What the solver reports through [Value]: a boolean for every variable. *)
Definition Solution : Type := BoolVar → bool.

Definition b2z (b : bool) : Z := if b then 1%Z else 0%Z.

(** Value of [sum(vars)] under a solution. *)
Fixpoint lin_value (sol : Solution) (vars : list BoolVar) : Z :=
  match vars with
  | [] => 0%Z
  | v :: vs => (b2z (sol v) + lin_value sol vs)%Z
  end.

Definition holds (sol : Solution) (c : Constraint) : bool :=
  match cmp c with
  | CmpEq => (lin_value sol (lhs c) =? rhs c)%Z
  | CmpLe => (lin_value sol (lhs c) <=? rhs c)%Z
  | CmpGe => (rhs c <=? lin_value sol (lhs c))%Z
  end.

(** A solution of the model satisfies every constraint ever added. *)
Definition satisfies (sol : Solution) (m : CpModel) : bool :=
  forallb (holds sol) (constraints m).

(** ** The constants of [main] *)

Record Config : Type := MkConfig {
  num_departments : nat;
  num_nurses : nat;
  num_days : nat;
  num_weekday_shifts : nat;
  num_weekend_shifts : nat
}.

Definition main_config : Config :=
  {| num_departments := 15; num_nurses := 100; num_days := 7;
     num_weekday_shifts := 2; num_weekend_shifts := 1 |}.

Definition all_departments (cfg : Config) : list nat := range (num_departments cfg).
Definition all_nurses (cfg : Config) : list nat := range (num_nurses cfg).
Definition all_days (cfg : Config) : list nat := range (num_days cfg).
Definition weekdays : list nat := range 5.
Definition weekends : list nat := range2 5 7.

(** [num_weekday_shifts if day in weekdays else num_weekend_shifts] *)
Definition num_shifts_of (cfg : Config) (day : nat) : nat :=
  if elem day weekdays then num_weekday_shifts cfg else num_weekend_shifts cfg.

(** ** The frame of [main] while the model is built *)

(** Only the locals whose value crosses statement boundaries are kept in the
    frame: the dict [shifts], the [model], the list [shifts_worked], and the
    loop variable [dep], which two later loops read without binding it.  Every
    other loop variable is bound by an enclosing [for] of the statement that
    reads it, and is a binder here. *)
Record Frame : Type := MkFrame {
  shifts : gmap Key BoolVar;
  model : CpModel;
  dep : option nat;
  shifts_worked : list BoolVar
}.

Definition init_frame : Frame :=
  {| shifts := ∅; model := {| num_vars := 0; constraints := [] |};
     dep := None; shifts_worked := [] |}.

(** [model.NewBoolVar(...)] *)
Definition NewBoolVar : M Frame BoolVar :=
  λ st, Ok (num_vars (model st),
            {| shifts := shifts st;
               model := {| num_vars := N.succ (num_vars (model st));
                           constraints := constraints (model st) |};
               dep := dep st; shifts_worked := shifts_worked st |}).

(** [model.Add(c)]; a bool argument is kept as the comparison it came from
    (see [Constraint]). *)
Definition Add (c : Constraint) : M Frame unit :=
  λ st, Ok (tt,
            {| shifts := shifts st;
               model := {| num_vars := num_vars (model st);
                           constraints := constraints (model st) ++ [c] |};
               dep := dep st; shifts_worked := shifts_worked st |}).

(** [shifts[k] = v] *)
Definition setitem (k : Key) (v : BoolVar) : M Frame unit :=
  λ st, Ok (tt, {| shifts := <[k := v]> (shifts st); model := model st;
                   dep := dep st; shifts_worked := shifts_worked st |}).

(** [shifts[k]] *)
Definition getitem (k : Key) : M Frame BoolVar :=
  λ st, match shifts st !! k with
        | Some v => Ok (v, st)
        | None => Raise (KeyError (TupleKey k))
        end.

(** [k in shifts] *)
Definition contains (k : Key) : M Frame bool :=
  λ st, Ok (bool_decide (is_Some (shifts st !! k)), st).

(** Binding of the local [dep] by a [for dep in ...] header. *)
Definition bind_dep (d : nat) : M Frame unit :=
  λ st, Ok (tt, {| shifts := shifts st; model := model st;
                   dep := Some d; shifts_worked := shifts_worked st |}).

(** Reading the local [dep]; unbound, it raises [UnboundLocalError], a
    [NameError]. *)
Definition read_dep : M Frame nat :=
  λ st, match dep st with
        | Some d => Ok (d, st)
        | None => Raise (NameError "dep")
        end.

(** [for dep in xs: body] at the top level of [main]: each iteration assigns
    the local [dep], which keeps its last value after the loop. *)
Definition for_dep (xs : list nat) (body : nat → M Frame unit) : M Frame unit :=
  for_ xs (λ d, bind_dep d ;;; body d).

(** The tuple expression [(dep, n, day, s)] evaluated in the frame of [main]. *)
Definition tuple_dep (n day s : nat) : M Frame Key :=
  d <- read_dep ;; ret (d, n, day, s).

(** [shifts[(dep, n, day, s)]] with [dep] the local of [main]. *)
Definition shifts_at (n day s : nat) : M Frame BoolVar :=
  k <- tuple_dep n day s ;; getitem k.

(** [(dep, n, day, s) in shifts] with [dep] the local of [main]. *)
Definition in_shifts (n day s : nat) : M Frame bool :=
  k <- tuple_dep n day s ;; contains k.

(** [shifts_worked = []] *)
Definition reset_shifts_worked : M Frame unit :=
  λ st, Ok (tt, {| shifts := shifts st; model := model st;
                   dep := dep st; shifts_worked := [] |}).

(** [shifts_worked.extend(vs)] *)
Definition extend_shifts_worked (vs : list BoolVar) : M Frame unit :=
  λ st, Ok (tt, {| shifts := shifts st; model := model st;
                   dep := dep st; shifts_worked := shifts_worked st ++ vs |}).

Definition read_shifts_worked : M Frame (list BoolVar) :=
  λ st, Ok (shifts_worked st, st).

(** ** Model construction (lines 19-88) *)

(** Lines 20-26.  The right-hand side is evaluated before the subscript. *)
Definition create_variables (cfg : Config) : M Frame unit :=
  for_dep (all_departments cfg) (λ _,
    for_ (all_nurses cfg) (λ n,
      for_ (all_days cfg) (λ day,
        let num_shifts := num_shifts_of cfg day in
        for_ (range num_shifts) (λ s,
          v <- NewBoolVar ;;
          k <- tuple_dep n day s ;;
          setitem k v)))).

(** Lines 29-32: one equality per (department, day), summing over every nurse
    and every slot of the day. *)
Definition add_coverage (cfg : Config) : M Frame unit :=
  for_dep (all_departments cfg) (λ _,
    for_ (all_days cfg) (λ day,
      let num_shifts := num_shifts_of cfg day in
      vars <- mapM (λ '(n, s), shifts_at n day s)
                   (list_prod (all_nurses cfg) (range num_shifts)) ;;
      Add {| lhs := vars; cmp := CmpEq; rhs := Z.of_nat num_shifts |})).

(** Lines 35-40: no loop binds [dep] here. *)
Definition add_adjacent (cfg : Config) : M Frame unit :=
  for_ (all_nurses cfg) (λ n,
    for_ weekdays (λ day,
      let num_shifts := num_weekday_shifts cfg in
      for_ (range num_shifts) (λ s,
        when_ (Z.of_nat s <? Z.of_nat num_shifts - 1)%Z
          (a <- shifts_at n day s ;;
           b <- shifts_at n day (s + 1) ;;
           Add {| lhs := [a; b]; cmp := CmpLe; rhs := 2 |})))).

(** [range(day + 1, min(day + 3, num_days))] *)
Definition next_days (cfg : Config) (day : nat) : list nat :=
  range2 (day + 1) (Nat.min (day + 3) (num_days cfg)).

(** Lines 43-62: no loop binds [dep] here either. *)
Definition add_rest (cfg : Config) : M Frame unit :=
  for_ (all_nurses cfg) (λ n,
    for_ (all_days cfg) (λ day,
      when_ (Z.of_nat day <? Z.of_nat (num_days cfg) - 2)%Z
        (let num_shifts := num_shifts_of cfg day in
         for_ (range num_shifts) (λ s,
           present <- in_shifts n day s ;;
           when_ present
             (for_ (next_days cfg day) (λ next_day,
                let next_shifts := num_shifts_of cfg next_day in
                for_ (range next_shifts) (λ next_s,
                  present' <- in_shifts n next_day next_s ;;
                  when_ present'
                    (a <- shifts_at n day s ;;
                     b <- shifts_at n next_day next_s ;;
                     Add {| lhs := [a; b]; cmp := CmpLe; rhs := 1 |}))) ;;;
              when_ (Z.of_nat s <? Z.of_nat num_shifts - 1)%Z
                (for_ (next_days cfg day) (λ next_day,
                   let next_shifts := num_shifts_of cfg next_day in
                   for_ (range next_shifts) (λ next_s,
                     present' <- in_shifts n next_day next_s ;;
                     when_ present'
                       (a <- shifts_at n day s ;;
                        b <- shifts_at n day (s + 1) ;;
                        c <- shifts_at n next_day next_s ;;
                        Add {| lhs := [a; b; c]; cmp := CmpLe; rhs := 2 |}))))))))).

(** Lines 65-68: [dep] is local to the generator expression. *)
Definition add_single_department (cfg : Config) : M Frame unit :=
  for_ (all_nurses cfg) (λ n,
    for_ (all_days cfg) (λ day,
      let num_shifts := num_shifts_of cfg day in
      vars <- mapM (λ '(dep, s), getitem (dep, n, day, s))
                   (list_prod (all_departments cfg) (range num_shifts)) ;;
      Add {| lhs := vars; cmp := CmpLe; rhs := 1 |})).

(** Lines 71-74: [dep], [day] and [s] are local to the generator expression. *)
Definition add_weekend (cfg : Config) : M Frame unit :=
  for_ (all_nurses cfg) (λ n,
    vars <- mapM (λ '(dep, (day, s)), getitem (dep, n, day, s))
                 (list_prod (all_departments cfg)
                    (list_prod weekends (range (num_weekend_shifts cfg)))) ;;
    Add {| lhs := vars; cmp := CmpLe; rhs := 1 |}).

(** Line 77. *)
Definition total_shifts (cfg : Config) : Z :=
  (Z.of_nat (num_departments cfg)
   * (Z.of_nat (num_weekday_shifts cfg) * Z.of_nat (length weekdays)
      + Z.of_nat (num_weekend_shifts cfg) * Z.of_nat (length weekends)))%Z.

(** [a // b] on ints. *)
Definition floordiv {S} (a b : Z) : M S Z :=
  if (b =? 0)%Z then raise ZeroDivisionError else ret (a / b)%Z.

(** [a % b] on ints. *)
Definition pymod {S} (a b : Z) : M S Z :=
  if (b =? 0)%Z then raise ZeroDivisionError else ret (a mod b)%Z.

(** Lines 77-88. *)
Definition add_fairness (cfg : Config) : M Frame unit :=
  let total_shifts := total_shifts cfg in
  min_shifts_per_nurse <- floordiv total_shifts (Z.of_nat (num_nurses cfg)) ;;
  r <- pymod total_shifts (Z.of_nat (num_nurses cfg)) ;;
  let max_shifts_per_nurse :=
    if negb (r =? 0)%Z then (min_shifts_per_nurse + 1)%Z else min_shifts_per_nurse in
  for_ (all_nurses cfg) (λ n,
    reset_shifts_worked ;;;
    for_dep (all_departments cfg) (λ _,
      for_ (all_days cfg) (λ day,
        let num_shifts := num_shifts_of cfg day in
        vs <- mapM (λ s, shifts_at n day s) (range num_shifts) ;;
        extend_shifts_worked vs)) ;;;
    worked <- read_shifts_worked ;;
    Add {| lhs := worked; cmp := CmpGe; rhs := min_shifts_per_nurse |} ;;;
    worked' <- read_shifts_worked ;;
    Add {| lhs := worked'; cmp := CmpLe; rhs := max_shifts_per_nurse |}).

(** Lines 17-88 of [main]: everything before the solver is created. *)
Definition build_model (cfg : Config) : M Frame unit :=
  create_variables cfg ;;;
  add_coverage cfg ;;;
  add_adjacent cfg ;;;
  add_rest cfg ;;;
  add_single_department cfg ;;;
  add_weekend cfg ;;;
  add_fairness cfg.

(** ** The solution callback (lines 95-127) *)

(** [self._department_schedule]: department -> day -> slot -> nurse or [None]. *)
Abbreviation Schedule := (gmap nat (gmap nat (gmap nat (option nat)))).

Record Printer : Type := MkPrinter {
  _shifts : gmap Key BoolVar;
  _num_nurses : nat;
  _num_days : nat;
  _num_weekday_shifts : nat;
  _num_weekend_shifts : nat;
  _num_departments : nat;
  _solution_count : nat;
  _solution_limit : nat;
  _department_schedule : Schedule;
  (** set by [StopSearch()] *)
  stop_requested : bool
}.

(** A dict comprehension [{k: f(k) for k in keys}]: keys are inserted in order. *)
Definition dict_comp {V} (keys : list nat) (f : nat → V) : gmap nat V :=
  fold_left (λ d k, <[k := f k]> d) keys ∅.

(** Lines 98-108: [__init__]. *)
Definition new_printer (shifts : gmap Key BoolVar)
    (num_nurses num_days num_weekday_shifts num_weekend_shifts num_departments limit : nat)
    : Printer :=
  {| _shifts := shifts;
     _num_nurses := num_nurses;
     _num_days := num_days;
     _num_weekday_shifts := num_weekday_shifts;
     _num_weekend_shifts := num_weekend_shifts;
     _num_departments := num_departments;
     _solution_count := 0;
     _solution_limit := limit;
     _department_schedule :=
       dict_comp (range num_departments) (λ dep,
         dict_comp (range num_days) (λ day,
           dict_comp (range (if day <? 5 then num_weekday_shifts else num_weekend_shifts))
                     (λ s, None)));
     stop_requested := false |}.

Definition gets {S A} (f : S → A) : M S A := λ st, Ok (f st, st).

(** [d[k]] on a dict with int keys. *)
Definition subscript {S V} (d : gmap nat V) (k : nat) : M S V :=
  match d !! k with
  | Some v => ret v
  | None => raise (KeyError (IntKey k))
  end.

(** The printer with another schedule. *)
Definition with_schedule (p : Printer) (sched : Schedule) : Printer :=
  {| _shifts := _shifts p;
     _num_nurses := _num_nurses p;
     _num_days := _num_days p;
     _num_weekday_shifts := _num_weekday_shifts p;
     _num_weekend_shifts := _num_weekend_shifts p;
     _num_departments := _num_departments p;
     _solution_count := _solution_count p;
     _solution_limit := _solution_limit p;
     _department_schedule := sched;
     stop_requested := stop_requested p |}.

Definition set_schedule (sched : Schedule) : M Printer unit :=
  λ p, Ok (tt, with_schedule p sched).

(** [self._solution_count += 1] *)
Definition incr_solution_count : M Printer unit :=
  λ p, Ok (tt, {| _shifts := _shifts p;
                  _num_nurses := _num_nurses p;
                  _num_days := _num_days p;
                  _num_weekday_shifts := _num_weekday_shifts p;
                  _num_weekend_shifts := _num_weekend_shifts p;
                  _num_departments := _num_departments p;
                  _solution_count := _solution_count p + 1;
                  _solution_limit := _solution_limit p;
                  _department_schedule := _department_schedule p;
                  stop_requested := stop_requested p |}).

(** [self.StopSearch()] *)
Definition StopSearch : M Printer unit :=
  λ p, Ok (tt, {| _shifts := _shifts p;
                  _num_nurses := _num_nurses p;
                  _num_days := _num_days p;
                  _num_weekday_shifts := _num_weekday_shifts p;
                  _num_weekend_shifts := _num_weekend_shifts p;
                  _num_departments := _num_departments p;
                  _solution_count := _solution_count p;
                  _solution_limit := _solution_limit p;
                  _department_schedule := _department_schedule p;
                  stop_requested := true |}).

(** [self._shifts[k]] *)
Definition self_shifts (k : Key) : M Printer BoolVar :=
  sh <- gets _shifts ;;
  match sh !! k with
  | Some v => ret v
  | None => raise (KeyError (TupleKey k))
  end.

(** [self._department_schedule[dep][day][s] = n]: the two outer subscripts are
    reads, the innermost one is a store into the dict they lead to. *)
Definition store_nurse (dep day s n : nat) : M Printer unit :=
  sched <- gets _department_schedule ;;
  by_day <- subscript sched dep ;;
  by_slot <- subscript by_day day ;;
  set_schedule (<[dep := <[day := <[s := Some n]> by_slot]> by_day]> sched).

(** Lines 116-118: the scan over nurses for one cell. *)
Definition scan_nurses (sol : Solution) (dep day s : nat) : M Printer unit :=
  num_nurses <- gets _num_nurses ;;
  for_ (range num_nurses) (λ n,
    v <- self_shifts (dep, n, day, s) ;;
    when_ (sol v) (store_nurse dep day s n)).

(** Lines 110-121: [on_solution_callback], with [self.Value] reading [sol]. *)
Definition on_solution_callback (sol : Solution) : M Printer unit :=
  incr_solution_count ;;;
  num_departments <- gets _num_departments ;;
  for_ (range num_departments) (λ dep,
    num_days <- gets _num_days ;;
    for_ (range num_days) (λ day,
      num_shifts <- (if day <? 5 then gets _num_weekday_shifts
                     else gets _num_weekend_shifts) ;;
      for_ (range num_shifts) (λ s,
        scan_nurses sol dep day s))) ;;;
  count <- gets _solution_count ;;
  limit <- gets _solution_limit ;;
  when_ (limit <=? count) StopSearch.

(** The printer built at lines 131-133, for the constants [cfg]. *)
Definition solution_printer (cfg : Config) (shifts : gmap Key BoolVar) (limit : nat)
    : Printer :=
  new_printer shifts (num_nurses cfg) (num_days cfg) (num_weekday_shifts cfg)
    (num_weekend_shifts cfg) (num_departments cfg) limit.

(** ** Derived notions used to state the properties *)

(** The keys the variable-creation loops visit, in visiting order. *)
Definition all_keys (cfg : Config) : list Key :=
  dep ← all_departments cfg;
  n ← all_nurses cfg;
  day ← all_days cfg;
  s ← range (num_shifts_of cfg day);
  [(dep, n, day, s)].

(** A key is legal when every component is in range and the slot index is a
    slot of that day. *)
Definition legal (cfg : Config) (k : Key) : Prop :=
  let '(dep, n, day, s) := k in
  dep < num_departments cfg ∧ n < num_nurses cfg ∧ day < num_days cfg
  ∧ s < num_shifts_of cfg day.

Definition legalb (cfg : Config) (k : Key) : bool :=
  let '(dep, n, day, s) := k in
  (dep <? num_departments cfg) && (n <? num_nurses cfg) && (day <? num_days cfg)
  && (s <? num_shifts_of cfg day).

(** Storing fresh consecutive variables under a list of keys. *)
Definition alloc (keys : list Key) (mc : gmap Key BoolVar * N) : gmap Key BoolVar * N :=
  fold_left (λ mc k, (<[k := mc.2]> (mc.1), N.succ (mc.2))) keys mc.

(** The value of a loop variable after [for x in xs], [old] being its value
    before the loop. *)
Definition leak (xs : list nat) (old : option nat) : option nat :=
  match last xs with
  | Some x => Some x
  | None => old
  end.

(** Whether the nurse of key [k] covers the slot of key [k] under [sol]: the
    value of [shifts[k]]. *)
Definition works (sh : gmap Key BoolVar) (sol : Solution) (k : Key) : bool :=
  match sh !! k with
  | Some v => sol v
  | None => false
  end.


(** ** Specifications of statements *)

(** [m] stores fresh consecutive variables under [keys], adds no constraint,
    and takes the local [dep] from [d] to [d']. *)
Definition allocs (d d' : option nat) (m : M Frame unit) (keys : list Key) : Prop :=
  ∀ st, dep st = d →
    ∃ st', m st = Ok (tt, st') ∧ dep st' = d'
      ∧ constraints (model st') = constraints (model st)
      ∧ (shifts st', num_vars (model st')) = alloc keys (shifts st, num_vars (model st)).

(** The dict that variable creation produces from the empty one. *)
Definition created (cfg : Config) : gmap Key BoolVar :=
  (alloc (all_keys cfg) (∅, 0%N)).1.

(** Number of slots of the whole horizon, for one department. *)
Definition slots_per_week (cfg : Config) : nat :=
  sum_list (map (num_shifts_of cfg) (all_days cfg)).

(** A constraint described by the keys whose variables it sums. *)
Record KConstraint : Type := MkKConstraint {
  kkeys : list Key;
  kcmp : comparator;
  krhs : Z
}.

(** The variable stored under a key (index 0 for an absent key; only used on
    keys known to be present). *)
Definition var (sh : gmap Key BoolVar) (k : Key) : BoolVar := default 0%N (sh !! k).

(** The model constraint obtained by looking every key up in [sh]. *)
Definition resolve (sh : gmap Key BoolVar) (kc : KConstraint) : Constraint :=
  {| lhs := map (var sh) (kkeys kc); cmp := kcmp kc; rhs := krhs kc |}.

(** [m] evaluates to [a] without changing the frame, when [shifts] is [sh] and
    the local [dep] is [d]. *)
Definition reads {A : Type} (sh : gmap Key BoolVar) (d : option nat) (m : M Frame A) (a : A)
    : Prop :=
  ∀ st, shifts st = sh → dep st = d → m st = Ok (a, st).

(** [m] adds the constraints [kcs] (resolved in [sh]) to the model, creates no
    variable, leaves [shifts] alone and takes the local [dep] from [d] to [d']. *)
Definition emits (sh : gmap Key BoolVar) (d d' : option nat) (m : M Frame unit)
    (kcs : list KConstraint) : Prop :=
  ∀ st, shifts st = sh → dep st = d →
    ∃ st', m st = Ok (tt, st') ∧ shifts st' = sh ∧ dep st' = d'
      ∧ num_vars (model st') = num_vars (model st)
      ∧ constraints (model st') = constraints (model st) ++ map (resolve sh) kcs.

(** [m] appends the variables of [keys] to [shifts_worked] and leaves the model
    and [shifts] alone. *)
Definition collects (sh : gmap Key BoolVar) (d d' : option nat) (m : M Frame unit)
    (keys : list Key) : Prop :=
  ∀ st, shifts st = sh → dep st = d →
    ∃ st', m st = Ok (tt, st') ∧ shifts st' = sh ∧ dep st' = d'
      ∧ model st' = model st
      ∧ shifts_worked st' = shifts_worked st ++ map (var sh) keys.

(** ** The constraints each loop nest adds, by key *)

Definition coverage_spec (cfg : Config) : list KConstraint :=
  dep ← all_departments cfg;
  day ← all_days cfg;
  [ {| kkeys := map (λ '(n, s), (dep, n, day, s))
                    (list_prod (all_nurses cfg) (range (num_shifts_of cfg day)));
       kcmp := CmpEq;
       krhs := Z.of_nat (num_shifts_of cfg day) |} ].

(** [d] is the value of the local [dep] when the loop nest runs. *)
Definition adjacent_spec (cfg : Config) (d : nat) : list KConstraint :=
  n ← all_nurses cfg;
  day ← weekdays;
  s ← range (num_weekday_shifts cfg);
  if (Z.of_nat s <? Z.of_nat (num_weekday_shifts cfg) - 1)%Z
  then [ {| kkeys := [(d, n, day, s); (d, n, day, s + 1)]; kcmp := CmpLe; krhs := 2 |} ]
  else [].

Definition rest_pairs (cfg : Config) (d n day s : nat) : list KConstraint :=
  next_day ← next_days cfg day;
  next_s ← range (num_shifts_of cfg next_day);
  [ {| kkeys := [(d, n, day, s); (d, n, next_day, next_s)]; kcmp := CmpLe; krhs := 1 |} ].

Definition rest_triples (cfg : Config) (d n day s : nat) : list KConstraint :=
  next_day ← next_days cfg day;
  next_s ← range (num_shifts_of cfg next_day);
  [ {| kkeys := [(d, n, day, s); (d, n, day, s + 1); (d, n, next_day, next_s)];
       kcmp := CmpLe; krhs := 2 |} ].

Definition rest_spec (cfg : Config) (d : nat) : list KConstraint :=
  n ← all_nurses cfg;
  day ← all_days cfg;
  if (Z.of_nat day <? Z.of_nat (num_days cfg) - 2)%Z
  then s ← range (num_shifts_of cfg day);
       rest_pairs cfg d n day s
       ++ (if (Z.of_nat s <? Z.of_nat (num_shifts_of cfg day) - 1)%Z
           then rest_triples cfg d n day s else [])
  else [].

(** The keys of nurse [n] on one day: every department, every slot of the day. *)
Definition day_keys (cfg : Config) (n day : nat) : list Key :=
  map (λ '(dep, s), (dep, n, day, s))
      (list_prod (all_departments cfg) (range (num_shifts_of cfg day))).

(** The keys of nurse [n] on the two weekend days: every department, days 5
    and 6, every weekend slot. *)
Definition weekend_keys (cfg : Config) (n : nat) : list Key :=
  map (λ '(dep, (day, s)), (dep, n, day, s))
      (list_prod (all_departments cfg)
         (list_prod weekends (range (num_weekend_shifts cfg)))).

Definition single_department_spec (cfg : Config) : list KConstraint :=
  n ← all_nurses cfg;
  day ← all_days cfg;
  [ {| kkeys := day_keys cfg n day; kcmp := CmpLe; krhs := 1 |} ].

Definition weekend_spec (cfg : Config) : list KConstraint :=
  n ← all_nurses cfg;
  [ {| kkeys := weekend_keys cfg n; kcmp := CmpLe; krhs := 1 |} ].

(** Lines 78-79, for a non-zero number of nurses. *)
Definition min_shifts_per_nurse (cfg : Config) : Z :=
  (total_shifts cfg / Z.of_nat (num_nurses cfg))%Z.

Definition max_shifts_per_nurse (cfg : Config) : Z :=
  if negb (total_shifts cfg mod Z.of_nat (num_nurses cfg) =? 0)%Z
  then (min_shifts_per_nurse cfg + 1)%Z else min_shifts_per_nurse cfg.

(** The keys of one nurse, in the order [shifts_worked] receives them. *)
Definition nurse_keys (cfg : Config) (n : nat) : list Key :=
  dep ← all_departments cfg;
  day ← all_days cfg;
  s ← range (num_shifts_of cfg day);
  [(dep, n, day, s)].

Definition fairness_spec (cfg : Config) : list KConstraint :=
  n ← all_nurses cfg;
  [ {| kkeys := nurse_keys cfg n; kcmp := CmpGe; krhs := min_shifts_per_nurse cfg |};
    {| kkeys := nurse_keys cfg n; kcmp := CmpLe; krhs := max_shifts_per_nurse cfg |} ].

(** Everything [build_model] adds when the stale [dep] is [d]. *)
Definition model_spec (cfg : Config) (d : nat) : list KConstraint :=
  coverage_spec cfg ++ adjacent_spec cfg d ++ rest_spec cfg d
  ++ single_department_spec cfg ++ weekend_spec cfg ++ fairness_spec cfg.

(** Number of keys of the list that are worked, as an integer. *)
Fixpoint ksum (f : Key → bool) (keys : list Key) : Z :=
  match keys with
  | [] => 0%Z
  | k :: ks => (b2z (f k) + ksum f ks)%Z
  end.

(** A constraint given by keys, evaluated on an assignment of the keys. *)
Definition kholds (f : Key → bool) (kc : KConstraint) : bool :=
  match kcmp kc with
  | CmpEq => (ksum f (kkeys kc) =? krhs kc)%Z
  | CmpLe => (ksum f (kkeys kc) <=? krhs kc)%Z
  | CmpGe => (krhs kc <=? ksum f (kkeys kc))%Z
  end.

(** The solution that gives the variable created for key [k] the value [f k]. *)
Definition sol_of (cfg : Config) (f : Key → bool) : Solution :=
  λ v, match all_keys cfg !! N.to_nat v with
       | Some k => f k
       | None => false
       end.

Definition is_ok {A} (r : result A) : bool :=
  match r with
  | Ok _ => true
  | Raise _ => false
  end.

(** The frame a statement ends in (the starting frame if it raises). *)
Definition final {S} (m : M S unit) (st0 : S) : S :=
  match m st0 with
  | Ok (_, st) => st
  | Raise _ => st0
  end.

(** The frame [build_model] ends in. *)
Definition built (cfg : Config) : Frame := final (build_model cfg) init_frame.

Definition succeeds (cfg : Config) : bool := is_ok (build_model cfg init_frame).

(** The frame of [main] when the adjacent-slot loops (line 35) start. *)
Definition before_adjacent (cfg : Config) : Frame :=
  final (create_variables cfg ;;; add_coverage cfg) init_frame.

(** ** Example rosters *)

(** Two departments and three nurses. *)
Definition scenario_config : Config :=
  {| num_departments := 2; num_nurses := 3; num_days := 7;
     num_weekday_shifts := 2; num_weekend_shifts := 1 |}.

(** One department and twelve nurses. *)
Definition ward_config : Config :=
  {| num_departments := 1; num_nurses := 12; num_days := 7;
     num_weekday_shifts := 2; num_weekend_shifts := 1 |}.

(** Every nurse works one slot: nurses 0-9 the ten weekday slots in order,
    nurse 10 Saturday, nurse 11 Sunday. *)
Definition ward_roster (k : Key) : bool :=
  let '(_, n, day, s) := k in
  n =? (if day <? 5 then 2 * day + s else 5 + day).

Definition ward_solution : Solution := sol_of ward_config ward_roster.

(** A roster for the constants of [main].  On weekday [day], slot [s] of
    department [dep] goes to nurse (30 day + 2 dep + s) mod 100; Saturday goes
    to nurses 50-64 and Sunday to nurses 65-79, by department. *)
Definition rota_nurse (dep day s : nat) : nat :=
  if day <? 5 then (30 * day + 2 * dep + s) mod 100 else 50 + 15 * (day - 5) + dep.

Definition rota (k : Key) : bool :=
  let '(dep, n, day, s) := k in n =? rota_nurse dep day s.

(** The same roster, except that on day 0 department 0 puts both its nurses
    (0 and 1) on slot 0 and nobody on slot 1. *)
Definition crowded_rota (k : Key) : bool :=
  let '(dep, n, day, s) := k in
  if (dep =? 0) && (day =? 0) then (s =? 0) && (n <? 2) else rota k.

(** The same roster, except that nurse 0 takes slot 0 of department 0 on day 1
    (after working there on day 0) and nurse 30 takes slot 0 of department 5 on
    day 3 (before working there on day 4). *)
Definition restless_nurse (dep day s : nat) : nat :=
  if (dep =? 0) && (day =? 1) && (s =? 0) then 0
  else if (dep =? 5) && (day =? 3) && (s =? 0) then 30
  else rota_nurse dep day s.

Definition restless_rota (k : Key) : bool :=
  let '(dep, n, day, s) := k in n =? restless_nurse dep day s.

(** Every key of every constraint is legal. *)
Definition all_legal (cfg : Config) (kcs : list KConstraint) : bool :=
  forallb (λ kc, forallb (legalb cfg) (kkeys kc)) kcs.

(** ** Derived notions for the solution callback *)

(** The dict holds a variable for every key that variable creation visits. *)
Definition complete (cfg : Config) (sh : gmap Key BoolVar) : bool :=
  forallb (λ k, bool_decide (is_Some (sh !! k))) (all_keys cfg).

(** [sched[dep][day][s]], when the three keys exist. *)
Definition cell (sched : Schedule) (dep day s : nat) : option (option nat) :=
  by_day ← sched !! dep; by_slot ← by_day !! day; by_slot !! s.

(** The dicts [sched[dep]] and [sched[dep][day]] exist. *)
Definition has_day (sched : Schedule) (dep day : nat) : Prop :=
  ∃ by_day by_slot, sched !! dep = Some by_day ∧ by_day !! day = Some by_slot.

Definition has_days (cfg : Config) (sched : Schedule) : Prop :=
  ∀ dep day, dep < num_departments cfg → day < num_days cfg → has_day sched dep day.

(** The schedule after [sched[dep][day][s] = n] (unchanged when an outer dict
    is missing: the statement raises in that case). *)
Definition store (dep day s n : nat) (sched : Schedule) : Schedule :=
  match sched !! dep with
  | Some by_day =>
      match by_day !! day with
      | Some by_slot => <[dep := <[day := <[s := Some n]> by_slot]> by_day]> sched
      | None => sched
      end
  | None => sched
  end.

(** The nurses of [range(num_nurses)] whose variable for the cell is true, in
    scan order, and the last of them. *)
Definition true_nurses (cfg : Config) (sh : gmap Key BoolVar) (sol : Solution)
    (dep day s : nat) : list nat :=
  List.filter (λ n, works sh sol (dep, n, day, s)) (all_nurses cfg).

Definition last_true (cfg : Config) (sh : gmap Key BoolVar) (sol : Solution)
    (dep day s : nat) : option nat :=
  last (true_nurses cfg sh sol dep day s).

(** The effect of the nurse scan of one cell on the schedule. *)
Definition step (cfg : Config) (sh : gmap Key BoolVar) (sol : Solution)
    (sched : Schedule) (c : nat * nat * nat) : Schedule :=
  let '(dep, day, s) := c in
  match last_true cfg sh sol dep day s with
  | Some n => store dep day s n sched
  | None => sched
  end.

(** The cells the callback visits, in visiting order. *)
Definition all_cells (cfg : Config) : list (nat * nat * nat) :=
  dep ← all_departments cfg;
  day ← all_days cfg;
  s ← range (num_shifts_of cfg day);
  [(dep, day, s)].

(** The printer holds the dict [sh] and the constants [cfg]. *)
Definition params (cfg : Config) (sh : gmap Key BoolVar) (p : Printer) : Prop :=
  _shifts p = sh ∧ _num_nurses p = num_nurses cfg ∧ _num_days p = num_days cfg
  ∧ _num_weekday_shifts p = num_weekday_shifts cfg
  ∧ _num_weekend_shifts p = num_weekend_shifts cfg
  ∧ _num_departments p = num_departments cfg.

(** [m] changes only the schedule, by scanning the listed cells in order. *)
Definition rewrites (cfg : Config) (sh : gmap Key BoolVar) (sol : Solution)
    (m : M Printer unit) (cells : list (nat * nat * nat)) : Prop :=
  ∀ p, params cfg sh p → has_days cfg (_department_schedule p) →
    m p = Ok (tt, with_schedule p
                    (fold_left (step cfg sh sol) cells (_department_schedule p))).

(** ** Derived notions for lookups of absent keys *)

(** [r] is a [KeyError] on a key that [sh] does not hold. *)
Definition raises_key_error {A : Type} (sh : gmap Key BoolVar) (r : result A) : Prop :=
  ∃ k, r = Raise (KeyError (TupleKey k)) ∧ sh !! k = None.

(** [m] either finishes, leaving [shifts] alone and taking [dep] from [d] to
    [d'], or stops on a [KeyError] for an absent key. *)
Definition tries (sh : gmap Key BoolVar) (d d' : option nat) (m : M Frame unit) : Prop :=
  ∀ st, shifts st = sh → dep st = d →
    (∃ st', m st = Ok (tt, st') ∧ shifts st' = sh ∧ dep st' = d')
    ∨ raises_key_error sh (m st).

(** [m] stops on a [KeyError] for an absent key. *)
Definition fails {A : Type} (sh : gmap Key BoolVar) (d : option nat) (m : M Frame A) : Prop :=
  ∀ st, shifts st = sh → dep st = d → raises_key_error sh (m st).

(** The same for an expression: a value and an unchanged frame, or the error. *)
Definition rtries {A : Type} (sh : gmap Key BoolVar) (d : option nat) (m : M Frame A) : Prop :=
  ∀ st, shifts st = sh → dep st = d →
    (∃ a, m st = Ok (a, st)) ∨ raises_key_error sh (m st).

(** The ward with two slots on weekend days as well: 14 slots for 12 nurses. *)
Definition wide_weekend_config : Config :=
  {| num_departments := 1; num_nurses := 12; num_days := 7;
     num_weekday_shifts := 2; num_weekend_shifts := 2 |}.

(** The frame left by variable creation for [ward_config]: it holds no
    variable for slot 1 of a weekend day. *)
Definition ward_frame : Frame := final (create_variables ward_config) init_frame.

(** A roster for [wide_weekend_config]: nurses 0-9 work the ten weekday slots
    in order, nurses 10 and 11 the two Saturday slots, and nurses 0 and 1 work
    the two Sunday slots as well. *)
Definition wide_weekend_roster (k : Key) : bool :=
  let '(_, n, day, s) := k in
  n =? (if day <? 5 then 2 * day + s else if day =? 5 then 10 + s else s).

Definition wide_weekend_solution : Solution :=
  sol_of wide_weekend_config wide_weekend_roster.

(** The ward with a horizon of six days. *)
Definition six_day_config : Config :=
  {| num_departments := 1; num_nurses := 12; num_days := 6;
     num_weekday_shifts := 2; num_weekend_shifts := 1 |}.

(** The frame of [main] when the rest loops (line 43) start. *)
Definition before_rest (cfg : Config) : Frame :=
  final (create_variables cfg ;;; add_coverage cfg ;;; add_adjacent cfg) init_frame.

(** ** The rest of the printer *)

(** Lines 123-124. *)
Definition solutionCount (p : Printer) : nat := _solution_count p.

(** Lines 126-127. *)
Definition get_department_schedule (p : Printer) : Schedule := _department_schedule p.

(** The solver calling [on_solution_callback] once for each solution it
    reports, in the order it finds them. *)
Definition on_solutions (sols : list Solution) : M Printer unit :=
  for_ sols on_solution_callback.

(** The nurse a cell shows after the callback has seen [sols], [acc] being
    what it showed before: the last true nurse of the most recent solution
    that has one. *)
Fixpoint latest_nurse (cfg : Config) (sh : gmap Key BoolVar) (sols : list Solution)
    (dep day s : nat) (acc : option nat) : option nat :=
  match sols with
  | [] => acc
  | sol :: sols' =>
      latest_nurse cfg sh sols' dep day s
        (match last_true cfg sh sol dep day s with
         | Some n => Some n
         | None => acc
         end)
  end.

(** The printer holds [sh] and the constants [cfg], and its schedule has the
    dicts of every department and day. *)
Definition printer_ok (cfg : Config) (sh : gmap Key BoolVar) (p : Printer) : Prop :=
  params cfg sh p ∧ has_days cfg (_department_schedule p).

(** [m] either finishes on a printer that is still well formed, or stops on a
    [KeyError] for a key that [sh] does not hold. *)
Definition ptries (cfg : Config) (sh : gmap Key BoolVar) (m : M Printer unit) : Prop :=
  ∀ p, printer_ok cfg sh p →
    (∃ p', m p = Ok (tt, p') ∧ printer_ok cfg sh p') ∨ raises_key_error sh (m p).

(** [m] stops on a [KeyError] for a key that [sh] does not hold. *)
Definition pfails (cfg : Config) (sh : gmap Key BoolVar) (m : M Printer unit) : Prop :=
  ∀ p, printer_ok cfg sh p → raises_key_error sh (m p).

(** ** The display loop (lines 139-156) *)

(** What the display loop can raise: an [IndexError] from the list of day
    names, or a [KeyError] from one of the nested schedule dicts. *)
Inductive display_exn : Type :=
| IndexError
| ScheduleKeyError (i : nat).

(** An expression of the display loop: an exception or a value. *)
Definition try_ {A B : Type} (m : display_exn + A) (k : A → display_exn + B)
    : display_exn + B :=
  match m with
  | inl e => inl e
  | inr a => k a
  end.

(** [xs[i]] on a list, for an index that is not negative. *)
Definition index {A : Type} (xs : list A) (i : nat) : display_exn + A :=
  match xs !! i with
  | Some x => inr x
  | None => inl IndexError
  end.

(** [d[k]] on one of the schedule dicts. *)
Definition item {V : Type} (d : gmap nat V) (k : nat) : display_exn + V :=
  match d !! k with
  | Some v => inr v
  | None => inl (ScheduleKeyError k)
  end.

(** Line 145: the list the day name is taken from. *)
Definition day_names : list string :=
  ["Monday"; "Tuesday"; "Wednesday"; "Thursday"; "Friday"; "Saturday"; "Sunday"].

(** Line 150. *)
Definition shift_type (s : nat) : string := "Shift " +:+ pretty s.

(** Line 151. *)
Definition nurse_str (nurse : option nat) : string :=
  match nurse with
  | Some n => "Nurse " +:+ pretty n
  | None => "No nurse assigned"
  end.

(** Lines 148-152: the rows one day appends to [schedule_data]. *)
Fixpoint slot_rows (department_schedule : Schedule) (dep day : nat) (day_name : string)
    (slots : list nat) : display_exn + list (list string) :=
  match slots with
  | [] => inr []
  | s :: slots' =>
      try_ (item department_schedule dep) (λ by_day,
      try_ (item by_day day) (λ by_slot,
      try_ (item by_slot s) (λ nurse,
      try_ (slot_rows department_schedule dep day day_name slots') (λ rows,
      inr ([day_name; shift_type s; nurse_str nurse] :: rows)))))
  end.

(** Lines 144-152: the loop over days; the day name is looked up before the
    slots of the day are visited. *)
Fixpoint day_rows (cfg : Config) (department_schedule : Schedule) (dep : nat)
    (days : list nat) : display_exn + list (list string) :=
  match days with
  | [] => inr []
  | day :: days' =>
      try_ (index day_names day) (λ day_name,
      let num_shifts :=
        if day <? 5 then num_weekday_shifts cfg else num_weekend_shifts cfg in
      try_ (slot_rows department_schedule dep day day_name (range num_shifts)) (λ rows,
      try_ (day_rows cfg department_schedule dep days') (λ rest,
      inr (rows ++ rest))))
  end.

(** Lines 142-152: [schedule_data] of one department. *)
Definition schedule_data (cfg : Config) (department_schedule : Schedule) (dep : nat)
    : display_exn + list (list string) :=
  day_rows cfg department_schedule dep (range (num_days cfg)).

(** What the loop prints: a line of text, or the table of a [DataFrame] with
    the given columns and rows (its layout as text is pandas' and is not
    modelled). *)
Inductive printed : Type :=
| Line (text : string)
| Table (columns : list string) (rows : list (list string)).

(** The string [\n]. *)
Definition newline : string := String (Ascii.ascii_of_nat 10) "".

(** Line 141. *)
Definition header (dep : nat) : string :=
  newline +:+ "Department " +:+ pretty dep +:+ "'s Schedule:".

(** Lines 140-156: everything printed, and the exception that ended the loop
    if one did. *)
Fixpoint display_departments (cfg : Config) (department_schedule : Schedule)
    (deps : list nat) : list printed * option display_exn :=
  match deps with
  | [] => ([], None)
  | dep :: deps' =>
      match schedule_data cfg department_schedule dep with
      | inl e => ([Line (header dep)], Some e)
      | inr rows =>
          let '(out, e) := display_departments cfg department_schedule deps' in
          (Line (header dep) :: Table ["Day"; "Shift"; "Nurse"] rows :: out, e)
      end
  end.

Definition display (cfg : Config) (department_schedule : Schedule)
    : list printed * option display_exn :=
  display_departments cfg department_schedule (range (num_departments cfg)).

(** The ward with a horizon of ten days. *)
Definition ten_day_config : Config :=
  {| num_departments := 1; num_nurses := 12; num_days := 10;
     num_weekday_shifts := 2; num_weekend_shifts := 1 |}.

(** * Verification *)

(** ** Running statements *)

Lemma bind_Ok {S A B} (m : M S A) (k : A → M S B) st a st' :
  m st = Ok (a, st') → bind m k st = k a st'.
Proof. unfold bind. by intros ->. Qed.

Lemma bind_Raise {S A B} (m : M S A) (k : A → M S B) st e :
  m st = Raise e → bind m k st = Raise e.
Proof. unfold bind. by intros ->. Qed.

Lemma for_app {S A} (xs ys : list A) (body : A → M S unit) st :
  for_ (xs ++ ys) body st = (for_ xs body ;;; for_ ys body) st.
Proof.
  revert st. induction xs as [|x xs IH]; intros st; simpl.
  - reflexivity.
  - unfold bind in *. destruct (body x st) as [[[] st']|e]; [|reflexivity].
    apply IH.
Qed.

Lemma elem_weekdays day : elem day weekdays = (day <? 5).
Proof.
  do 5 (destruct day as [|day]; [reflexivity|]). reflexivity.
Qed.

Lemma elem_of_range n x : x ∈ range n ↔ x < n.
Proof. unfold range. rewrite elem_of_seq. lia. Qed.

Lemma last_range n : last (range (S n)) = Some n.
Proof. unfold range. rewrite seq_S, last_snoc. reflexivity. Qed.

Lemma leak_range n old : 0 < n → leak (range n) old = Some (n - 1).
Proof.
  intros Hn. destruct n as [|n]; [lia|]. unfold leak. rewrite last_range.
  f_equal. lia.
Qed.

Lemma leak_cons x xs old : leak (x :: xs) old = leak xs (Some x).
Proof.
  unfold leak. destruct xs as [|y ys]; [reflexivity|].
  change (last (x :: y :: ys)) with (last (y :: ys)).
  destruct (last (y :: ys)) eqn:E; [reflexivity|].
  apply last_None in E. discriminate.
Qed.

(** ** Variable creation *)

Lemma alloc_app xs ys mc : alloc (xs ++ ys) mc = alloc ys (alloc xs mc).
Proof. apply fold_left_app. Qed.

Lemma alloc_counter keys mc : (alloc keys mc).2 = (mc.2 + N.of_nat (length keys))%N.
Proof.
  revert mc. induction keys as [|k keys IH]; intros mc; simpl.
  - lia.
  - rewrite IH. simpl. lia.
Qed.

Lemma alloc_lookup_notin keys mc k :
  k ∉ keys → (alloc keys mc).1 !! k = mc.1 !! k.
Proof.
  revert mc. induction keys as [|k' keys IH]; intros mc Hk; simpl; [reflexivity|].
  apply not_elem_of_cons in Hk as [Hne Hk].
  rewrite IH by assumption. simpl. by rewrite lookup_insert_ne.
Qed.

Lemma alloc_lookup keys mc i k :
  NoDup keys → keys !! i = Some k →
  (alloc keys mc).1 !! k = Some (mc.2 + N.of_nat i)%N.
Proof.
  revert mc i. induction keys as [|k' keys IH]; intros mc i Hnd Hi; [done|].
  apply NoDup_cons in Hnd as [Hnotin Hnd]. destruct i as [|i]; simpl in *.
  - injection Hi as ->. rewrite alloc_lookup_notin by assumption.
    simpl. rewrite lookup_insert_eq. f_equal. lia.
  - rewrite (IH _ i) by assumption. simpl. f_equal. lia.
Qed.

Lemma alloc_lookup_Some keys mc k v :
  (alloc keys mc).1 !! k = Some v → k ∈ keys ∨ mc.1 !! k = Some v.
Proof.
  destruct (decide (k ∈ keys)) as [Hin|Hnotin]; [by left|].
  rewrite alloc_lookup_notin by assumption. by right.
Qed.

Lemma alloc_size keys mc :
  NoDup keys → (∀ k, k ∈ keys → mc.1 !! k = None) →
  size (alloc keys mc).1 = size mc.1 + length keys.
Proof.
  revert mc. induction keys as [|k keys IH]; intros mc Hnd Hfresh; simpl; [lia|].
  apply NoDup_cons in Hnd as [Hnotin Hnd].
  rewrite IH; simpl.
  - rewrite map_size_insert_None; [lia|]. apply Hfresh. left.
  - assumption.
  - intros k' Hk'. rewrite lookup_insert_ne.
    + apply Hfresh. by right.
    + intros ->. contradiction.
Qed.

Lemma allocs_for d (xs : list nat) body (g : nat → list Key) :
  (∀ x, x ∈ xs → allocs d d (body x) (g x)) →
  allocs d d (for_ xs body) (xs ≫= g).
Proof.
  induction xs as [|x xs IH]; intros Hbody st Hd.
  - exists st. by repeat split.
  - destruct (Hbody x (list_elem_of_here _ _) st Hd) as (st1 & Hrun & Hd1 & Hc1 & Ha1).
    destruct (IH (λ y Hy, Hbody y (list_elem_of_further _ _ _ Hy)) st1 Hd1)
      as (st2 & Hrun2 & Hd2 & Hc2 & Ha2).
    exists st2. split; [|split; [|split]].
    + simpl. rewrite (bind_Ok _ _ _ _ _ Hrun). exact Hrun2.
    + exact Hd2.
    + congruence.
    + change ((x :: xs) ≫= g) with (g x ++ (xs ≫= g)).
      rewrite alloc_app, <- Ha1. exact Ha2.
Qed.

Lemma allocs_for_dep d (xs : list nat) body (g : nat → list Key) :
  (∀ x, x ∈ xs → allocs (Some x) (Some x) (body x) (g x)) →
  allocs d (leak xs d) (for_dep xs body) (xs ≫= g).
Proof.
  revert d. induction xs as [|x xs IH]; intros d Hbody st Hd.
  - exists st. by repeat split.
  - destruct (Hbody x (list_elem_of_here _ _)
                {| shifts := shifts st; model := model st; dep := Some x;
                   shifts_worked := shifts_worked st |} eq_refl)
      as (st1 & Hrun & Hd1 & Hc1 & Ha1).
    destruct (IH (Some x) (λ y Hy, Hbody y (list_elem_of_further _ _ _ Hy)) st1 Hd1)
      as (st2 & Hrun2 & Hd2 & Hc2 & Ha2).
    exists st2. split; [|split; [|split]].
    + unfold for_dep in *. simpl.
      unfold bind at 1. unfold bind at 1. simpl. rewrite Hrun. exact Hrun2.
    + by rewrite leak_cons.
    + rewrite Hc2, Hc1. reflexivity.
    + change ((x :: xs) ≫= g) with (g x ++ (xs ≫= g)).
      rewrite alloc_app. simpl in Ha1. rewrite <- Ha1. exact Ha2.
Qed.

Lemma allocs_store d n day s :
  allocs (Some d) (Some d)
    (v <- NewBoolVar ;; k <- tuple_dep n day s ;; setitem k v) [(d, n, day, s)].
Proof.
  intros st Hd. eexists. split; [|split; [|split]].
  - unfold bind, NewBoolVar, tuple_dep, read_dep, bind, ret, setitem. simpl.
    rewrite Hd. reflexivity.
  - reflexivity.
  - reflexivity.
  - reflexivity.
Qed.

Lemma create_variables_allocs cfg :
  allocs None (leak (all_departments cfg) None) (create_variables cfg) (all_keys cfg).
Proof.
  unfold create_variables, all_keys.
  apply allocs_for_dep; intros d _.
  apply allocs_for; intros n _.
  apply allocs_for; intros day _.
  apply (allocs_for _ _ _ (λ s, [(d, n, day, s)])); intros s _.
  apply allocs_store.
Qed.

Lemma elem_of_all_keys cfg k : k ∈ all_keys cfg ↔ legal cfg k.
Proof.
  destruct k as [[[d n] day] s]. unfold all_keys, legal.
  unfold all_departments, all_nurses, all_days.
  split.
  - intros H.
    apply list_elem_of_bind in H as (d' & H & Hd%elem_of_range).
    apply list_elem_of_bind in H as (n' & H & Hn%elem_of_range).
    apply list_elem_of_bind in H as (day' & H & Hday%elem_of_range).
    apply list_elem_of_bind in H as (s' & H & Hs%elem_of_range).
    apply list_elem_of_singleton in H. injection H as -> -> -> ->. done.
  - intros (Hd & Hn & Hday & Hs).
    apply list_elem_of_bind. exists d. split; [|by apply elem_of_range].
    apply list_elem_of_bind. exists n. split; [|by apply elem_of_range].
    apply list_elem_of_bind. exists day. split; [|by apply elem_of_range].
    apply list_elem_of_bind. exists s. split; [|by apply elem_of_range].
    by apply list_elem_of_singleton.
Qed.

Lemma NoDup_range n : NoDup (range n).
Proof. apply NoDup_seq. Qed.

Lemma NoDup_all_keys cfg : NoDup (all_keys cfg).
Proof.
  unfold all_keys.
  apply NoDup_bind; [| |apply NoDup_range].
  { intros d1 d2 k _ _ H1 H2.
    apply list_elem_of_bind in H1 as (n1 & H1 & _).
    apply list_elem_of_bind in H1 as (day1 & H1 & _).
    apply list_elem_of_bind in H1 as (s1 & H1 & _).
    apply list_elem_of_bind in H2 as (n2 & H2 & _).
    apply list_elem_of_bind in H2 as (day2 & H2 & _).
    apply list_elem_of_bind in H2 as (s2 & H2 & _).
    apply list_elem_of_singleton in H1, H2. congruence. }
  intros d _. apply NoDup_bind; [| |apply NoDup_range].
  { intros n1 n2 k _ _ H1 H2.
    apply list_elem_of_bind in H1 as (day1 & H1 & _).
    apply list_elem_of_bind in H1 as (s1 & H1 & _).
    apply list_elem_of_bind in H2 as (day2 & H2 & _).
    apply list_elem_of_bind in H2 as (s2 & H2 & _).
    apply list_elem_of_singleton in H1, H2. congruence. }
  intros n _. apply NoDup_bind; [| |apply NoDup_range].
  { intros day1 day2 k _ _ H1 H2.
    apply list_elem_of_bind in H1 as (s1 & H1 & _).
    apply list_elem_of_bind in H2 as (s2 & H2 & _).
    apply list_elem_of_singleton in H1, H2. congruence. }
  intros day _. apply NoDup_bind; [| |apply NoDup_range].
  { intros s1 s2 k _ _ H1 H2.
    apply list_elem_of_singleton in H1, H2. congruence. }
  intros s _. apply NoDup_singleton.
Qed.

Lemma length_bind_const {A B} (f : A → list B) (l : list A) c :
  (∀ x, x ∈ l → length (f x) = c) → length (l ≫= f) = length l * c.
Proof.
  induction l as [|x l IH]; intros Hf; [reflexivity|].
  rewrite bind_cons, length_app, IH, Hf; simpl.
  - reflexivity.
  - left.
  - intros y Hy. apply Hf. by right.
Qed.

Lemma length_bind_sum {A B} (f : A → list B) (l : list A) :
  length (l ≫= f) = sum_list (map (λ x, length (f x)) l).
Proof.
  induction l as [|x l IH]; [reflexivity|].
  rewrite bind_cons, length_app, IH. reflexivity.
Qed.

Lemma length_range n : length (range n) = n.
Proof. apply length_seq. Qed.

Lemma length_all_keys cfg :
  length (all_keys cfg) = num_departments cfg * num_nurses cfg * slots_per_week cfg.
Proof.
  unfold all_keys.
  rewrite (length_bind_const _ _ (num_nurses cfg * slots_per_week cfg)).
  { unfold all_departments. rewrite length_range. lia. }
  intros d _. rewrite (length_bind_const _ _ (slots_per_week cfg)).
  { unfold all_nurses. by rewrite length_range. }
  intros n _. rewrite length_bind_sum. unfold slots_per_week. f_equal.
  apply map_ext. intros day.
  rewrite (length_bind_const _ _ 1); [rewrite length_range; lia|done].
Qed.

Lemma created_lookup cfg i k :
  all_keys cfg !! i = Some k → created cfg !! k = Some (N.of_nat i).
Proof.
  intros Hi. unfold created.
  rewrite (alloc_lookup _ _ i k (NoDup_all_keys cfg) Hi). reflexivity.
Qed.

Lemma created_legal cfg k : is_Some (created cfg !! k) ↔ legal cfg k.
Proof.
  rewrite <- elem_of_all_keys. split.
  - intros [v Hv]. apply alloc_lookup_Some in Hv as [Hin|Hempty]; [exact Hin|].
    simpl in Hempty. by rewrite lookup_empty in Hempty.
  - intros (i & Hi)%list_elem_of_lookup. rewrite (created_lookup _ _ _ Hi). eauto.
Qed.

Lemma created_index cfg k v :
  created cfg !! k = Some v → all_keys cfg !! N.to_nat v = Some k.
Proof.
  intros Hv. assert (Hin : k ∈ all_keys cfg).
  { apply elem_of_all_keys, created_legal. eauto. }
  apply list_elem_of_lookup in Hin as (i & Hi).
  rewrite (created_lookup _ _ _ Hi) in Hv. injection Hv as <-.
  by rewrite Nat2N.id.
Qed.

Lemma created_inj cfg k1 k2 v :
  created cfg !! k1 = Some v → created cfg !! k2 = Some v → k1 = k2.
Proof.
  intros H1%created_index H2%created_index. congruence.
Qed.

Lemma created_size cfg : size (created cfg) = length (all_keys cfg).
Proof.
  unfold created. rewrite alloc_size.
  - simpl. by rewrite map_size_empty.
  - apply NoDup_all_keys.
  - intros k _. apply lookup_empty.
Qed.

Lemma create_variables_run cfg :
  ∃ st, create_variables cfg init_frame = Ok (tt, st)
        ∧ shifts st = created cfg
        ∧ num_vars (model st) = N.of_nat (length (all_keys cfg))
        ∧ constraints (model st) = []
        ∧ dep st = leak (all_departments cfg) None.
Proof.
  destruct (create_variables_allocs cfg init_frame eq_refl)
    as (st & Hrun & Hdep & Hcs & Halloc).
  exists st. simpl in Halloc.
  assert (H1 := f_equal fst Halloc). assert (H2 := f_equal snd Halloc).
  simpl in H1, H2. rewrite alloc_counter in H2. simpl in H2.
  repeat split; assumption.
Qed.

(** C7. With the constants of [main] a day has 2 slots when it is one of days
    0-4 and 1 slot otherwise (days 5 and 6).  Variable creation succeeds and
    leaves in [shifts] exactly the keys (dep, n, day, s) whose components are
    in range with s below the day's slot count; different keys hold different
    variables, every stored variable was created by the model, and the number
    of variables is departments x nurses x (sum over the days of the day's
    slot count); that sum is 12 for [main], which makes 15 x 100 x 12 = 18000
    variables. *)
Theorem variable_space (cfg : Config) :
  (∀ day, num_shifts_of main_config day = if day <? 5 then 2 else 1)
  ∧ sum_list (map (num_shifts_of main_config) (all_days main_config)) = 12
  ∧ ∃ st, create_variables cfg init_frame = Ok (tt, st)
      ∧ (∀ k, is_Some (shifts st !! k) ↔ legal cfg k)
      ∧ (∀ k1 k2 v, shifts st !! k1 = Some v → shifts st !! k2 = Some v → k1 = k2)
      ∧ (∀ k v, shifts st !! k = Some v → (v < num_vars (model st))%N)
      ∧ size (shifts st)
        = num_departments cfg * num_nurses cfg
          * sum_list (map (num_shifts_of cfg) (all_days cfg))
      ∧ num_vars (model st) = N.of_nat (size (shifts st)).
Proof.
  split.
  { intros day. unfold num_shifts_of. rewrite elem_weekdays.
    by destruct (day <? 5). }
  split; [reflexivity|].
  destruct (create_variables_run cfg) as (st & Hrun & Hsh & Hnv & _ & _).
  exists st. rewrite Hsh, Hnv, created_size, length_all_keys.
  split; [exact Hrun|]. split; [apply created_legal|].
  split; [apply created_inj|]. split; [|split; reflexivity].
  intros k v Hv. apply created_index in Hv.
  apply lookup_lt_Some in Hv. rewrite length_all_keys in Hv. lia.
Qed.

(** ** Rules for statements that add constraints *)

Section rules.
Context (cfg : Config) (sh : gmap Key BoolVar).
Hypothesis sh_complete : ∀ k, legal cfg k → is_Some (sh !! k).

Lemma reads_ret {A : Type} d (a : A) : reads sh d (ret a) a.
Proof. by intros st _ _. Qed.

Lemma reads_bind {A B : Type} d (m : M Frame A) (k : A → M Frame B) a b :
  reads sh d m a → reads sh d (k a) b → reads sh d (bind m k) b.
Proof.
  intros Hm Hk st Hsh Hd. rewrite (bind_Ok _ _ _ _ _ (Hm st Hsh Hd)). by apply Hk.
Qed.

Lemma reads_read_dep d : reads sh (Some d) read_dep d.
Proof. intros st _ Hd. unfold read_dep. by rewrite Hd. Qed.

Lemma reads_tuple_dep d n day s : reads sh (Some d) (tuple_dep n day s) (d, n, day, s).
Proof. eapply reads_bind; [apply reads_read_dep|apply reads_ret]. Qed.

Lemma reads_getitem d k : legal cfg k → reads sh d (getitem k) (var sh k).
Proof.
  intros [v Hv]%sh_complete st Hsh _. unfold getitem, var.
  rewrite Hsh, Hv. reflexivity.
Qed.

Lemma reads_contains d k : reads sh d (contains k) (bool_decide (is_Some (sh !! k))).
Proof. intros st Hsh _. unfold contains. by rewrite Hsh. Qed.

Lemma reads_shifts_at d n day s :
  legal cfg (d, n, day, s) → reads sh (Some d) (shifts_at n day s) (var sh (d, n, day, s)).
Proof.
  intros Hk. eapply reads_bind; [apply reads_tuple_dep|by apply reads_getitem].
Qed.

Lemma reads_in_shifts d n day s :
  legal cfg (d, n, day, s) → reads sh (Some d) (in_shifts n day s) true.
Proof.
  intros Hk. eapply reads_bind; [apply reads_tuple_dep|].
  replace true with (bool_decide (is_Some (sh !! (d, n, day, s)))).
  - apply reads_contains.
  - apply bool_decide_eq_true. by apply sh_complete.
Qed.

Lemma reads_mapM {A B : Type} d (f : A → M Frame B) (g : A → B) xs :
  (∀ x, x ∈ xs → reads sh d (f x) (g x)) → reads sh d (mapM f xs) (map g xs).
Proof.
  induction xs as [|x xs IH]; intros Hf; simpl; [apply reads_ret|].
  eapply reads_bind; [apply Hf; left|].
  eapply reads_bind; [apply IH; intros y Hy; apply Hf; by right|].
  apply reads_ret.
Qed.

Lemma emits_ret d : emits sh d d (ret tt) [].
Proof.
  intros st Hsh Hd. exists st. simpl. rewrite app_nil_r. by repeat split.
Qed.

Lemma emits_Add d c kc : c = resolve sh kc → emits sh d d (Add c) [kc].
Proof. intros -> st Hsh Hd. eexists. by repeat split. Qed.

Lemma emits_seq d d1 d2 m1 m2 kcs1 kcs2 :
  emits sh d d1 m1 kcs1 → emits sh d1 d2 m2 kcs2 →
  emits sh d d2 (m1 ;;; m2) (kcs1 ++ kcs2).
Proof.
  intros H1 H2 st Hsh Hd.
  destruct (H1 st Hsh Hd) as (st1 & Hrun1 & Hsh1 & Hd1 & Hn1 & Hc1).
  destruct (H2 st1 Hsh1 Hd1) as (st2 & Hrun2 & Hsh2 & Hd2 & Hn2 & Hc2).
  exists st2. rewrite (bind_Ok _ _ _ _ _ Hrun1).
  repeat split; try assumption; [congruence|].
  rewrite Hc2, Hc1, map_app, app_assoc. reflexivity.
Qed.

Lemma emits_read {A : Type} d d' (m : M Frame A) a (k : A → M Frame unit) kcs :
  reads sh d m a → emits sh d d' (k a) kcs → emits sh d d' (bind m k) kcs.
Proof.
  intros Hm Hk st Hsh Hd. rewrite (bind_Ok _ _ _ _ _ (Hm st Hsh Hd)). by apply Hk.
Qed.

Lemma emits_when d (b : bool) body kcs :
  (b = true → emits sh d d body kcs) →
  emits sh d d (when_ b body) (if b then kcs else []).
Proof. destruct b; intros H; [by apply H|apply emits_ret]. Qed.

Lemma emits_for {A : Type} d (xs : list A) body (g : A → list KConstraint) :
  (∀ x, x ∈ xs → emits sh d d (body x) (g x)) →
  emits sh d d (for_ xs body) (xs ≫= g).
Proof.
  induction xs as [|x xs IH]; intros Hbody; [apply emits_ret|].
  rewrite bind_cons. simpl. apply (emits_seq d d d).
  - apply Hbody. left.
  - apply IH. intros y Hy. apply Hbody. by right.
Qed.

Lemma emits_bind_dep d x : emits sh d (Some x) (bind_dep x) [].
Proof.
  intros st Hsh Hd. eexists. split; [reflexivity|]. simpl.
  rewrite app_nil_r. by repeat split.
Qed.

Lemma emits_for_dep d (xs : list nat) body (g : nat → list KConstraint) :
  (∀ x, x ∈ xs → emits sh (Some x) (Some x) (body x) (g x)) →
  emits sh d (leak xs d) (for_dep xs body) (xs ≫= g).
Proof.
  revert d. induction xs as [|x xs IH]; intros d Hbody; [apply emits_ret|].
  rewrite bind_cons, leak_cons. unfold for_dep. simpl.
  apply (emits_seq d (Some x)).
  - apply (emits_seq d (Some x) (Some x) _ _ []); [apply emits_bind_dep|].
    apply Hbody. left.
  - apply IH. intros y Hy. apply Hbody. by right.
Qed.

Lemma collects_ret d : collects sh d d (ret tt) [].
Proof.
  intros st Hsh Hd. exists st. simpl. rewrite app_nil_r. by repeat split.
Qed.

Lemma collects_seq d d1 d2 m1 m2 ks1 ks2 :
  collects sh d d1 m1 ks1 → collects sh d1 d2 m2 ks2 →
  collects sh d d2 (m1 ;;; m2) (ks1 ++ ks2).
Proof.
  intros H1 H2 st Hsh Hd.
  destruct (H1 st Hsh Hd) as (st1 & Hrun1 & Hsh1 & Hd1 & Hn1 & Hc1).
  destruct (H2 st1 Hsh1 Hd1) as (st2 & Hrun2 & Hsh2 & Hd2 & Hn2 & Hc2).
  exists st2. rewrite (bind_Ok _ _ _ _ _ Hrun1).
  repeat split; try assumption; [congruence|].
  rewrite Hc2, Hc1, map_app, app_assoc. reflexivity.
Qed.

Lemma collects_read {A : Type} d d' (m : M Frame A) a (k : A → M Frame unit) ks :
  reads sh d m a → collects sh d d' (k a) ks → collects sh d d' (bind m k) ks.
Proof.
  intros Hm Hk st Hsh Hd. rewrite (bind_Ok _ _ _ _ _ (Hm st Hsh Hd)). by apply Hk.
Qed.

Lemma collects_extend d vs ks :
  vs = map (var sh) ks → collects sh d d (extend_shifts_worked vs) ks.
Proof. intros -> st Hsh Hd. eexists. by repeat split. Qed.

Lemma collects_for {A : Type} d (xs : list A) body (g : A → list Key) :
  (∀ x, x ∈ xs → collects sh d d (body x) (g x)) →
  collects sh d d (for_ xs body) (xs ≫= g).
Proof.
  induction xs as [|x xs IH]; intros Hbody; [apply collects_ret|].
  rewrite bind_cons. simpl. apply (collects_seq d d d).
  - apply Hbody. left.
  - apply IH. intros y Hy. apply Hbody. by right.
Qed.

Lemma collects_bind_dep d x : collects sh d (Some x) (bind_dep x) [].
Proof.
  intros st Hsh Hd. eexists. split; [reflexivity|]. simpl.
  rewrite app_nil_r. by repeat split.
Qed.

Lemma collects_for_dep d (xs : list nat) body (g : nat → list Key) :
  (∀ x, x ∈ xs → collects sh (Some x) (Some x) (body x) (g x)) →
  collects sh d (leak xs d) (for_dep xs body) (xs ≫= g).
Proof.
  revert d. induction xs as [|x xs IH]; intros d Hbody; [apply collects_ret|].
  rewrite bind_cons, leak_cons. unfold for_dep. simpl.
  apply (collects_seq d (Some x)).
  - apply (collects_seq d (Some x) (Some x) _ _ []); [apply collects_bind_dep|].
    apply Hbody. left.
  - apply IH. intros y Hy. apply Hbody. by right.
Qed.

End rules.

(** ** What each loop nest adds *)

Lemma elem_of_range2 a b x : x ∈ range2 a b ↔ a ≤ x < b.
Proof. unfold range2. rewrite elem_of_seq. lia. Qed.

Lemma elem_of_weekdays day : day ∈ weekdays ↔ day < 5.
Proof. apply elem_of_range. Qed.

Lemma elem_of_weekends day : day ∈ weekends ↔ day = 5 ∨ day = 6.
Proof. unfold weekends. rewrite elem_of_range2. lia. Qed.

Lemma num_shifts_weekday cfg day : day < 5 → num_shifts_of cfg day = num_weekday_shifts cfg.
Proof.
  intros H. unfold num_shifts_of. rewrite elem_weekdays.
  by apply Nat.ltb_lt in H as ->.
Qed.

Lemma num_shifts_weekend cfg day : 5 ≤ day → num_shifts_of cfg day = num_weekend_shifts cfg.
Proof.
  intros H. unfold num_shifts_of. rewrite elem_weekdays.
  by apply Nat.ltb_ge in H as ->.
Qed.

Lemma elem_of_list_prod {A B} (xs : list A) (ys : list B) x y :
  (x, y) ∈ list_prod xs ys ↔ x ∈ xs ∧ y ∈ ys.
Proof. rewrite !list_elem_of_In. apply in_prod_iff. Qed.

Section encoders.
Context (cfg : Config) (sh : gmap Key BoolVar).
Hypothesis sh_complete : ∀ k, legal cfg k → is_Some (sh !! k).

Lemma add_coverage_emits d :
  emits sh d (leak (all_departments cfg) d) (add_coverage cfg) (coverage_spec cfg).
Proof.
  unfold add_coverage, coverage_spec.
  apply emits_for_dep; intros dp Hdp%elem_of_range.
  apply (emits_for sh (Some dp) _ _ (λ day, [_])); intros day Hday%elem_of_range.
  eapply emits_read.
  - apply (reads_mapM sh _ _ (λ '(n, s), var sh (dp, n, day, s))).
    intros [n s] [Hn%elem_of_range Hs%elem_of_range]%elem_of_list_prod.
    by apply (reads_shifts_at cfg sh sh_complete).
  - apply emits_Add. unfold resolve. simpl. f_equal.
    rewrite map_map. apply map_ext. by intros [n s].
Qed.

Ltac legal_key :=
  unfold legal;
  rewrite ?num_shifts_weekday by lia; rewrite ?num_shifts_weekend by lia;
  repeat split; lia.

Lemma add_adjacent_emits d :
  d < num_departments cfg → 5 ≤ num_days cfg →
  emits sh (Some d) (Some d) (add_adjacent cfg) (adjacent_spec cfg d).
Proof.
  intros Hd Hdays. unfold add_adjacent, adjacent_spec.
  apply emits_for; intros n Hn%elem_of_range.
  apply emits_for; intros day Hday%elem_of_weekdays.
  apply emits_for; intros s Hs%elem_of_range.
  apply emits_when. intros Hlt%Z.ltb_lt.
  eapply emits_read; [apply (reads_shifts_at cfg sh sh_complete); legal_key|].
  eapply emits_read; [apply (reads_shifts_at cfg sh sh_complete); legal_key|].
  by apply emits_Add.
Qed.

Lemma rest_pairs_emits d n day s :
  legal cfg (d, n, day, s) →
  emits sh (Some d) (Some d)
    (for_ (next_days cfg day) (λ next_day,
       let next_shifts := num_shifts_of cfg next_day in
       for_ (range next_shifts) (λ next_s,
         present' <- in_shifts n next_day next_s ;;
         when_ present'
           (a <- shifts_at n day s ;;
            b <- shifts_at n next_day next_s ;;
            Add {| lhs := [a; b]; cmp := CmpLe; rhs := 1 |}))))
    (rest_pairs cfg d n day s).
Proof.
  intros Hk. unfold rest_pairs.
  apply emits_for; intros next_day Hnd%elem_of_range2.
  apply (emits_for sh _ _ _ (λ next_s, [_])); intros next_s Hns%elem_of_range.
  assert (legal cfg (d, n, next_day, next_s)) by (unfold legal in *; repeat split; lia).
  eapply emits_read; [by apply (reads_in_shifts cfg sh sh_complete)|].
  eapply emits_read; [by apply (reads_shifts_at cfg sh sh_complete)|].
  eapply emits_read; [by apply (reads_shifts_at cfg sh sh_complete)|].
  by apply emits_Add.
Qed.

Lemma rest_triples_emits d n day s :
  legal cfg (d, n, day, s) → legal cfg (d, n, day, s + 1) →
  emits sh (Some d) (Some d)
    (for_ (next_days cfg day) (λ next_day,
       let next_shifts := num_shifts_of cfg next_day in
       for_ (range next_shifts) (λ next_s,
         present' <- in_shifts n next_day next_s ;;
         when_ present'
           (a <- shifts_at n day s ;;
            b <- shifts_at n day (s + 1) ;;
            c <- shifts_at n next_day next_s ;;
            Add {| lhs := [a; b; c]; cmp := CmpLe; rhs := 2 |}))))
    (rest_triples cfg d n day s).
Proof.
  intros Hk Hk'. unfold rest_triples.
  apply emits_for; intros next_day Hnd%elem_of_range2.
  apply (emits_for sh _ _ _ (λ next_s, [_])); intros next_s Hns%elem_of_range.
  assert (legal cfg (d, n, next_day, next_s)) by (unfold legal in *; repeat split; lia).
  eapply emits_read; [by apply (reads_in_shifts cfg sh sh_complete)|].
  eapply emits_read; [by apply (reads_shifts_at cfg sh sh_complete)|].
  eapply emits_read; [by apply (reads_shifts_at cfg sh sh_complete)|].
  eapply emits_read; [by apply (reads_shifts_at cfg sh sh_complete)|].
  by apply emits_Add.
Qed.

Lemma add_rest_emits d :
  d < num_departments cfg →
  emits sh (Some d) (Some d) (add_rest cfg) (rest_spec cfg d).
Proof.
  intros Hd. unfold add_rest, rest_spec.
  apply emits_for; intros n Hn%elem_of_range.
  apply emits_for; intros day Hday%elem_of_range.
  apply emits_when. intros _.
  apply emits_for; intros s Hs%elem_of_range.
  assert (legal cfg (d, n, day, s)) by done.
  eapply emits_read; [by apply (reads_in_shifts cfg sh sh_complete)|].
  apply (emits_seq sh (Some d) (Some d)).
  - by apply rest_pairs_emits.
  - apply emits_when. intros Hlt%Z.ltb_lt. apply rest_triples_emits; [done|].
    unfold legal. repeat split; lia.
Qed.

Lemma add_single_department_emits d :
  emits sh d d (add_single_department cfg) (single_department_spec cfg).
Proof.
  unfold add_single_department, single_department_spec.
  apply emits_for; intros n Hn%elem_of_range.
  apply (emits_for sh _ _ _ (λ day, [_])); intros day Hday%elem_of_range.
  eapply emits_read.
  - apply (reads_mapM sh _ _ (λ '(dp, s), var sh (dp, n, day, s))).
    intros [dp s] [Hdp%elem_of_range Hs%elem_of_range]%elem_of_list_prod.
    by apply (reads_getitem cfg sh sh_complete).
  - apply emits_Add. unfold resolve, day_keys. simpl. f_equal.
    rewrite map_map. apply map_ext. by intros [dp s].
Qed.

Lemma add_weekend_emits d :
  7 ≤ num_days cfg →
  emits sh d d (add_weekend cfg) (weekend_spec cfg).
Proof.
  intros Hdays. unfold add_weekend, weekend_spec.
  apply (emits_for sh _ _ _ (λ n, [_])); intros n Hn%elem_of_range.
  eapply emits_read.
  - apply (reads_mapM sh _ _ (λ '(dp, (day, s)), var sh (dp, n, day, s))).
    intros [dp [day s]] [Hdp%elem_of_range Hds]%elem_of_list_prod.
    apply elem_of_list_prod in Hds as [Hday%elem_of_weekends Hs%elem_of_range].
    apply (reads_getitem cfg sh sh_complete). legal_key.
  - apply emits_Add. unfold resolve, weekend_keys. simpl. f_equal.
    rewrite map_map. apply map_ext. by intros [dp [day s]].
Qed.

Lemma nurse_keys_collects d n :
  n < num_nurses cfg →
  collects sh d (leak (all_departments cfg) d)
    (for_dep (all_departments cfg) (λ _,
       for_ (all_days cfg) (λ day,
         let num_shifts := num_shifts_of cfg day in
         vs <- mapM (λ s, shifts_at n day s) (range num_shifts) ;;
         extend_shifts_worked vs)))
    (nurse_keys cfg n).
Proof.
  intros Hn. unfold nurse_keys.
  apply collects_for_dep; intros dp Hdp%elem_of_range.
  apply collects_for; intros day Hday%elem_of_range.
  eapply collects_read.
  - apply (reads_mapM sh _ _ (λ s, var sh (dp, n, day, s))).
    intros s Hs%elem_of_range. by apply (reads_shifts_at cfg sh sh_complete).
  - apply collects_extend.
    generalize (range (num_shifts_of cfg day)). intros l.
    induction l as [|s l IH]; [reflexivity|].
    rewrite bind_cons. simpl. by rewrite IH.
Qed.

Lemma add_fairness_emits :
  0 < num_departments cfg → 0 < num_nurses cfg →
  emits sh (Some (num_departments cfg - 1)) (Some (num_departments cfg - 1))
    (add_fairness cfg) (fairness_spec cfg).
Proof.
  intros HD HN. unfold add_fairness, fairness_spec, floordiv, pymod.
  assert ((Z.of_nat (num_nurses cfg) =? 0)%Z = false) as -> by (apply Z.eqb_neq; lia).
  eapply emits_read; [apply reads_ret|].
  eapply emits_read; [apply reads_ret|].
  fold (min_shifts_per_nurse cfg). fold (max_shifts_per_nurse cfg).
  apply emits_for; intros n Hn%elem_of_range.
  intros st Hsh Hd.
  destruct (nurse_keys_collects (Some (num_departments cfg - 1)) n Hn
              {| shifts := shifts st; model := model st; dep := dep st;
                 shifts_worked := [] |} Hsh Hd)
    as (st1 & Hrun & Hsh1 & Hd1 & Hm1 & Hw1).
  simpl in Hm1, Hw1. unfold all_departments in Hd1.
  rewrite leak_range in Hd1 by assumption.
  eexists. split; [|split; [|split; [|split]]].
  - erewrite bind_Ok by reflexivity.
    rewrite (bind_Ok _ _ _ _ _ Hrun). reflexivity.
  - exact Hsh1.
  - exact Hd1.
  - simpl. by rewrite Hm1.
  - simpl. rewrite Hm1, Hw1, <- app_assoc. reflexivity.
Qed.

End encoders.

(** ** The model that [build_model] produces *)

Lemma build_model_run cfg :
  0 < num_departments cfg → 0 < num_nurses cfg → 7 ≤ num_days cfg →
  ∃ st, build_model cfg init_frame = Ok (tt, st)
        ∧ shifts st = created cfg
        ∧ dep st = Some (num_departments cfg - 1)
        ∧ num_vars (model st) = N.of_nat (length (all_keys cfg))
        ∧ constraints (model st)
          = map (resolve (created cfg)) (model_spec cfg (num_departments cfg - 1)).
Proof.
  intros HD HN Hdays.
  destruct (create_variables_run cfg) as (st0 & Hrun0 & Hsh0 & Hnv0 & Hcs0 & Hdep0).
  unfold all_departments in Hdep0. rewrite leak_range in Hdep0 by assumption.
  set (d := num_departments cfg - 1) in *.
  assert (Hd : d < num_departments cfg) by (subst d; lia).
  assert (Hcomplete : ∀ k, legal cfg k → is_Some (created cfg !! k)).
  { intros k. apply created_legal. }
  assert (Hemits : emits (created cfg) (Some d) (Some d)
            (add_coverage cfg ;;; add_adjacent cfg ;;; add_rest cfg ;;;
             add_single_department cfg ;;; add_weekend cfg ;;; add_fairness cfg)
            (model_spec cfg d)).
  { unfold model_spec.
    apply (emits_seq _ (Some d) (Some d)).
    { replace (Some d) with (leak (all_departments cfg) (Some d)) at 2
        by (unfold all_departments; by rewrite leak_range).
      by apply add_coverage_emits. }
    apply (emits_seq _ (Some d) (Some d)); [apply add_adjacent_emits; [done..|lia]|].
    apply (emits_seq _ (Some d) (Some d)); [by apply add_rest_emits|].
    apply (emits_seq _ (Some d) (Some d)); [by apply add_single_department_emits|].
    apply (emits_seq _ (Some d) (Some d)); [by apply add_weekend_emits|].
    by apply add_fairness_emits. }
  destruct (Hemits st0 Hsh0 Hdep0) as (st & Hrun & Hsh & Hdep & Hnv & Hcs).
  exists st. split; [|split; [|split; [|split]]].
  - unfold build_model. rewrite (bind_Ok _ _ _ _ _ Hrun0). exact Hrun.
  - exact Hsh.
  - exact Hdep.
  - congruence.
  - by rewrite Hcs, Hcs0.
Qed.

(** ** Solutions seen through the keys *)

Lemma works_var sh sol k : is_Some (sh !! k) → works sh sol k = sol (var sh k).
Proof. intros [v Hv]. unfold works, var. by rewrite Hv. Qed.

Lemma lin_value_ksum sh sol keys :
  (∀ k, k ∈ keys → is_Some (sh !! k)) →
  lin_value sol (map (var sh) keys) = ksum (works sh sol) keys.
Proof.
  induction keys as [|k keys IH]; intros Hkeys; simpl; [reflexivity|].
  rewrite IH, works_var; [reflexivity| |].
  - apply Hkeys. left.
  - intros k' Hk'. apply Hkeys. by right.
Qed.

Lemma holds_resolve sh sol kc :
  (∀ k, k ∈ kkeys kc → is_Some (sh !! k)) →
  holds sol (resolve sh kc) = kholds (works sh sol) kc.
Proof.
  intros Hkeys. unfold holds, kholds, resolve. simpl.
  by rewrite lin_value_ksum.
Qed.

Lemma satisfies_elem sol m c :
  satisfies sol m = true → c ∈ constraints m → holds sol c = true.
Proof.
  unfold satisfies. rewrite forallb_forall. intros H Hc. apply H.
  by apply list_elem_of_In.
Qed.

Lemma ksum_ext f g keys :
  (∀ k, k ∈ keys → f k = g k) → ksum f keys = ksum g keys.
Proof.
  induction keys as [|k keys IH]; intros Hfg; simpl; [reflexivity|].
  rewrite IH, Hfg; [reflexivity|left|].
  intros k' Hk'. apply Hfg. by right.
Qed.

Lemma ksum_nonneg f keys : (0 ≤ ksum f keys)%Z.
Proof.
  induction keys as [|k keys IH]; simpl; [lia|]. destruct (f k); simpl; lia.
Qed.

Lemma ksum_app f xs ys : ksum f (xs ++ ys) = (ksum f xs + ksum f ys)%Z.
Proof. induction xs as [|k xs IH]; simpl; lia. Qed.

Lemma ksum_elem f keys k : k ∈ keys → f k = true → (1 ≤ ksum f keys)%Z.
Proof.
  induction keys as [|k' keys IH]; intros Hk Hf; [by apply not_elem_of_nil in Hk|].
  simpl. apply elem_of_cons in Hk as [->|Hk].
  - rewrite Hf. pose proof (ksum_nonneg f keys). simpl. lia.
  - specialize (IH Hk Hf). destruct (f k'); simpl; lia.
Qed.

(** Two worked keys of a duplicate-free list make the count at least 2. *)
Lemma ksum_two f keys k1 k2 :
  NoDup keys → k1 ∈ keys → k2 ∈ keys → k1 ≠ k2 →
  f k1 = true → f k2 = true → (2 ≤ ksum f keys)%Z.
Proof.
  induction keys as [|k keys IH]; intros Hnd H1 H2 Hne Hf1 Hf2;
    [by apply not_elem_of_nil in H1|].
  apply NoDup_cons in Hnd as [Hnotin Hnd]. simpl.
  apply elem_of_cons in H1 as [->|H1]; apply elem_of_cons in H2 as [->|H2].
  - done.
  - rewrite Hf1. pose proof (ksum_elem f keys k2 H2 Hf2). simpl. lia.
  - rewrite Hf2. pose proof (ksum_elem f keys k1 H1 Hf1). simpl. lia.
  - specialize (IH Hnd H1 H2 Hne Hf1 Hf2). destruct (f k); simpl; lia.
Qed.

Lemma ksum_zero f keys : (∀ k, k ∈ keys → f k = false) → ksum f keys = 0%Z.
Proof.
  induction keys as [|k keys IH]; intros Hf; simpl; [reflexivity|].
  rewrite IH, Hf; [reflexivity|left|]. intros k' Hk'. apply Hf. by right.
Qed.

Lemma works_legal cfg sol k : works (created cfg) sol k = true → legal cfg k.
Proof.
  unfold works. intros H. apply created_legal.
  destruct (created cfg !! k); [eauto|discriminate].
Qed.

Lemma works_sol_of cfg f k :
  legal cfg k → works (created cfg) (sol_of cfg f) k = f k.
Proof.
  intros [v Hv]%created_legal. unfold works, sol_of. rewrite Hv.
  by rewrite (created_index _ _ _ Hv).
Qed.

Lemma NoDup_list_prod {A B} (xs : list A) (ys : list B) :
  NoDup xs → NoDup ys → NoDup (list_prod xs ys).
Proof.
  intros Hxs Hys. induction Hxs as [|x xs Hx Hxs IH]; simpl; [constructor|].
  apply NoDup_app. split; [|split; [|exact IH]].
  - apply (NoDup_fmap_2 (pair x)). exact Hys.
  - intros [a b] Hab Hab'. apply list_elem_of_fmap in Hab as (y & Heq & _).
    injection Heq as -> ->. apply elem_of_list_prod in Hab' as [Hx' _]. contradiction.
Qed.

Lemma built_inv cfg st :
  0 < num_departments cfg → 0 < num_nurses cfg → 7 ≤ num_days cfg →
  build_model cfg init_frame = Ok (tt, st) →
  shifts st = created cfg
  ∧ constraints (model st)
    = map (resolve (created cfg)) (model_spec cfg (num_departments cfg - 1)).
Proof.
  intros HD HN Hdays Hrun.
  destruct (build_model_run cfg HD HN Hdays) as (st' & Hrun' & Hsh & _ & _ & Hcs).
  rewrite Hrun in Hrun'. injection Hrun' as <-. by split.
Qed.

(** A constraint of the specification whose keys are legal holds, on the keys,
    in every solution of the model. *)
Lemma model_spec_holds cfg st sol kc :
  0 < num_departments cfg → 0 < num_nurses cfg → 7 ≤ num_days cfg →
  build_model cfg init_frame = Ok (tt, st) →
  satisfies sol (model st) = true →
  kc ∈ model_spec cfg (num_departments cfg - 1) →
  (∀ k, k ∈ kkeys kc → legal cfg k) →
  kholds (works (shifts st) sol) kc = true.
Proof.
  intros HD HN Hdays Hrun Hsat Hkc Hlegal.
  destruct (built_inv cfg st HD HN Hdays Hrun) as [Hsh Hcs].
  rewrite Hsh. rewrite <- holds_resolve.
  - apply (satisfies_elem sol (model st)); [exact Hsat|].
    rewrite Hcs. apply list_elem_of_fmap. eauto.
  - intros k Hk. by apply created_legal, Hlegal.
Qed.

Lemma elem_of_nurse_keys cfg n k :
  n < num_nurses cfg →
  k ∈ nurse_keys cfg n ↔ legal cfg k ∧ k.1.1.2 = n.
Proof.
  intros Hlt. destruct k as [[[d n'] day] s]. unfold nurse_keys, legal. simpl. split.
  - intros H.
    apply list_elem_of_bind in H as (d' & H & Hd%elem_of_range).
    apply list_elem_of_bind in H as (day' & H & Hday%elem_of_range).
    apply list_elem_of_bind in H as (s' & H & Hs%elem_of_range).
    apply list_elem_of_singleton in H. injection H as -> -> -> ->. done.
  - intros ((Hd & Hn & Hday & Hs) & ->).
    apply list_elem_of_bind. exists d. split; [|by apply elem_of_range].
    apply list_elem_of_bind. exists day. split; [|by apply elem_of_range].
    apply list_elem_of_bind. exists s. split; [|by apply elem_of_range].
    by apply list_elem_of_singleton.
Qed.

Lemma fairness_spec_elem cfg n :
  n < num_nurses cfg →
  {| kkeys := nurse_keys cfg n; kcmp := CmpGe; krhs := min_shifts_per_nurse cfg |}
    ∈ model_spec cfg (num_departments cfg - 1)
  ∧ {| kkeys := nurse_keys cfg n; kcmp := CmpLe; krhs := max_shifts_per_nurse cfg |}
    ∈ model_spec cfg (num_departments cfg - 1).
Proof.
  intros Hn. unfold model_spec. rewrite !elem_of_app.
  split; do 5 right; unfold fairness_spec; apply list_elem_of_bind; exists n;
    (split; [|by apply elem_of_range]).
  - left.
  - right. left.
Qed.

(** C4. The band is computed from total = departments x (weekday slots x 5 +
    weekend slots x 2): the lower bound is the floor of total / nurses and the
    upper bound is one more exactly when the division leaves a remainder.  For
    every nurse with at least one variable the model holds the constraint that
    the sum of all the nurse's variables is at least the lower bound and the
    one that it is at most the upper bound, whether or not the model has a
    solution; and in every solution the number of slots a nurse works, over
    every department, day and slot, lies within the band. *)
Theorem fair_workload_band (cfg : Config) (st : Frame) (n : nat) :
  0 < num_departments cfg → 7 ≤ num_days cfg →
  build_model cfg init_frame = Ok (tt, st) →
  n < num_nurses cfg →
  let total := (Z.of_nat (num_departments cfg)
                * (Z.of_nat (num_weekday_shifts cfg) * 5
                   + Z.of_nat (num_weekend_shifts cfg) * 2))%Z in
  let lo := (total / Z.of_nat (num_nurses cfg))%Z in
  let hi := if (total mod Z.of_nat (num_nurses cfg) =? 0)%Z then lo else (lo + 1)%Z in
  total_shifts cfg = total
  ∧ (lo * Z.of_nat (num_nurses cfg) ≤ total < (lo + 1) * Z.of_nat (num_nurses cfg))%Z
  ∧ (nurse_keys cfg n ≠ [] →
       resolve (shifts st) {| kkeys := nurse_keys cfg n; kcmp := CmpGe; krhs := lo |}
         ∈ constraints (model st)
       ∧ resolve (shifts st) {| kkeys := nurse_keys cfg n; kcmp := CmpLe; krhs := hi |}
         ∈ constraints (model st))
  ∧ ∀ sol : Solution, satisfies sol (model st) = true →
      (lo ≤ ksum (works (shifts st) sol) (nurse_keys cfg n) ≤ hi)%Z.
Proof.
  intros HD Hdays Hrun Hn total lo hi.
  assert (HN : 0 < num_nurses cfg) by lia.
  assert (Htotal : total_shifts cfg = total) by reflexivity.
  assert (Hlo : min_shifts_per_nurse cfg = lo) by reflexivity.
  assert (Hhi : max_shifts_per_nurse cfg = hi).
  { unfold max_shifts_per_nurse, hi. rewrite Hlo, Htotal.
    by destruct (total mod Z.of_nat (num_nurses cfg) =? 0)%Z. }
  destruct (fairness_spec_elem cfg n Hn) as [Hge Hle].
  rewrite Hlo in Hge. rewrite Hhi in Hle.
  destruct (built_inv cfg st HD HN Hdays Hrun) as [Hsh Hcs].
  assert (Hlegal : ∀ k, k ∈ nurse_keys cfg n → legal cfg k).
  { intros k Hk. by apply elem_of_nurse_keys in Hk as [Hk _]. }
  split; [exact Htotal|]. split.
  { unfold lo. pose proof (Z.mul_div_le total (Z.of_nat (num_nurses cfg))).
    pose proof (Z.mul_succ_div_gt total (Z.of_nat (num_nurses cfg))). lia. }
  split.
  - intros _. rewrite Hcs, Hsh. split; apply list_elem_of_fmap; eauto.
  - intros sol Hsat.
    pose proof (model_spec_holds cfg st sol _ HD HN Hdays Hrun Hsat Hge Hlegal) as H1.
    pose proof (model_spec_holds cfg st sol _ HD HN Hdays Hrun Hsat Hle Hlegal) as H2.
    unfold kholds in H1, H2. simpl in H1, H2.
    apply Z.leb_le in H1, H2. lia.
Qed.

Lemma final_ok {S} (m : M S unit) (st0 : S) :
  is_ok (m st0) = true → m st0 = Ok (tt, final m st0).
Proof.
  unfold is_ok, final. destruct (m st0) as [[[] st]|]; [reflexivity|discriminate].
Qed.

Lemma built_ok cfg :
  succeeds cfg = true → build_model cfg init_frame = Ok (tt, built cfg).
Proof. apply final_ok. Qed.

Lemma fair_workload_band_witness :
  total_shifts wide_weekend_config = 14%Z
  ∧ resolve (shifts (built wide_weekend_config))
      {| kkeys := nurse_keys wide_weekend_config 0; kcmp := CmpLe; krhs := 2 |}
    ∈ constraints (model (built wide_weekend_config))
  ∧ satisfies wide_weekend_solution (model (built wide_weekend_config)) = true
  ∧ (1 ≤ ksum (works (shifts (built wide_weekend_config)) wide_weekend_solution)
            (nurse_keys wide_weekend_config 0) ≤ 2)%Z.
Proof.
  assert (H1 : 0 < num_departments wide_weekend_config) by (simpl; lia).
  assert (H2 : 7 ≤ num_days wide_weekend_config) by (simpl; lia).
  assert (H3 : build_model wide_weekend_config init_frame
               = Ok (tt, built wide_weekend_config))
    by (apply built_ok; vm_compute; reflexivity).
  assert (H4 : 0 < num_nurses wide_weekend_config) by (simpl; lia).
  assert (H5 : nurse_keys wide_weekend_config 0 ≠ []) by (vm_compute; discriminate).
  assert (H6 : satisfies wide_weekend_solution (model (built wide_weekend_config)) = true)
    by (vm_compute; reflexivity).
  pose proof (fair_workload_band wide_weekend_config (built wide_weekend_config) 0
                H1 H2 H3 H4) as (Htotal & _ & Hmem & Hband).
  split; [exact Htotal|]. split; [exact (proj2 (Hmem H5))|].
  split; [exact H6|]. exact (Hband wide_weekend_solution H6).
Defined.

Lemma elem_of_day_keys cfg n day k :
  n < num_nurses cfg → day < num_days cfg →
  k ∈ day_keys cfg n day ↔ legal cfg k ∧ k.1.1.2 = n ∧ k.1.2 = day.
Proof.
  intros Hn Hday. destruct k as [[[d n'] day'] s]. unfold day_keys, legal. simpl.
  rewrite list_elem_of_fmap. split.
  - intros ([d' s'] & Heq & [Hd%elem_of_range Hs%elem_of_range]%elem_of_list_prod).
    injection Heq as -> -> -> ->. done.
  - intros ((Hd & _ & _ & Hs) & -> & ->). exists (d, s). split; [done|].
    apply elem_of_list_prod. split; by apply elem_of_range.
Qed.

Lemma NoDup_day_keys cfg n day : NoDup (day_keys cfg n day).
Proof.
  unfold day_keys. apply NoDup_fmap_2.
  - intros [d s] [d' s'] Heq. by injection Heq as -> ->.
  - apply NoDup_list_prod; apply NoDup_range.
Qed.

Lemma single_department_spec_elem cfg n day :
  n < num_nurses cfg → day < num_days cfg →
  {| kkeys := day_keys cfg n day; kcmp := CmpLe; krhs := 1 |}
    ∈ model_spec cfg (num_departments cfg - 1).
Proof.
  intros Hn Hday. unfold model_spec. rewrite !elem_of_app. do 3 right. left.
  unfold single_department_spec.
  apply list_elem_of_bind. exists n. split; [|by apply elem_of_range].
  apply list_elem_of_bind. exists day. split; [|by apply elem_of_range].
  left.
Qed.

(** C5. For each nurse and day the model holds the constraint that the sum of
    the nurse's variables over all departments and all slots of that day is at
    most 1; hence in every solution at most one of them is true: a nurse who
    works (dep, s) and (dep', s') on the same day has dep = dep' and s = s'. *)
Theorem one_slot_per_day (cfg : Config) (st : Frame) (sol : Solution) (n day : nat) :
  0 < num_departments cfg → 7 ≤ num_days cfg →
  build_model cfg init_frame = Ok (tt, st) →
  satisfies sol (model st) = true →
  n < num_nurses cfg → day < num_days cfg →
  resolve (shifts st) {| kkeys := day_keys cfg n day; kcmp := CmpLe; krhs := 1 |}
    ∈ constraints (model st)
  ∧ (ksum (works (shifts st) sol) (day_keys cfg n day) ≤ 1)%Z
  ∧ ∀ dep s dep' s',
      works (shifts st) sol (dep, n, day, s) = true →
      works (shifts st) sol (dep', n, day, s') = true →
      dep = dep' ∧ s = s'.
Proof.
  intros HD Hdays Hrun Hsat Hn Hday.
  assert (HN : 0 < num_nurses cfg) by lia.
  pose proof (single_department_spec_elem cfg n day Hn Hday) as Helem.
  destruct (built_inv cfg st HD HN Hdays Hrun) as [Hsh Hcs].
  assert (Hle : (ksum (works (shifts st) sol) (day_keys cfg n day) ≤ 1)%Z).
  { apply Z.leb_le.
    apply (model_spec_holds cfg st sol _ HD HN Hdays Hrun Hsat Helem).
    intros k Hk. by apply (elem_of_day_keys cfg n day k Hn Hday) in Hk as [Hk _]. }
  split; [|split; [exact Hle|]].
  - rewrite Hcs, Hsh. apply list_elem_of_fmap. eauto.
  - intros d s d' s' H1 H2.
    destruct (decide ((d, n, day, s) = (d', n, day, s'))) as [Heq|Hne].
    { by injection Heq as -> ->. }
    exfalso.
    assert (Hin : ∀ x y, works (shifts st) sol (x, n, day, y) = true →
                         (x, n, day, y) ∈ day_keys cfg n day).
    { intros x y Hw. apply (elem_of_day_keys cfg n day _ Hn Hday).
      rewrite Hsh in Hw. apply works_legal in Hw. done. }
    pose proof (ksum_two _ _ _ _ (NoDup_day_keys cfg n day)
                  (Hin _ _ H1) (Hin _ _ H2) Hne H1 H2). lia.
Qed.

Lemma one_slot_per_day_witness :
  (ksum (works (shifts (built ward_config)) ward_solution)
        (day_keys ward_config 3 1) ≤ 1)%Z.
Proof.
  destruct (one_slot_per_day ward_config (built ward_config) ward_solution 3 1)
    as (_ & H & _).
  - simpl. lia.
  - simpl. lia.
  - apply built_ok. vm_compute. reflexivity.
  - vm_compute. reflexivity.
  - simpl. lia.
  - simpl. lia.
  - exact H.
Defined.

Lemma elem_of_weekend_keys cfg n k :
  n < num_nurses cfg → 7 ≤ num_days cfg →
  k ∈ weekend_keys cfg n ↔ legal cfg k ∧ k.1.1.2 = n ∧ (k.1.2 = 5 ∨ k.1.2 = 6).
Proof.
  intros Hn Hdays. destruct k as [[[d n'] day'] s]. unfold weekend_keys, legal.
  cbn [fst snd]. rewrite list_elem_of_fmap. split.
  - intros ([d' [day s']] & Heq & [Hd%elem_of_range Hds]%elem_of_list_prod).
    apply elem_of_list_prod in Hds as [Hday%elem_of_weekends Hs%elem_of_range].
    injection Heq as -> -> -> ->.
    rewrite num_shifts_weekend by lia. repeat split; try done; lia.
  - intros ((Hd & _ & _ & Hs) & -> & Hday). exists (d, (day', s)). split; [done|].
    rewrite num_shifts_weekend in Hs by lia.
    apply elem_of_list_prod. split; [by apply elem_of_range|].
    apply elem_of_list_prod. split; [by apply elem_of_weekends|by apply elem_of_range].
Qed.

Lemma NoDup_weekend_keys cfg n : NoDup (weekend_keys cfg n).
Proof.
  unfold weekend_keys. apply NoDup_fmap_2.
  - intros [d [day s]] [d' [day' s']] Heq. by injection Heq as -> -> ->.
  - apply NoDup_list_prod; [apply NoDup_range|].
    apply NoDup_list_prod; [apply NoDup_seq|apply NoDup_range].
Qed.

Lemma weekend_spec_elem cfg n :
  n < num_nurses cfg →
  {| kkeys := weekend_keys cfg n; kcmp := CmpLe; krhs := 1 |}
    ∈ model_spec cfg (num_departments cfg - 1).
Proof.
  intros Hn. unfold model_spec. rewrite !elem_of_app. do 4 right. left.
  unfold weekend_spec.
  apply list_elem_of_bind. exists n. split; [|by apply elem_of_range].
  left.
Qed.

(** C6. For each nurse the model holds the constraint that the sum of the
    nurse's variables over all departments, days 5 and 6 and all weekend slots
    is at most 1; hence in every solution no nurse works on both weekend days,
    whatever the departments. *)
Theorem one_weekend_day (cfg : Config) (st : Frame) (sol : Solution) (n : nat) :
  0 < num_departments cfg → 7 ≤ num_days cfg →
  build_model cfg init_frame = Ok (tt, st) →
  satisfies sol (model st) = true →
  n < num_nurses cfg →
  resolve (shifts st) {| kkeys := weekend_keys cfg n; kcmp := CmpLe; krhs := 1 |}
    ∈ constraints (model st)
  ∧ (ksum (works (shifts st) sol) (weekend_keys cfg n) ≤ 1)%Z
  ∧ ∀ dep s dep' s',
      ¬ (works (shifts st) sol (dep, n, 5, s) = true
         ∧ works (shifts st) sol (dep', n, 6, s') = true).
Proof.
  intros HD Hdays Hrun Hsat Hn.
  assert (HN : 0 < num_nurses cfg) by lia.
  pose proof (weekend_spec_elem cfg n Hn) as Helem.
  destruct (built_inv cfg st HD HN Hdays Hrun) as [Hsh Hcs].
  assert (Hle : (ksum (works (shifts st) sol) (weekend_keys cfg n) ≤ 1)%Z).
  { apply Z.leb_le.
    apply (model_spec_holds cfg st sol _ HD HN Hdays Hrun Hsat Helem).
    intros k Hk. by apply (elem_of_weekend_keys cfg n k Hn Hdays) in Hk as [Hk _]. }
  split; [|split; [exact Hle|]].
  - rewrite Hcs, Hsh. apply list_elem_of_fmap. eauto.
  - intros d s d' s' [H1 H2].
    assert (Hin : ∀ x day y, day = 5 ∨ day = 6 →
              works (shifts st) sol (x, n, day, y) = true →
              (x, n, day, y) ∈ weekend_keys cfg n).
    { intros x day y Hd Hw. apply (elem_of_weekend_keys cfg n _ Hn Hdays).
      rewrite Hsh in Hw. apply works_legal in Hw. done. }
    assert (Hne : (d, n, 5, s) ≠ (d', n, 6, s')) by congruence.
    pose proof (ksum_two _ _ _ _ (NoDup_weekend_keys cfg n)
                  (Hin _ _ _ (or_introl eq_refl) H1)
                  (Hin _ _ _ (or_intror eq_refl) H2) Hne H1 H2). lia.
Qed.

Lemma one_weekend_day_witness :
  (ksum (works (shifts (built ward_config)) ward_solution)
        (weekend_keys ward_config 10) ≤ 1)%Z.
Proof.
  destruct (one_weekend_day ward_config (built ward_config) ward_solution 10)
    as (_ & H & _).
  - simpl. lia.
  - simpl. lia.
  - apply built_ok. vm_compute. reflexivity.
  - vm_compute. reflexivity.
  - simpl. lia.
  - exact H.
Defined.

(** ** Checking a roster against the model *)

Lemma legalb_legal cfg k : legalb cfg k = true ↔ legal cfg k.
Proof.
  destruct k as [[[d n] day] s]. unfold legalb, legal.
  rewrite !andb_true_iff, !Nat.ltb_lt. tauto.
Qed.

Lemma satisfies_sol_of cfg st f kcs :
  constraints (model st) = map (resolve (created cfg)) kcs →
  all_legal cfg kcs = true →
  forallb (kholds f) kcs = true →
  satisfies (sol_of cfg f) (model st) = true.
Proof.
  intros Hcs Hlegal Hholds. unfold satisfies. rewrite Hcs.
  apply forallb_forall. intros c Hc. apply in_map_iff in Hc as (kc & <- & Hkc).
  unfold all_legal in Hlegal. rewrite forallb_forall in Hlegal, Hholds.
  specialize (Hlegal kc Hkc). specialize (Hholds kc Hkc).
  rewrite forallb_forall in Hlegal.
  assert (Hleg : ∀ k, k ∈ kkeys kc → legal cfg k).
  { intros k Hk. apply legalb_legal, Hlegal. by apply list_elem_of_In. }
  rewrite holds_resolve.
  - unfold kholds in *.
    rewrite (ksum_ext (works (created cfg) (sol_of cfg f)) f); [exact Hholds|].
    intros k Hk. apply works_sol_of. by apply Hleg.
  - intros k Hk. by apply created_legal, Hleg.
Qed.

Lemma main_model_run :
  ∃ st, build_model main_config init_frame = Ok (tt, st)
        ∧ shifts st = created main_config
        ∧ constraints (model st)
          = map (resolve (created main_config)) (model_spec main_config 14).
Proof.
  destruct (build_model_run main_config) as (st & Hrun & Hsh & _ & _ & Hcs);
    [simpl; lia..|].
  exists st. split; [assumption|]. split; [assumption|]. exact Hcs.
Qed.

Lemma main_model_legal : all_legal main_config (model_spec main_config 14) = true.
Proof. vm_compute. reflexivity. Qed.

(** C1. The coverage constraint of [main] is one equality per (department,
    day) over all nurses and both slots, so it does not force one nurse per
    slot: the model built by [main] has a solution in which, on day 0 in
    department 0, nurses 0 and 1 are both on slot 0 and no nurse is on slot 1. *)
Theorem coverage_leaves_slot_empty :
  ∃ st, build_model main_config init_frame = Ok (tt, st)
    ∧ satisfies (sol_of main_config crowded_rota) (model st) = true
    ∧ works (shifts st) (sol_of main_config crowded_rota) (0, 0, 0, 0) = true
    ∧ works (shifts st) (sol_of main_config crowded_rota) (0, 1, 0, 0) = true
    ∧ ∀ n, works (shifts st) (sol_of main_config crowded_rota) (0, n, 0, 1) = false.
Proof.
  destruct main_model_run as (st & Hrun & Hsh & Hcs).
  exists st. split; [exact Hrun|]. split.
  { apply (satisfies_sol_of _ _ _ _ Hcs main_model_legal). vm_compute. reflexivity. }
  rewrite Hsh. split; [|split].
  - rewrite works_sol_of; [reflexivity|]. apply legalb_legal. reflexivity.
  - rewrite works_sol_of; [reflexivity|]. apply legalb_legal. reflexivity.
  - intros n. destruct (decide (legal main_config (0, n, 0, 1))) as [Hl|Hl].
    + rewrite works_sol_of by assumption. reflexivity.
    + destruct (works (created main_config) (sol_of main_config crowded_rota)
                  (0, n, 0, 1)) eqn:E; [|reflexivity].
      apply works_legal in E. contradiction.
Qed.

(** C2. The rest constraints of [main] only involve the department left in
    the stale loop variable (department 14), so rest is not enforced across
    the other departments: the model built by [main] has a solution in which
    nurse 0 works slot 0 of department 0 on day 0 and again on day 1. *)
Theorem rest_not_enforced :
  ∃ st, build_model main_config init_frame = Ok (tt, st)
    ∧ satisfies (sol_of main_config restless_rota) (model st) = true
    ∧ works (shifts st) (sol_of main_config restless_rota) (0, 0, 0, 0) = true
    ∧ works (shifts st) (sol_of main_config restless_rota) (0, 0, 1, 0) = true.
Proof.
  destruct main_model_run as (st & Hrun & Hsh & Hcs).
  exists st. split; [exact Hrun|]. split.
  { apply (satisfies_sol_of _ _ _ _ Hcs main_model_legal). vm_compute. reflexivity. }
  rewrite Hsh. split.
  - rewrite works_sol_of; [reflexivity|]. apply legalb_legal. reflexivity.
  - rewrite works_sol_of; [reflexivity|]. apply legalb_legal. reflexivity.
Qed.

(** ** What coverage and rest do enforce *)

Lemma coverage_spec_elem cfg dp day :
  dp < num_departments cfg → day < num_days cfg →
  {| kkeys := map (λ '(n, s), (dp, n, day, s))
                  (list_prod (all_nurses cfg) (range (num_shifts_of cfg day)));
     kcmp := CmpEq; krhs := Z.of_nat (num_shifts_of cfg day) |}
    ∈ model_spec cfg (num_departments cfg - 1).
Proof.
  intros Hdp Hday. unfold model_spec. rewrite !elem_of_app. left.
  unfold coverage_spec.
  apply list_elem_of_bind. exists dp. split; [|by apply elem_of_range].
  apply list_elem_of_bind. exists day. split; [|by apply elem_of_range].
  left.
Qed.

(** X1. Coverage as the code enforces it (lines 29-32): in every solution of
    the model, the number of (nurse, slot) pairs worked in a department on a
    day equals the number of slots of that day.  The total is per day, not
    per slot. *)
Lemma coverage_per_day cfg st sol dp day :
  0 < num_departments cfg → 0 < num_nurses cfg → 7 ≤ num_days cfg →
  build_model cfg init_frame = Ok (tt, st) →
  satisfies sol (model st) = true →
  dp < num_departments cfg → day < num_days cfg →
  ksum (works (shifts st) sol)
       (map (λ '(n, s), (dp, n, day, s))
            (list_prod (all_nurses cfg) (range (num_shifts_of cfg day))))
  = Z.of_nat (num_shifts_of cfg day).
Proof.
  intros HD HN Hdays Hrun Hsat Hdp Hday. apply Z.eqb_eq.
  apply (model_spec_holds cfg st sol _ HD HN Hdays Hrun Hsat
           (coverage_spec_elem cfg dp day Hdp Hday)).
  intros k Hk. simpl in Hk. apply list_elem_of_fmap in Hk as ([n s] & -> & Hns).
  apply elem_of_list_prod in Hns as [Hn%elem_of_range Hs%elem_of_range]. done.
Qed.

Lemma rest_spec_elem cfg d n day s next_day next_s :
  n < num_nurses cfg → day + 2 < num_days cfg → s < num_shifts_of cfg day →
  day < next_day ≤ day + 2 → next_s < num_shifts_of cfg next_day →
  {| kkeys := [(d, n, day, s); (d, n, next_day, next_s)]; kcmp := CmpLe; krhs := 1 |}
    ∈ rest_spec cfg d.
Proof.
  intros Hn Hday Hs Hnd Hns. unfold rest_spec.
  apply list_elem_of_bind. exists n. split; [|by apply elem_of_range].
  apply list_elem_of_bind. exists day. split; [|apply elem_of_range; lia].
  assert ((Z.of_nat day <? Z.of_nat (num_days cfg) - 2)%Z = true) as ->
    by (apply Z.ltb_lt; lia).
  apply list_elem_of_bind. exists s. split; [|by apply elem_of_range].
  apply elem_of_app. left. unfold rest_pairs.
  apply list_elem_of_bind. exists next_day. split.
  - apply list_elem_of_bind. exists next_s. split; [left|by apply elem_of_range].
  - unfold next_days. apply elem_of_range2. lia.
Qed.

(** X2. Rest as the code enforces it (lines 43-54): in every solution, a nurse
    who works a slot of the last department on a day followed by two more days
    of the horizon works no slot of that same department on the next two
    days. *)
Lemma rest_in_last_department cfg st sol n day s next_day next_s :
  0 < num_departments cfg → 7 ≤ num_days cfg →
  build_model cfg init_frame = Ok (tt, st) →
  satisfies sol (model st) = true →
  n < num_nurses cfg → day + 2 < num_days cfg → s < num_shifts_of cfg day →
  day < next_day ≤ day + 2 → next_s < num_shifts_of cfg next_day →
  ¬ (works (shifts st) sol (num_departments cfg - 1, n, day, s) = true
     ∧ works (shifts st) sol (num_departments cfg - 1, n, next_day, next_s) = true).
Proof.
  intros HD Hdays Hrun Hsat Hn Hday Hs Hnd Hns [H1 H2].
  assert (HN : 0 < num_nurses cfg) by lia.
  pose proof (rest_spec_elem cfg (num_departments cfg - 1) n day s next_day next_s
                Hn Hday Hs Hnd Hns) as Helem.
  assert (Hin : {| kkeys := [(num_departments cfg - 1, n, day, s);
                             (num_departments cfg - 1, n, next_day, next_s)];
                   kcmp := CmpLe; krhs := 1 |}
                ∈ model_spec cfg (num_departments cfg - 1)).
  { unfold model_spec. rewrite !elem_of_app. right. right. by left. }
  pose proof (model_spec_holds cfg st sol _ HD HN Hdays Hrun Hsat Hin) as Hholds.
  unfold kholds in Hholds. simpl in Hholds. rewrite H1, H2 in Hholds.
  assert (Hfalse : (b2z true + (b2z true + 0) <=? 1)%Z = true).
  { apply Hholds. intros k Hk. rewrite !elem_of_cons in Hk.
    destruct Hk as [->|[->|Hk]]; [| |by apply not_elem_of_nil in Hk];
      unfold legal; repeat split; lia. }
  discriminate.
Qed.

(** The model built by [main] has a solution: the roster [rota]. *)
Lemma main_model_satisfiable :
  ∃ st, build_model main_config init_frame = Ok (tt, st)
        ∧ satisfies (sol_of main_config rota) (model st) = true.
Proof.
  destruct main_model_run as (st & Hrun & Hsh & Hcs).
  exists st. split; [exact Hrun|].
  apply (satisfies_sol_of _ _ _ _ Hcs main_model_legal). vm_compute. reflexivity.
Qed.

(** ** The adjacent-slot bound *)

Lemma elem_of_adjacent_spec cfg d kc :
  kc ∈ adjacent_spec cfg d ↔
  ∃ n day s, n < num_nurses cfg ∧ day < 5 ∧ s + 1 < num_weekday_shifts cfg
    ∧ kc = {| kkeys := [(d, n, day, s); (d, n, day, s + 1)];
              kcmp := CmpLe; krhs := 2 |}.
Proof.
  unfold adjacent_spec. split.
  - intros H.
    apply list_elem_of_bind in H as (n & H & Hn%elem_of_range).
    apply list_elem_of_bind in H as (day & H & Hday%elem_of_weekdays).
    apply list_elem_of_bind in H as (s & H & Hs%elem_of_range).
    destruct (Z.ltb_spec (Z.of_nat s) (Z.of_nat (num_weekday_shifts cfg) - 1)) as [Hlt|Hge].
    + apply list_elem_of_singleton in H. exists n, day, s. repeat split; try done. lia.
    + by apply not_elem_of_nil in H.
  - intros (n & day & s & Hn & Hday & Hs & ->).
    apply list_elem_of_bind. exists n. split; [|by apply elem_of_range].
    apply list_elem_of_bind. exists day. split; [|by apply elem_of_weekdays].
    apply list_elem_of_bind. exists s. split; [|apply elem_of_range; lia].
    destruct (Z.ltb_spec (Z.of_nat s) (Z.of_nat (num_weekday_shifts cfg) - 1)) as [Hlt|Hge].
    + left.
    + lia.
Qed.

Lemma b2z_bound b : (0 ≤ b2z b ≤ 1)%Z.
Proof. destruct b; simpl; lia. Qed.

(** C3. When the adjacent-slot loops start, the local [dep] still holds the
    last department of the preceding loop.  The loops succeed and add exactly
    one constraint per nurse, weekday and pair of adjacent slots (s, s+1), each
    of them the bound (slot s + slot s+1 <= 2) on the two variables of that
    last department: no constraint they add mentions a variable of any other
    department.  Every assignment of booleans satisfies each of these bounds. *)
Theorem adjacent_bound_scope (cfg : Config) (st1 : Frame) :
  0 < num_departments cfg → 5 ≤ num_days cfg →
  (create_variables cfg ;;; add_coverage cfg) init_frame = Ok (tt, st1) →
  let last_dep := num_departments cfg - 1 in
  dep st1 = Some last_dep
  ∧ ∃ st2 added,
      add_adjacent cfg st1 = Ok (tt, st2)
      ∧ constraints (model st2) = constraints (model st1) ++ added
      ∧ (∀ c, c ∈ added ↔
           ∃ n day s a b,
             n < num_nurses cfg ∧ day < 5 ∧ s + 1 < num_weekday_shifts cfg
             ∧ shifts st1 !! (last_dep, n, day, s) = Some a
             ∧ shifts st1 !! (last_dep, n, day, s + 1) = Some b
             ∧ c = {| lhs := [a; b]; cmp := CmpLe; rhs := 2 |})
      ∧ (∀ c v k, c ∈ added → v ∈ lhs c → shifts st1 !! k = Some v →
           k.1.1.1 = last_dep)
      ∧ (∀ (sol : Solution) c, c ∈ added → holds sol c = true).
Proof.
  intros HD Hdays Hrun last_dep.
  assert (Hd : last_dep < num_departments cfg) by (subst last_dep; lia).
  assert (Hcomplete : ∀ k, legal cfg k → is_Some (created cfg !! k)).
  { intros k. apply created_legal. }
  destruct (create_variables_run cfg) as (st0 & Hrun0 & Hsh0 & _ & _ & Hdep0).
  destruct (add_coverage_emits cfg (created cfg) Hcomplete _ st0 Hsh0 Hdep0)
    as (st1' & Hrun1 & Hsh1 & Hdep1 & _ & _).
  assert (st1' = st1) as ->.
  { rewrite (bind_Ok _ _ _ _ _ Hrun0), Hrun1 in Hrun. by injection Hrun. }
  unfold all_departments in Hdep1. rewrite leak_range in Hdep1 by assumption.
  fold last_dep in Hdep1. split; [exact Hdep1|].
  destruct (add_adjacent_emits cfg (created cfg) Hcomplete last_dep Hd Hdays
              st1 Hsh1 Hdep1) as (st2 & Hrun2 & _ & _ & _ & Hcs2).
  exists st2, (map (resolve (created cfg)) (adjacent_spec cfg last_dep)).
  split; [exact Hrun2|]. split; [exact Hcs2|].
  assert (Hpresent : ∀ n day s, n < num_nurses cfg → day < 5 →
            s < num_weekday_shifts cfg →
            created cfg !! (last_dep, n, day, s)
            = Some (var (created cfg) (last_dep, n, day, s))).
  { intros n day s Hn Hday Hs.
    destruct (Hcomplete (last_dep, n, day, s)) as [v Hv].
    - unfold legal. rewrite num_shifts_weekday by lia. repeat split; lia.
    - unfold var. by rewrite Hv. }
  rewrite Hsh1. split; [|split].
  - intros c. rewrite list_elem_of_fmap. split.
    + intros (kc & -> & Hkc). apply elem_of_adjacent_spec in Hkc
        as (n & day & s & Hn & Hday & Hs & ->).
      exists n, day, s, (var (created cfg) (last_dep, n, day, s)),
        (var (created cfg) (last_dep, n, day, s + 1)).
      repeat split; try done; apply Hpresent; lia.
    + intros (n & day & s & a & b & Hn & Hday & Hs & Ha & Hb & ->).
      exists {| kkeys := [(last_dep, n, day, s); (last_dep, n, day, s + 1)];
                kcmp := CmpLe; krhs := 2 |}.
      split.
      * unfold resolve, var. simpl. by rewrite Ha, Hb.
      * apply elem_of_adjacent_spec. exists n, day, s. done.
  - intros c v k (kc & -> & Hkc)%list_elem_of_fmap Hv Hk.
    apply elem_of_adjacent_spec in Hkc as (n & day & s & Hn & Hday & Hs & ->).
    simpl in Hv. rewrite !elem_of_cons in Hv.
    destruct Hv as [->|[->|Hv]]; [| |by apply not_elem_of_nil in Hv].
    + rewrite (created_inj cfg k (last_dep, n, day, s) _ Hk); [reflexivity|].
      apply Hpresent; lia.
    + rewrite (created_inj cfg k (last_dep, n, day, s + 1) _ Hk); [reflexivity|].
      apply Hpresent; lia.
  - intros sol c (kc & -> & Hkc)%list_elem_of_fmap.
    apply elem_of_adjacent_spec in Hkc as (n & day & s & Hn & Hday & Hs & ->).
    unfold holds, resolve. simpl. apply Z.leb_le.
    pose proof (b2z_bound (sol (var (created cfg) (last_dep, n, day, s)))).
    pose proof (b2z_bound (sol (var (created cfg) (last_dep, n, day, s + 1)))).
    lia.
Qed.

Lemma adjacent_bound_scope_witness :
  dep (before_adjacent scenario_config) = Some 1.
Proof.
  assert (H1 : 0 < num_departments scenario_config) by (simpl; lia).
  assert (H2 : 5 ≤ num_days scenario_config) by (simpl; lia).
  assert (H3 : (create_variables scenario_config ;;; add_coverage scenario_config)
                 init_frame = Ok (tt, before_adjacent scenario_config)).
  { apply (final_ok (create_variables scenario_config ;;; add_coverage scenario_config)).
    vm_compute. reflexivity. }
  exact (proj1 (adjacent_bound_scope scenario_config _ H1 H2 H3)).
Defined.

(** ** The solution callback *)

Lemma has_day_store sched dep day s n dep' day' :
  has_day sched dep' day' → has_day (store dep day s n sched) dep' day'.
Proof.
  intros (by_day & by_slot & Hd & Hs). unfold store, has_day.
  destruct (sched !! dep) as [bd|] eqn:Ebd; [|eauto].
  destruct (bd !! day) as [bs|] eqn:Ebs; [|eauto].
  destruct (decide (dep = dep')) as [->|Hne].
  - rewrite lookup_insert_eq. assert (bd = by_day) as -> by congruence.
    destruct (decide (day = day')) as [->|Hne'].
    + eexists _, _. split; [reflexivity|]. by rewrite lookup_insert_eq.
    + eexists _, _. split; [reflexivity|]. rewrite lookup_insert_ne by done. exact Hs.
  - rewrite lookup_insert_ne by done. eauto.
Qed.

Lemma store_store sched dep day s n1 n2 :
  store dep day s n2 (store dep day s n1 sched) = store dep day s n2 sched.
Proof.
  unfold store.
  destruct (sched !! dep) as [bd|] eqn:Ebd; [|by rewrite Ebd].
  destruct (bd !! day) as [bs|] eqn:Ebs; [|by rewrite Ebd, Ebs].
  rewrite !lookup_insert_eq. by rewrite !insert_insert_eq.
Qed.

Lemma cell_store_eq sched dep day s n :
  has_day sched dep day → cell (store dep day s n sched) dep day s = Some (Some n).
Proof.
  intros (by_day & by_slot & Hd & Hs). unfold store, cell. rewrite Hd, Hs.
  rewrite lookup_insert_eq. simpl. rewrite lookup_insert_eq. simpl.
  by rewrite lookup_insert_eq.
Qed.

Lemma cell_store_ne sched dep day s n dep' day' s' :
  (dep, day, s) ≠ (dep', day', s') →
  cell (store dep day s n sched) dep' day' s' = cell sched dep' day' s'.
Proof.
  intros Hne. unfold store.
  destruct (sched !! dep) as [bd|] eqn:Ebd; [|reflexivity].
  destruct (bd !! day) as [bs|] eqn:Ebs; [|reflexivity].
  unfold cell. destruct (decide (dep = dep')) as [->|Hd].
  - rewrite lookup_insert_eq, Ebd. simpl.
    destruct (decide (day = day')) as [->|Hday].
    + rewrite lookup_insert_eq, Ebs. simpl.
      rewrite lookup_insert_ne; [reflexivity|congruence].
    + by rewrite lookup_insert_ne.
  - by rewrite lookup_insert_ne.
Qed.

Lemma store_id sched dep day s n :
  cell sched dep day s = Some (Some n) → store dep day s n sched = sched.
Proof.
  unfold cell, store. intros H.
  destruct (sched !! dep) as [bd|] eqn:Ebd; [|reflexivity]. simpl in H.
  destruct (bd !! day) as [bs|] eqn:Ebs; [|reflexivity]. simpl in H.
  rewrite (insert_id bs s (Some n) H), (insert_id bd day bs Ebs).
  by apply insert_id.
Qed.

Lemma last_filter_cons (P : nat → bool) x xs :
  last (List.filter P (x :: xs))
  = match last (List.filter P xs) with
    | Some n => Some n
    | None => if P x then Some x else None
    end.
Proof.
  simpl. destruct (P x); [|by destruct (last (List.filter P xs))].
  destruct (List.filter P xs) as [|y ys] eqn:E; [reflexivity|].
  change (last (x :: y :: ys)) with (last (y :: ys)).
  destruct (last (y :: ys)) eqn:E'; [reflexivity|].
  apply last_None in E'. discriminate.
Qed.

Section callback.
Context (cfg : Config) (sh : gmap Key BoolVar) (sol : Solution).
Hypothesis sh_complete : ∀ k, legal cfg k → is_Some (sh !! k).

Lemma store_nurse_run p dep day s n :
  has_day (_department_schedule p) dep day →
  store_nurse dep day s n p
  = Ok (tt, with_schedule p (store dep day s n (_department_schedule p))).
Proof.
  intros (by_day & by_slot & Hd & Hs). unfold store_nurse, store.
  unfold bind, gets, subscript. rewrite Hd. unfold ret. rewrite Hs. reflexivity.
Qed.

(** The scan of a list of nurses for one cell. *)
Lemma scan_loop dep day s (ns : list nat) p :
  dep < num_departments cfg → day < num_days cfg → s < num_shifts_of cfg day →
  (∀ n, n ∈ ns → n < num_nurses cfg) →
  _shifts p = sh →
  has_day (_department_schedule p) dep day →
  for_ ns (λ n, v <- self_shifts (dep, n, day, s) ;;
                when_ (sol v) (store_nurse dep day s n)) p
  = Ok (tt, with_schedule p
              (match last (List.filter (λ n, works sh sol (dep, n, day, s)) ns) with
               | Some n => store dep day s n (_department_schedule p)
               | None => _department_schedule p
               end)).
Proof.
  intros Hdep Hday Hs. revert p.
  induction ns as [|n ns IH]; intros p Hns Hsh Hhas.
  - simpl. unfold ret. by destruct p.
  - rewrite last_filter_cons.
    assert (Hn : n < num_nurses cfg) by (apply Hns; left).
    destruct (sh_complete (dep, n, day, s)) as [v Hv]; [done|].
    assert (Hw : works sh sol (dep, n, day, s) = sol v).
    { unfold works. by rewrite Hv. }
    change (for_ (n :: ns) ?b) with (b n ;;; for_ ns b).
    assert (Hbody : (v <- self_shifts (dep, n, day, s) ;;
                     when_ (sol v) (store_nurse dep day s n)) p
                    = Ok (tt, with_schedule p
                                (if sol v then store dep day s n (_department_schedule p)
                                 else _department_schedule p))).
    { unfold bind at 1. unfold self_shifts, bind, gets. rewrite Hsh, Hv. unfold ret.
      destruct (sol v); simpl.
      - by apply store_nurse_run.
      - unfold ret. by destruct p. }
    rewrite (bind_Ok _ _ _ _ _ Hbody).
    rewrite IH.
    + rewrite Hw. simpl.
      destruct (last (List.filter (λ n0, works sh sol (dep, n0, day, s)) ns)) as [m|].
      * destruct (sol v); [|reflexivity]. by rewrite store_store.
      * by destruct (sol v).
    + intros m Hm. apply Hns. by right.
    + exact Hsh.
    + simpl. destruct (sol v); [by apply has_day_store|exact Hhas].
Qed.

Lemma num_shifts_of_ltb day :
  num_shifts_of cfg day
  = if day <? 5 then num_weekday_shifts cfg else num_weekend_shifts cfg.
Proof. unfold num_shifts_of. by rewrite elem_weekdays. Qed.

Lemma rewrites_scan dep day s :
  dep < num_departments cfg → day < num_days cfg → s < num_shifts_of cfg day →
  rewrites cfg sh sol (scan_nurses sol dep day s) [(dep, day, s)].
Proof.
  intros Hdep Hday Hs p (Hsh & Hn & _) Hhas. unfold scan_nurses.
  unfold bind at 1. unfold gets at 1. rewrite Hn.
  rewrite scan_loop; try done.
  - intros n. apply elem_of_range.
  - by apply Hhas.
Qed.

Lemma has_days_step sched c :
  has_days cfg sched → has_days cfg (step cfg sh sol sched c).
Proof.
  intros Hhas. destruct c as [[dep day] s]. unfold step.
  destruct (last_true cfg sh sol dep day s); [|exact Hhas].
  intros dep' day' Hd' Hday'. apply has_day_store. by apply Hhas.
Qed.

Lemma has_days_fold cells sched :
  has_days cfg sched → has_days cfg (fold_left (step cfg sh sol) cells sched).
Proof.
  revert sched. induction cells as [|c cells IH]; intros sched Hhas; [exact Hhas|].
  simpl. apply IH. by apply has_days_step.
Qed.

Lemma rewrites_for {A : Type} (xs : list A) body (g : A → list (nat * nat * nat)) :
  (∀ x, x ∈ xs → rewrites cfg sh sol (body x) (g x)) →
  rewrites cfg sh sol (for_ xs body) (xs ≫= g).
Proof.
  induction xs as [|x xs IH]; intros Hbody p Hp Hhas.
  - simpl. unfold ret. by destruct p.
  - change (for_ (x :: xs) body) with (body x ;;; for_ xs body).
    rewrite (bind_Ok _ _ _ _ _ (Hbody x (list_elem_of_here _ _) p Hp Hhas)).
    rewrite IH.
    + rewrite bind_cons, fold_left_app. reflexivity.
    + intros y Hy. apply Hbody. by right.
    + exact Hp.
    + simpl. by apply has_days_fold.
Qed.

Lemma rewrites_gets {A : Type} (f : Printer → A) (a : A) k cells :
  (∀ p, params cfg sh p → f p = a) →
  rewrites cfg sh sol (k a) cells →
  rewrites cfg sh sol (x <- gets f ;; k x) cells.
Proof.
  intros Hf Hk p Hp Hhas. unfold bind at 1. unfold gets at 1.
  rewrite (Hf p Hp). by apply Hk.
Qed.

Lemma scan_cells_rewrites :
  rewrites cfg sh sol
    (for_ (range (num_departments cfg)) (λ dep,
       num_days <- gets _num_days ;;
       for_ (range num_days) (λ day,
         num_shifts <- (if day <? 5 then gets _num_weekday_shifts
                        else gets _num_weekend_shifts) ;;
         for_ (range num_shifts) (λ s,
           scan_nurses sol dep day s))))
    (all_cells cfg).
Proof.
  unfold all_cells.
  apply rewrites_for; intros dep Hdep%elem_of_range.
  eapply rewrites_gets; [by intros p (_ & _ & H & _)|].
  apply rewrites_for; intros day Hday%elem_of_range.
  rewrite num_shifts_of_ltb.
  destruct (day <? 5) eqn:E.
  - eapply rewrites_gets; [by intros p (_ & _ & _ & H & _)|].
    apply (rewrites_for _ _ (λ s, [(dep, day, s)])); intros s Hs%elem_of_range.
    apply rewrites_scan; try done. by rewrite num_shifts_of_ltb, E.
  - eapply rewrites_gets; [by intros p (_ & _ & _ & _ & H & _)|].
    apply (rewrites_for _ _ (λ s, [(dep, day, s)])); intros s Hs%elem_of_range.
    apply rewrites_scan; try done. by rewrite num_shifts_of_ltb, E.
Qed.

(** One run of the callback: the schedule is the fold of the cell scans. *)
Lemma callback_run p :
  params cfg sh p → has_days cfg (_department_schedule p) →
  ∃ p', on_solution_callback sol p = Ok (tt, p')
        ∧ params cfg sh p'
        ∧ _department_schedule p'
          = fold_left (step cfg sh sol) (all_cells cfg) (_department_schedule p)
        ∧ _solution_count p' = _solution_count p + 1.
Proof.
  intros Hp Hhas. unfold on_solution_callback.
  assert (Hincr : ∃ p1, incr_solution_count p = Ok (tt, p1) ∧ params cfg sh p1
            ∧ _department_schedule p1 = _department_schedule p
            ∧ _solution_count p1 = _solution_count p + 1).
  { eexists. split; [reflexivity|]. split; [exact Hp|]. by split. }
  destruct Hincr as (p1 & Hrun1 & Hp1 & Hsched1 & Hcount1).
  rewrite (bind_Ok _ _ _ _ _ Hrun1).
  rewrite <- Hsched1 in Hhas.
  assert (Hgets : gets _num_departments p1 = Ok (num_departments cfg, p1)).
  { unfold gets. by destruct Hp1 as (_ & _ & _ & _ & _ & ->). }
  rewrite (bind_Ok _ _ _ _ _ Hgets).
  rewrite (bind_Ok _ _ _ _ _ (scan_cells_rewrites p1 Hp1 Hhas)).
  unfold bind, gets, when_. simpl.
  destruct (_solution_limit p1 <=? _solution_count p1);
    eexists; (split; [reflexivity|]); simpl;
    (split; [exact Hp1|]); (split; [by rewrite Hsched1|exact Hcount1]).
Qed.

Lemma cell_step_other sched c dep day s :
  c ≠ (dep, day, s) →
  cell (step cfg sh sol sched c) dep day s = cell sched dep day s.
Proof.
  destruct c as [[dep' day'] s']. intros Hne. unfold step.
  destruct (last_true cfg sh sol dep' day' s'); [|reflexivity].
  by apply cell_store_ne.
Qed.

Lemma cell_fold_notin cells sched dep day s :
  (dep, day, s) ∉ cells →
  cell (fold_left (step cfg sh sol) cells sched) dep day s = cell sched dep day s.
Proof.
  revert sched. induction cells as [|c cells IH]; intros sched Hnotin; [reflexivity|].
  apply not_elem_of_cons in Hnotin as [Hne Hnotin]. simpl.
  rewrite IH by assumption. by apply cell_step_other.
Qed.

Lemma cell_fold_in cells sched dep day s :
  NoDup cells → (dep, day, s) ∈ cells → has_days cfg sched →
  dep < num_departments cfg → day < num_days cfg →
  cell (fold_left (step cfg sh sol) cells sched) dep day s
  = match last_true cfg sh sol dep day s with
    | Some n => Some (Some n)
    | None => cell sched dep day s
    end.
Proof.
  intros Hnd Hin Hhas Hdep Hday. revert sched Hhas.
  induction Hnd as [|c cells Hnotin Hnd IH]; intros sched Hhas;
    [by apply not_elem_of_nil in Hin|].
  simpl. apply elem_of_cons in Hin as [<-|Hin].
  - rewrite cell_fold_notin by assumption. unfold step.
    destruct (last_true cfg sh sol dep day s); [|reflexivity].
    apply cell_store_eq. by apply Hhas.
  - rewrite IH; [|assumption|by apply has_days_step].
    destruct (last_true cfg sh sol dep day s); [reflexivity|].
    apply cell_step_other. intros ->. contradiction.
Qed.

Lemma fold_step_id cells sched :
  (∀ dep day s n, (dep, day, s) ∈ cells → last_true cfg sh sol dep day s = Some n →
                  cell sched dep day s = Some (Some n)) →
  fold_left (step cfg sh sol) cells sched = sched.
Proof.
  induction cells as [|c cells IH]; intros Hstable; [reflexivity|].
  simpl. assert (Hc : step cfg sh sol sched c = sched).
  { destruct c as [[dep day] s]. unfold step.
    destruct (last_true cfg sh sol dep day s) as [n|] eqn:E; [|reflexivity].
    apply store_id. apply Hstable; [left|exact E]. }
  rewrite Hc. apply IH. intros dep day s n Hin. apply Hstable. by right.
Qed.

End callback.

Lemma elem_of_all_cells cfg dep day s :
  (dep, day, s) ∈ all_cells cfg ↔
  dep < num_departments cfg ∧ day < num_days cfg ∧ s < num_shifts_of cfg day.
Proof.
  unfold all_cells, all_departments, all_days. split.
  - intros H.
    apply list_elem_of_bind in H as (d' & H & Hd%elem_of_range).
    apply list_elem_of_bind in H as (day' & H & Hday%elem_of_range).
    apply list_elem_of_bind in H as (s' & H & Hs%elem_of_range).
    apply list_elem_of_singleton in H. injection H as -> -> ->. done.
  - intros (Hd & Hday & Hs).
    apply list_elem_of_bind. exists dep. split; [|by apply elem_of_range].
    apply list_elem_of_bind. exists day. split; [|by apply elem_of_range].
    apply list_elem_of_bind. exists s. split; [|by apply elem_of_range].
    by apply list_elem_of_singleton.
Qed.

Lemma NoDup_all_cells cfg : NoDup (all_cells cfg).
Proof.
  unfold all_cells.
  apply NoDup_bind; [| |apply NoDup_range].
  { intros d1 d2 c _ _ H1 H2.
    apply list_elem_of_bind in H1 as (day1 & H1 & _).
    apply list_elem_of_bind in H1 as (s1 & H1 & _).
    apply list_elem_of_bind in H2 as (day2 & H2 & _).
    apply list_elem_of_bind in H2 as (s2 & H2 & _).
    apply list_elem_of_singleton in H1, H2. congruence. }
  intros d _. apply NoDup_bind; [| |apply NoDup_range].
  { intros day1 day2 c _ _ H1 H2.
    apply list_elem_of_bind in H1 as (s1 & H1 & _).
    apply list_elem_of_bind in H2 as (s2 & H2 & _).
    apply list_elem_of_singleton in H1, H2. congruence. }
  intros day _. apply NoDup_bind; [| |apply NoDup_range].
  { intros s1 s2 c _ _ H1 H2.
    apply list_elem_of_singleton in H1, H2. congruence. }
  intros s _. apply NoDup_singleton.
Qed.

Lemma dict_comp_lookup {V : Type} (keys : list nat) (f : nat → V) k :
  dict_comp keys f !! k = if decide (k ∈ keys) then Some (f k) else None.
Proof.
  unfold dict_comp.
  assert (H : ∀ d : gmap nat V,
            fold_left (λ d k, <[k := f k]> d) keys d !! k
            = if decide (k ∈ keys) then Some (f k) else d !! k).
  { induction keys as [|k' keys IH]; intros d; simpl.
    - destruct (decide (k ∈ [])) as [Hin|_]; [by apply not_elem_of_nil in Hin|done].
    - rewrite IH. destruct (decide (k ∈ keys)) as [Hin|Hnotin].
      + rewrite decide_True; [done|by right].
      + destruct (decide (k = k')) as [->|Hne].
        * rewrite decide_True by left. by rewrite lookup_insert_eq.
        * rewrite decide_False.
          -- by rewrite lookup_insert_ne.
          -- intros [?|?]%elem_of_cons; contradiction. }
  rewrite H. destruct (decide (k ∈ keys)); [done|apply lookup_empty].
Qed.

Lemma dict_comp_lookup_range {V : Type} n (f : nat → V) k :
  k < n → dict_comp (range n) f !! k = Some (f k).
Proof.
  intros Hk. rewrite dict_comp_lookup, decide_True; [done|by apply elem_of_range].
Qed.

Lemma solution_printer_params cfg sh limit : params cfg sh (solution_printer cfg sh limit).
Proof. by repeat split. Qed.

Lemma solution_printer_has_days cfg sh limit :
  has_days cfg (_department_schedule (solution_printer cfg sh limit)).
Proof.
  intros dep day Hdep Hday. unfold has_day. simpl.
  eexists _, _. split.
  - by apply dict_comp_lookup_range.
  - simpl. by apply dict_comp_lookup_range.
Qed.

Lemma solution_printer_cell cfg sh limit dep day s :
  dep < num_departments cfg → day < num_days cfg → s < num_shifts_of cfg day →
  cell (_department_schedule (solution_printer cfg sh limit)) dep day s = Some None.
Proof.
  intros Hdep Hday Hs. unfold cell. simpl.
  rewrite dict_comp_lookup_range by assumption. simpl.
  rewrite dict_comp_lookup_range by assumption. simpl.
  rewrite dict_comp_lookup_range; [done|].
  by rewrite <- num_shifts_of_ltb.
Qed.

Lemma last_filter_seq (P : nat → bool) a k :
  match last (List.filter P (seq a k)) with
  | Some n => a ≤ n < a + k ∧ P n = true ∧ ∀ n', n < n' → n' < a + k → P n' = false
  | None => ∀ n, a ≤ n → n < a + k → P n = false
  end.
Proof.
  induction k as [|k IH].
  - simpl. intros n. lia.
  - rewrite seq_S, List.filter_app. simpl.
    destruct (P (a + k)) eqn:E.
    + rewrite last_snoc. split; [lia|]. split; [done|]. intros n'. lia.
    + rewrite app_nil_r.
      destruct (last (List.filter P (seq a k))) as [n|].
      * destruct IH as (Hn & HP & Hmax). split; [lia|]. split; [done|].
        intros n' Hlt Hlt'. destruct (decide (n' = a + k)) as [->|Hne]; [done|].
        apply Hmax; lia.
      * intros n Hge Hlt. destruct (decide (n = a + k)) as [->|Hne]; [done|].
        apply IH; lia.
Qed.

Lemma last_true_spec cfg sh sol dep day s :
  match last_true cfg sh sol dep day s with
  | Some n => n < num_nurses cfg ∧ works sh sol (dep, n, day, s) = true
              ∧ ∀ n', n < n' → n' < num_nurses cfg →
                      works sh sol (dep, n', day, s) = false
  | None => ∀ n, n < num_nurses cfg → works sh sol (dep, n, day, s) = false
  end.
Proof.
  unfold last_true, true_nurses, all_nurses, range.
  pose proof (last_filter_seq (λ n, works sh sol (dep, n, day, s)) 0 (num_nurses cfg)) as H.
  destruct (last _) as [n|].
  - destruct H as (Hn & HP & Hmax). split; [lia|]. split; [done|].
    intros n' ? ?. apply Hmax; lia.
  - intros n Hn. apply H; lia.
Qed.

Lemma complete_legal cfg sh :
  complete cfg sh = true → ∀ k, legal cfg k → is_Some (sh !! k).
Proof.
  unfold complete. rewrite forallb_forall. intros H k Hk%elem_of_all_keys.
  apply list_elem_of_In, H in Hk. by apply bool_decide_eq_true in Hk.
Qed.

(** C10. After the callback has processed one solution starting from the
    schedule built by [__init__], a legal cell holds [None] exactly when no
    nurse's variable is true for the cell; and when some nurse has a true
    variable, the cell holds the largest such nurse (the scan overwrites
    earlier matches and never stores [None]). *)
Theorem extracted_cell (cfg : Config) (sh : gmap Key BoolVar) (sol : Solution)
    (limit dep day s : nat) :
  complete cfg sh = true →
  dep < num_departments cfg → day < num_days cfg → s < num_shifts_of cfg day →
  ∃ p, on_solution_callback sol (solution_printer cfg sh limit) = Ok (tt, p)
    ∧ (cell (_department_schedule p) dep day s = Some None
       ↔ ∀ n, n < num_nurses cfg → works sh sol (dep, n, day, s) = false)
    ∧ (∀ n, n < num_nurses cfg → works sh sol (dep, n, day, s) = true →
         (∀ n', n < n' → n' < num_nurses cfg → works sh sol (dep, n', day, s) = false) →
         cell (_department_schedule p) dep day s = Some (Some n)).
Proof.
  intros Hcomplete Hdep Hday Hs.
  pose proof (complete_legal cfg sh Hcomplete) as Hsh.
  destruct (callback_run cfg sh sol Hsh (solution_printer cfg sh limit)
              (solution_printer_params cfg sh limit)
              (solution_printer_has_days cfg sh limit))
    as (p & Hrun & _ & Hsched & _).
  exists p. split; [exact Hrun|].
  assert (Hcell : cell (_department_schedule p) dep day s
                  = match last_true cfg sh sol dep day s with
                    | Some n => Some (Some n)
                    | None => Some None
                    end).
  { rewrite Hsched, (cell_fold_in cfg sh sol); try done.
    - destruct (last_true cfg sh sol dep day s); [done|].
      by apply solution_printer_cell.
    - apply NoDup_all_cells.
    - by apply elem_of_all_cells.
    - apply solution_printer_has_days. }
  rewrite Hcell. pose proof (last_true_spec cfg sh sol dep day s) as Hspec.
  destruct (last_true cfg sh sol dep day s) as [m|].
  - destruct Hspec as (Hm & Hwm & Hmax). split.
    + split; [discriminate|]. intros Hnone. rewrite Hnone in Hwm by done. discriminate.
    + intros n Hn Hwn Hmaxn. do 2 f_equal.
      destruct (lt_eq_lt_dec m n) as [[Hlt| ->]|Hgt]; [|done|].
      * rewrite Hmax in Hwn by done. discriminate.
      * rewrite Hmaxn in Hwm by done. discriminate.
  - split; [done|]. intros n Hn Hwn. rewrite Hspec in Hwn by done. discriminate.
Qed.

Lemma extracted_cell_witness :
  ∃ p, on_solution_callback ward_solution
         (solution_printer ward_config (shifts (built ward_config)) 1) = Ok (tt, p)
       ∧ cell (_department_schedule p) 0 1 0 = Some (Some 2).
Proof.
  assert (H0 : complete ward_config (shifts (built ward_config)) = true)
    by (vm_compute; reflexivity).
  assert (H1 : 0 < num_departments ward_config) by (simpl; lia).
  assert (H2 : 1 < num_days ward_config) by (simpl; lia).
  assert (H3 : 0 < num_shifts_of ward_config 1) by (vm_compute; lia).
  destruct (extracted_cell ward_config (shifts (built ward_config)) ward_solution
              1 0 1 0 H0 H1 H2 H3) as (p & Hrun & _ & Hlast).
  exists p. split; [exact Hrun|].
  apply Hlast.
  - simpl. lia.
  - vm_compute. reflexivity.
  - intros n' Hlo Hhi.
    do 12 (destruct n' as [|n']; [first [lia | vm_compute; reflexivity]|]).
    simpl in Hhi. lia.
Defined.

(** C8. Running the callback a second time on the same solution, on the
    printer the first run left, succeeds and leaves the schedule exactly as
    the first run left it. *)
Theorem extraction_idempotent (cfg : Config) (sh : gmap Key BoolVar) (sol : Solution)
    (limit : nat) :
  complete cfg sh = true →
  ∃ p1 p2,
    on_solution_callback sol (solution_printer cfg sh limit) = Ok (tt, p1)
    ∧ on_solution_callback sol p1 = Ok (tt, p2)
    ∧ _department_schedule p2 = _department_schedule p1.
Proof.
  intros Hcomplete.
  pose proof (complete_legal cfg sh Hcomplete) as Hsh.
  destruct (callback_run cfg sh sol Hsh (solution_printer cfg sh limit)
              (solution_printer_params cfg sh limit)
              (solution_printer_has_days cfg sh limit))
    as (p1 & Hrun1 & Hp1 & Hsched1 & _).
  assert (Hhas1 : has_days cfg (_department_schedule p1)).
  { rewrite Hsched1. apply has_days_fold, solution_printer_has_days. }
  destruct (callback_run cfg sh sol Hsh p1 Hp1 Hhas1) as (p2 & Hrun2 & _ & Hsched2 & _).
  exists p1, p2. split; [exact Hrun1|]. split; [exact Hrun2|].
  rewrite Hsched2. apply fold_step_id.
  intros dep day s n (Hdep & Hday & Hs)%elem_of_all_cells Hlast.
  rewrite Hsched1, (cell_fold_in cfg sh sol); try done.
  - by rewrite Hlast.
  - apply NoDup_all_cells.
  - by apply elem_of_all_cells.
  - apply solution_printer_has_days.
Qed.

Lemma extraction_idempotent_witness :
  ∃ p1 p2,
    on_solution_callback ward_solution
      (solution_printer ward_config (shifts (built ward_config)) 1) = Ok (tt, p1)
    ∧ on_solution_callback ward_solution p1 = Ok (tt, p2)
    ∧ _department_schedule p2 = _department_schedule p1.
Proof.
  apply (extraction_idempotent ward_config (shifts (built ward_config)) ward_solution 1).
  vm_compute. reflexivity.
Defined.

(** ** Lookups of absent keys *)

Section absent.
Context (sh : gmap Key BoolVar).

Lemma raises_bind {A B : Type} (m : M Frame A) (k : A → M Frame B) st :
  raises_key_error sh (m st) → raises_key_error sh (bind m k st).
Proof. intros (key & Hrun & Hkey). exists key. by rewrite (bind_Raise _ _ _ _ Hrun). Qed.

Lemma fails_tries d d' m : fails sh d m → tries sh d d' m.
Proof. intros H st Hsh Hd. right. by apply H. Qed.

Lemma tries_ret d : tries sh d d (ret tt).
Proof. intros st Hsh Hd. left. by exists st. Qed.

Lemma tries_Add d c : tries sh d d (Add c).
Proof. intros st Hsh Hd. left. eexists. by repeat split. Qed.

Lemma tries_extend d vs : tries sh d d (extend_shifts_worked vs).
Proof. intros st Hsh Hd. left. eexists. by repeat split. Qed.

Lemma tries_reset d : tries sh d d reset_shifts_worked.
Proof. intros st Hsh Hd. left. eexists. by repeat split. Qed.

Lemma tries_bind_dep d x : tries sh d (Some x) (bind_dep x).
Proof. intros st Hsh Hd. left. eexists. by repeat split. Qed.

Lemma tries_seq d d1 d2 m1 m2 :
  tries sh d d1 m1 → tries sh d1 d2 m2 → tries sh d d2 (m1 ;;; m2).
Proof.
  intros H1 H2 st Hsh Hd. destruct (H1 st Hsh Hd) as [(st1 & Hrun & Hsh1 & Hd1)|Hr].
  - rewrite (bind_Ok _ _ _ _ _ Hrun). by apply H2.
  - right. by apply raises_bind.
Qed.

Lemma tries_read {A : Type} d d' (m : M Frame A) (k : A → M Frame unit) :
  rtries sh d m → (∀ a, tries sh d d' (k a)) → tries sh d d' (bind m k).
Proof.
  intros Hm Hk st Hsh Hd. destruct (Hm st Hsh Hd) as [(a & Hrun)|Hr].
  - rewrite (bind_Ok _ _ _ _ _ Hrun). by apply Hk.
  - right. by apply raises_bind.
Qed.

Lemma tries_when d (b : bool) body : tries sh d d body → tries sh d d (when_ b body).
Proof. destruct b; [done|intros _; apply tries_ret]. Qed.

Lemma tries_for {A : Type} d (xs : list A) body :
  (∀ x, x ∈ xs → tries sh d d (body x)) → tries sh d d (for_ xs body).
Proof.
  induction xs as [|x xs IH]; intros Hbody; [apply tries_ret|].
  simpl. apply (tries_seq d d d).
  - apply Hbody. left.
  - apply IH. intros y Hy. apply Hbody. by right.
Qed.

Lemma tries_for_dep d (xs : list nat) body :
  (∀ x, x ∈ xs → tries sh (Some x) (Some x) (body x)) →
  tries sh d (leak xs d) (for_dep xs body).
Proof.
  revert d. induction xs as [|x xs IH]; intros d Hbody; [apply tries_ret|].
  rewrite leak_cons. unfold for_dep. simpl. apply (tries_seq d (Some x)).
  - apply (tries_seq d (Some x) (Some x)); [apply tries_bind_dep|].
    apply Hbody. left.
  - apply IH. intros y Hy. apply Hbody. by right.
Qed.

Lemma fails_seq_l {B : Type} d (m1 : M Frame unit) (m2 : M Frame B) :
  fails sh d m1 → fails sh d (m1 ;;; m2).
Proof. intros H st Hsh Hd. apply raises_bind. by apply H. Qed.

Lemma fails_seq_r {B : Type} d d1 (m1 : M Frame unit) (m2 : M Frame B) :
  tries sh d d1 m1 → fails sh d1 m2 → fails sh d (m1 ;;; m2).
Proof.
  intros H1 H2 st Hsh Hd. destruct (H1 st Hsh Hd) as [(st1 & Hrun & Hsh1 & Hd1)|Hr].
  - rewrite (bind_Ok _ _ _ _ _ Hrun). by apply H2.
  - by apply raises_bind.
Qed.

Lemma fails_read_l {A B : Type} d (m : M Frame A) (k : A → M Frame B) :
  fails sh d m → fails sh d (bind m k).
Proof. intros H st Hsh Hd. apply raises_bind. by apply H. Qed.

Lemma fails_read_r {A B : Type} d (m : M Frame A) (k : A → M Frame B) :
  rtries sh d m → (∀ a, fails sh d (k a)) → fails sh d (bind m k).
Proof.
  intros Hm Hk st Hsh Hd. destruct (Hm st Hsh Hd) as [(a & Hrun)|Hr].
  - rewrite (bind_Ok _ _ _ _ _ Hrun). by apply Hk.
  - by apply raises_bind.
Qed.

Lemma fails_for {A : Type} d (xs : list A) body x :
  (∀ y, y ∈ xs → tries sh d d (body y)) →
  x ∈ xs → fails sh d (body x) → fails sh d (for_ xs body).
Proof.
  induction xs as [|y xs IH]; intros Hbody Hx Hfail;
    [by apply not_elem_of_nil in Hx|].
  simpl. apply elem_of_cons in Hx as [<-|Hx].
  - by apply fails_seq_l.
  - apply (fails_seq_r d d); [apply Hbody; left|].
    apply IH; [|done..]. intros z Hz. apply Hbody. by right.
Qed.

Lemma fails_for_dep d (xs : list nat) body x :
  (∀ y, y ∈ xs → tries sh (Some y) (Some y) (body y)) →
  x ∈ xs → fails sh (Some x) (body x) → fails sh d (for_dep xs body).
Proof.
  revert d. induction xs as [|y xs IH]; intros d Hbody Hx Hfail;
    [by apply not_elem_of_nil in Hx|].
  unfold for_dep. simpl. apply elem_of_cons in Hx as [<-|Hx].
  - apply fails_seq_l. apply (fails_seq_r d (Some x)); [apply tries_bind_dep|done].
  - apply (fails_seq_r d (Some y)).
    + apply (tries_seq d (Some y) (Some y)); [apply tries_bind_dep|].
      apply Hbody. left.
    + apply IH; [|done..]. intros z Hz. apply Hbody. by right.
Qed.

Lemma rtries_ret {A : Type} d (a : A) : rtries sh d (ret a).
Proof. intros st _ _. left. by exists a. Qed.

Lemma rtries_bind {A B : Type} d (m : M Frame A) (k : A → M Frame B) :
  rtries sh d m → (∀ a, rtries sh d (k a)) → rtries sh d (bind m k).
Proof.
  intros Hm Hk st Hsh Hd. destruct (Hm st Hsh Hd) as [(a & Hrun)|Hr].
  - rewrite (bind_Ok _ _ _ _ _ Hrun). by apply Hk.
  - right. by apply raises_bind.
Qed.

Lemma rtries_getitem d k : rtries sh d (getitem k).
Proof.
  intros st Hsh _. unfold getitem. rewrite Hsh.
  destruct (sh !! k) as [v|] eqn:E; [left; by exists v|right; by exists k].
Qed.

Lemma fails_getitem d k : sh !! k = None → fails sh d (getitem k).
Proof.
  intros Hk st Hsh _. unfold getitem. rewrite Hsh, Hk. by exists k.
Qed.

Lemma rtries_shifts_at d n day s : rtries sh (Some d) (shifts_at n day s).
Proof.
  intros st Hsh Hd. unfold shifts_at, tuple_dep, read_dep, bind, ret. rewrite Hd.
  by apply rtries_getitem with (d := Some d).
Qed.

Lemma fails_shifts_at d n day s :
  sh !! (d, n, day, s) = None → fails sh (Some d) (shifts_at n day s).
Proof.
  intros Hk st Hsh Hd. unfold shifts_at, tuple_dep, read_dep, bind, ret. rewrite Hd.
  by apply fails_getitem with (d := Some d).
Qed.

Lemma rtries_mapM {A B : Type} d (f : A → M Frame B) xs :
  (∀ x, x ∈ xs → rtries sh d (f x)) → rtries sh d (mapM f xs).
Proof.
  induction xs as [|x xs IH]; intros Hf; simpl; [apply rtries_ret|].
  apply rtries_bind; [apply Hf; left|]. intros y.
  apply rtries_bind; [apply IH; intros z Hz; apply Hf; by right|].
  intros ys. apply rtries_ret.
Qed.

Lemma fails_mapM {A B : Type} d (f : A → M Frame B) xs x :
  (∀ y, y ∈ xs → rtries sh d (f y)) →
  x ∈ xs → fails sh d (f x) → fails sh d (mapM f xs).
Proof.
  induction xs as [|y xs IH]; intros Hf Hx Hfail;
    [by apply not_elem_of_nil in Hx|].
  simpl. apply elem_of_cons in Hx as [<-|Hx].
  - by apply fails_read_l.
  - apply fails_read_r; [apply Hf; left|]. intros b.
    apply fails_read_l. apply IH; [|done..]. intros z Hz. apply Hf. by right.
Qed.

End absent.

Section absent_encoders.
Context (cfg : Config) (sh : gmap Key BoolVar).

Lemma add_adjacent_fails d n day s :
  n < num_nurses cfg → day < 5 → s < num_weekday_shifts cfg →
  2 ≤ num_weekday_shifts cfg → sh !! (d, n, day, s) = None →
  fails sh (Some d) (add_adjacent cfg).
Proof.
  intros Hn Hday Hs Hwd Habsent. unfold add_adjacent.
  assert (Htries : ∀ n' day' s',
            tries sh (Some d) (Some d)
              (when_ (Z.of_nat s' <? Z.of_nat (num_weekday_shifts cfg) - 1)%Z
                 (a <- shifts_at n' day' s' ;;
                  b <- shifts_at n' day' (s' + 1) ;;
                  Add {| lhs := [a; b]; cmp := CmpLe; rhs := 2 |}))).
  { intros n' day' s'. apply tries_when.
    apply tries_read; [apply rtries_shifts_at|]. intros a.
    apply tries_read; [apply rtries_shifts_at|]. intros b. apply tries_Add. }
  apply (fails_for sh _ _ _ n); [|by apply elem_of_range|].
  { intros n' _. apply tries_for. intros day' _. apply tries_for. intros s' _.
    apply Htries. }
  apply (fails_for sh _ _ _ day); [|by apply elem_of_weekdays|].
  { intros day' _. apply tries_for. intros s' _. apply Htries. }
  destruct (decide (s + 1 < num_weekday_shifts cfg)) as [Hlt|Hge].
  - apply (fails_for sh _ _ _ s); [|by apply elem_of_range|].
    { intros s' _. apply Htries. }
    assert ((Z.of_nat s <? Z.of_nat (num_weekday_shifts cfg) - 1)%Z = true) as ->
      by (apply Z.ltb_lt; lia).
    simpl. apply fails_read_l. by apply fails_shifts_at.
  - apply (fails_for sh _ _ _ (s - 1)); [|apply elem_of_range; lia|].
    { intros s' _. apply Htries. }
    assert ((Z.of_nat (s - 1) <? Z.of_nat (num_weekday_shifts cfg) - 1)%Z = true) as ->
      by (apply Z.ltb_lt; lia).
    simpl. apply fails_read_r; [apply rtries_shifts_at|]. intros a.
    apply fails_read_l. replace (s - 1 + 1) with s by lia.
    by apply fails_shifts_at.
Qed.

End absent_encoders.

(** * Further properties of model construction *)

Lemma coverage_per_day_witness :
  ksum (works (shifts (built ward_config)) ward_solution)
       (map (λ '(n, s), (0, n, 1, s))
            (list_prod (all_nurses ward_config) (range (num_shifts_of ward_config 1))))
  = Z.of_nat (num_shifts_of ward_config 1).
Proof.
  assert (H1 : 0 < num_departments ward_config) by (simpl; lia).
  assert (H2 : 0 < num_nurses ward_config) by (simpl; lia).
  assert (H3 : 7 ≤ num_days ward_config) by (simpl; lia).
  assert (H4 : build_model ward_config init_frame = Ok (tt, built ward_config))
    by (apply built_ok; vm_compute; reflexivity).
  assert (H5 : satisfies ward_solution (model (built ward_config)) = true)
    by (vm_compute; reflexivity).
  assert (H6 : 1 < num_days ward_config) by (simpl; lia).
  exact (coverage_per_day ward_config (built ward_config) ward_solution 0 1
           H1 H2 H3 H4 H5 H1 H6).
Defined.

Lemma rest_in_last_department_witness :
  ¬ (works (shifts (built ward_config)) ward_solution (0, 2, 1, 0) = true
     ∧ works (shifts (built ward_config)) ward_solution (0, 2, 2, 1) = true).
Proof.
  assert (H1 : 0 < num_departments ward_config) by (simpl; lia).
  assert (H3 : 7 ≤ num_days ward_config) by (simpl; lia).
  assert (H4 : build_model ward_config init_frame = Ok (tt, built ward_config))
    by (apply built_ok; vm_compute; reflexivity).
  assert (H5 : satisfies ward_solution (model (built ward_config)) = true)
    by (vm_compute; reflexivity).
  assert (H6 : 2 < num_nurses ward_config) by (simpl; lia).
  assert (H7 : 1 + 2 < num_days ward_config) by (simpl; lia).
  assert (H8 : 0 < num_shifts_of ward_config 1) by (vm_compute; lia).
  assert (H9 : 1 < 2 ≤ 1 + 2) by lia.
  assert (H10 : 1 < num_shifts_of ward_config 2) by (vm_compute; lia).
  exact (rest_in_last_department ward_config (built ward_config) ward_solution
           2 1 0 2 1 H1 H3 H4 H5 H6 H7 H8 H9 H10).
Defined.

(** ** The rest constraints, listed *)

Lemma elem_of_next_days cfg day next_day :
  next_day ∈ next_days cfg day ↔
  day < next_day ∧ next_day ≤ day + 2 ∧ next_day < num_days cfg.
Proof. unfold next_days. rewrite elem_of_range2. lia. Qed.

Lemma elem_of_rest_pairs cfg d n day s kc :
  kc ∈ rest_pairs cfg d n day s ↔
  ∃ next_day next_s,
    next_day ∈ next_days cfg day ∧ next_s < num_shifts_of cfg next_day
    ∧ kc = {| kkeys := [(d, n, day, s); (d, n, next_day, next_s)];
              kcmp := CmpLe; krhs := 1 |}.
Proof.
  unfold rest_pairs. split.
  - intros H.
    apply list_elem_of_bind in H as (nd & H & Hnd).
    apply list_elem_of_bind in H as (ns & H & Hns%elem_of_range).
    apply list_elem_of_singleton in H. eauto.
  - intros (nd & ns & Hnd & Hns & ->).
    apply list_elem_of_bind. exists nd. split; [|done].
    apply list_elem_of_bind. exists ns. split; [left|by apply elem_of_range].
Qed.

Lemma elem_of_rest_triples cfg d n day s kc :
  kc ∈ rest_triples cfg d n day s ↔
  ∃ next_day next_s,
    next_day ∈ next_days cfg day ∧ next_s < num_shifts_of cfg next_day
    ∧ kc = {| kkeys := [(d, n, day, s); (d, n, day, s + 1); (d, n, next_day, next_s)];
              kcmp := CmpLe; krhs := 2 |}.
Proof.
  unfold rest_triples. split.
  - intros H.
    apply list_elem_of_bind in H as (nd & H & Hnd).
    apply list_elem_of_bind in H as (ns & H & Hns%elem_of_range).
    apply list_elem_of_singleton in H. eauto.
  - intros (nd & ns & Hnd & Hns & ->).
    apply list_elem_of_bind. exists nd. split; [|done].
    apply list_elem_of_bind. exists ns. split; [left|by apply elem_of_range].
Qed.

Lemma elem_of_rest_spec cfg d kc :
  kc ∈ rest_spec cfg d ↔
  ∃ n day s,
    n < num_nurses cfg ∧ day + 2 < num_days cfg ∧ s < num_shifts_of cfg day
    ∧ (kc ∈ rest_pairs cfg d n day s
       ∨ (s + 1 < num_shifts_of cfg day ∧ kc ∈ rest_triples cfg d n day s)).
Proof.
  unfold rest_spec. split.
  - intros H.
    apply list_elem_of_bind in H as (n & H & Hn%elem_of_range).
    apply list_elem_of_bind in H as (day & H & Hday%elem_of_range).
    destruct (Z.ltb_spec (Z.of_nat day) (Z.of_nat (num_days cfg) - 2)) as [Hg|Hg];
      [|by apply not_elem_of_nil in H].
    apply list_elem_of_bind in H as (s & H & Hs%elem_of_range).
    exists n, day, s. split; [done|]. split; [lia|]. split; [done|].
    apply elem_of_app in H as [H|H]; [by left|].
    destruct (Z.ltb_spec (Z.of_nat s) (Z.of_nat (num_shifts_of cfg day) - 1)) as [Hl|Hl];
      [|by apply not_elem_of_nil in H].
    right. split; [lia|done].
  - intros (n & day & s & Hn & Hday & Hs & H).
    apply list_elem_of_bind. exists n. split; [|by apply elem_of_range].
    apply list_elem_of_bind. exists day. split; [|apply elem_of_range; lia].
    assert ((Z.of_nat day <? Z.of_nat (num_days cfg) - 2)%Z = true) as ->
      by (apply Z.ltb_lt; lia).
    apply list_elem_of_bind. exists s. split; [|by apply elem_of_range].
    apply elem_of_app. destruct H as [H|[Hlt H]]; [by left|right].
    assert ((Z.of_nat s <? Z.of_nat (num_shifts_of cfg day) - 1)%Z = true) as ->
      by (apply Z.ltb_lt; lia).
    done.
Qed.

(** X3. The rest loops (lines 43-62), run on a dict that holds every legal
    key, succeed and only append constraints; and the three-variable bounds of
    lines 56-62 add nothing to the two-variable bounds of lines 49-54: an
    assignment that satisfies every appended constraint over two variables
    satisfies every appended constraint. *)
Theorem rest_triples_redundant (cfg : Config) (st : Frame) (d : nat) :
  complete cfg (shifts st) = true → dep st = Some d → d < num_departments cfg →
  ∃ st' added,
    add_rest cfg st = Ok (tt, st')
    ∧ constraints (model st') = constraints (model st) ++ added
    ∧ ∀ sol : Solution,
        (∀ c, c ∈ added → length (lhs c) = 2 → holds sol c = true) →
        ∀ c, c ∈ added → holds sol c = true.
Proof.
  intros Hcomplete Hdep Hd.
  pose proof (complete_legal cfg (shifts st) Hcomplete) as Hsh.
  destruct (add_rest_emits cfg (shifts st) Hsh d Hd st eq_refl Hdep)
    as (st' & Hrun & _ & _ & _ & Hcs).
  exists st', (map (resolve (shifts st)) (rest_spec cfg d)).
  split; [exact Hrun|]. split; [exact Hcs|].
  intros sol Hpairs c (kc & -> & Hkc)%list_elem_of_fmap.
  apply elem_of_rest_spec in Hkc as (n & day & s & Hn & Hday & Hs & [Hp|[Hlt Ht]]).
  - apply Hpairs.
    + apply list_elem_of_fmap. exists kc. split; [done|].
      apply elem_of_rest_spec. exists n, day, s. eauto.
    + apply elem_of_rest_pairs in Hp as (nd & ns & _ & _ & ->). reflexivity.
  - apply elem_of_rest_triples in Ht as (nd & ns & Hnd & Hns & ->).
    assert (Hpair : holds sol (resolve (shifts st)
              {| kkeys := [(d, n, day, s); (d, n, nd, ns)];
                 kcmp := CmpLe; krhs := 1 |}) = true).
    { apply Hpairs; [|reflexivity]. apply list_elem_of_fmap. eexists. split; [done|].
      apply elem_of_rest_spec. exists n, day, s. repeat split; try done.
      left. apply elem_of_rest_pairs. eauto. }
    unfold holds, resolve in *. simpl in *. apply Z.leb_le in Hpair. apply Z.leb_le.
    pose proof (b2z_bound (sol (var (shifts st) (d, n, day, s + 1)))). lia.
Qed.

Lemma rest_triples_redundant_witness :
  ∃ st' added,
    add_rest ward_config ward_frame = Ok (tt, st')
    ∧ constraints (model st') = constraints (model ward_frame) ++ added
    ∧ ∀ sol : Solution,
        (∀ c, c ∈ added → length (lhs c) = 2 → holds sol c = true) →
        ∀ c, c ∈ added → holds sol c = true.
Proof.
  apply (rest_triples_redundant ward_config ward_frame 0).
  - vm_compute. reflexivity.
  - vm_compute. reflexivity.
  - simpl. lia.
Defined.

(** ** Every key of the model is a created key *)

Lemma model_spec_legal cfg kc k :
  0 < num_departments cfg → 7 ≤ num_days cfg →
  kc ∈ model_spec cfg (num_departments cfg - 1) → k ∈ kkeys kc → legal cfg k.
Proof.
  intros HD Hdays Hkc Hk. unfold model_spec in Hkc. rewrite !elem_of_app in Hkc.
  destruct Hkc as [H|[H|[H|[H|[H|H]]]]].
  - unfold coverage_spec in H.
    apply list_elem_of_bind in H as (dp & H & Hdp%elem_of_range).
    apply list_elem_of_bind in H as (day & H & Hday%elem_of_range).
    apply list_elem_of_singleton in H as ->. simpl in Hk.
    apply list_elem_of_fmap in Hk as ([n s] & -> & Hns).
    apply elem_of_list_prod in Hns as [Hn%elem_of_range Hs%elem_of_range]. done.
  - apply elem_of_adjacent_spec in H as (n & day & s & Hn & Hday & Hs & ->).
    simpl in Hk. rewrite !elem_of_cons in Hk.
    destruct Hk as [->|[->|Hk]]; [| |by apply not_elem_of_nil in Hk];
      unfold legal; rewrite num_shifts_weekday by lia; repeat split; lia.
  - apply elem_of_rest_spec in H as (n & day & s & Hn & Hday & Hs & [Hp|[Hlt Ht]]).
    + apply elem_of_rest_pairs in Hp as (nd & ns & Hnd%elem_of_next_days & Hns & ->).
      simpl in Hk. rewrite !elem_of_cons in Hk.
      destruct Hk as [->|[->|Hk]]; [| |by apply not_elem_of_nil in Hk];
        unfold legal; repeat split; lia.
    + apply elem_of_rest_triples in Ht as (nd & ns & Hnd%elem_of_next_days & Hns & ->).
      simpl in Hk. rewrite !elem_of_cons in Hk.
      destruct Hk as [->|[->|[->|Hk]]]; [| | |by apply not_elem_of_nil in Hk];
        unfold legal; repeat split; lia.
  - unfold single_department_spec in H.
    apply list_elem_of_bind in H as (n & H & Hn%elem_of_range).
    apply list_elem_of_bind in H as (day & H & Hday%elem_of_range).
    apply list_elem_of_singleton in H as ->. simpl in Hk.
    by apply (elem_of_day_keys cfg n day k Hn Hday) in Hk as [Hk _].
  - unfold weekend_spec in H.
    apply list_elem_of_bind in H as (n & H & Hn%elem_of_range).
    apply list_elem_of_singleton in H as ->. simpl in Hk.
    by apply (elem_of_weekend_keys cfg n k Hn Hdays) in Hk as [Hk _].
  - unfold fairness_spec in H.
    apply list_elem_of_bind in H as (n & H & Hn%elem_of_range).
    rewrite !elem_of_cons in H.
    destruct H as [->|[->|H]]; [| |by apply not_elem_of_nil in H]; simpl in Hk;
      by apply (elem_of_nurse_keys cfg n k Hn) in Hk as [Hk _].
Qed.

Lemma num_shifts_of_pos cfg day :
  0 < num_weekday_shifts cfg → 0 < num_weekend_shifts cfg → 0 < num_shifts_of cfg day.
Proof.
  intros Hwd Hwe. destruct (decide (day < 5)).
  - by rewrite num_shifts_weekday.
  - rewrite num_shifts_weekend; [done|lia].
Qed.

Lemma elem_of_not_nil {A : Type} (x : A) (l : list A) : x ∈ l → l ≠ [].
Proof. intros H ->. by apply not_elem_of_nil in H. Qed.

(** With positive constants no sum of [build_model] is empty. *)
Lemma model_spec_nonempty cfg kc :
  0 < num_departments cfg → 0 < num_nurses cfg → 7 ≤ num_days cfg →
  0 < num_weekday_shifts cfg → 0 < num_weekend_shifts cfg →
  kc ∈ model_spec cfg (num_departments cfg - 1) → kkeys kc ≠ [].
Proof.
  intros HD HN Hdays Hwd Hwe Hkc. unfold model_spec in Hkc.
  rewrite !elem_of_app in Hkc.
  destruct Hkc as [H|[H|[H|[H|[H|H]]]]].
  - unfold coverage_spec in H.
    apply list_elem_of_bind in H as (dp & H & Hdp%elem_of_range).
    apply list_elem_of_bind in H as (day & H & Hday%elem_of_range).
    apply list_elem_of_singleton in H as ->. simpl.
    apply (elem_of_not_nil (dp, 0, day, 0)).
    apply list_elem_of_fmap. exists (0, 0). split; [done|].
    apply elem_of_list_prod. split; apply elem_of_range; [done|].
    by apply num_shifts_of_pos.
  - by apply elem_of_adjacent_spec in H as (n & day & s & _ & _ & _ & ->).
  - apply elem_of_rest_spec in H as (n & day & s & _ & _ & _ & [Hp|[_ Ht]]).
    + by apply elem_of_rest_pairs in Hp as (nd & ns & _ & _ & ->).
    + by apply elem_of_rest_triples in Ht as (nd & ns & _ & _ & ->).
  - unfold single_department_spec in H.
    apply list_elem_of_bind in H as (n & H & Hn%elem_of_range).
    apply list_elem_of_bind in H as (day & H & Hday%elem_of_range).
    apply list_elem_of_singleton in H as ->. simpl.
    apply (elem_of_not_nil (0, n, day, 0)).
    apply (elem_of_day_keys cfg n day _ Hn Hday). split; [|done].
    split; [lia|]. split; [lia|]. split; [lia|]. by apply num_shifts_of_pos.
  - unfold weekend_spec in H.
    apply list_elem_of_bind in H as (n & H & Hn%elem_of_range).
    apply list_elem_of_singleton in H as ->. simpl.
    apply (elem_of_not_nil (0, n, 5, 0)).
    apply (elem_of_weekend_keys cfg n _ Hn Hdays). split; [|split; [done|by left]].
    split; [lia|]. split; [lia|]. split; [lia|]. by apply num_shifts_of_pos.
  - unfold fairness_spec in H.
    apply list_elem_of_bind in H as (n & H & Hn%elem_of_range).
    assert (Hne : nurse_keys cfg n ≠ []).
    { apply (elem_of_not_nil (0, n, 0, 0)).
      apply (elem_of_nurse_keys cfg n _ Hn). split; [|done].
      split; [lia|]. split; [lia|]. split; [lia|]. by apply num_shifts_of_pos. }
    rewrite !elem_of_cons in H.
    destruct H as [->|[->|H]]; [done|done|by apply not_elem_of_nil in H].
Qed.

(** X4. With at least one department, one nurse, seven days and one slot on
    weekdays and on weekend days, the model [main] builds is well formed
    (lines 19-88): every constraint sums at least one variable (no sum is
    empty, so [Add] is never handed a bool), and every variable that occurs
    in a constraint was created by [NewBoolVar] (its index is below the number
    of variables) and is stored in [shifts] under a key whose components are
    in range. *)
Theorem model_well_formed (cfg : Config) (st : Frame) (c : Constraint) :
  0 < num_departments cfg → 0 < num_nurses cfg → 7 ≤ num_days cfg →
  0 < num_weekday_shifts cfg → 0 < num_weekend_shifts cfg →
  build_model cfg init_frame = Ok (tt, st) →
  c ∈ constraints (model st) →
  lhs c ≠ []
  ∧ ∀ v, v ∈ lhs c →
      (v < num_vars (model st))%N
      ∧ ∃ k, legal cfg k ∧ shifts st !! k = Some v.
Proof.
  intros HD HN Hdays Hwd Hwe Hrun Hc.
  destruct (build_model_run cfg HD HN Hdays) as (st' & Hrun' & Hsh & _ & Hnv & Hcs).
  rewrite Hrun in Hrun'. injection Hrun' as <-.
  rewrite Hcs in Hc. apply list_elem_of_fmap in Hc as (kc & -> & Hkc).
  split.
  - simpl. pose proof (model_spec_nonempty cfg kc HD HN Hdays Hwd Hwe Hkc) as Hne.
    by destruct (kkeys kc).
  - intros v Hv. simpl in Hv. apply list_elem_of_fmap in Hv as (k & -> & Hk).
    pose proof (model_spec_legal cfg kc k HD Hdays Hkc Hk) as Hlegal.
    destruct (proj2 (created_legal cfg k) Hlegal) as [v Hv].
    assert (Hvar : var (created cfg) k = v) by (unfold var; by rewrite Hv).
    rewrite Hvar, Hnv, Hsh. split; [|eauto].
    apply created_index, lookup_lt_Some in Hv. lia.
Qed.

(** ** Configurations on which construction raises *)

Lemma build_model_without_nurses cfg :
  num_nurses cfg = 0 → build_model cfg init_frame = Raise ZeroDivisionError.
Proof.
  intros HN.
  destruct (create_variables_run cfg) as (st0 & Hrun0 & Hsh0 & _ & _ & Hdep0).
  assert (Hcomplete : ∀ k, legal cfg k → is_Some (created cfg !! k)).
  { intros k. apply created_legal. }
  destruct (add_coverage_emits cfg (created cfg) Hcomplete _ st0 Hsh0 Hdep0)
    as (st1 & Hrun1 & _).
  unfold build_model.
  rewrite (bind_Ok _ _ _ _ _ Hrun0), (bind_Ok _ _ _ _ _ Hrun1).
  unfold add_adjacent, add_rest, add_single_department, add_weekend, add_fairness,
    all_nurses, floordiv.
  rewrite HN. reflexivity.
Qed.

Lemma build_model_needs_nurses cfg st :
  build_model cfg init_frame = Ok (tt, st) → 0 < num_nurses cfg.
Proof.
  intros Hrun. destruct (num_nurses cfg) eqn:E; [|lia].
  rewrite (build_model_without_nurses cfg E) in Hrun. discriminate.
Qed.

(** X5. With no nurses every loop over nurses is empty and [main] stops at
    line 78 on the division [total_shifts // num_nurses]: model construction
    raises [ZeroDivisionError], whatever the other constants. *)
Theorem no_nurses_raises (cfg : Config) :
  num_nurses cfg = 0 → build_model cfg init_frame = Raise ZeroDivisionError.
Proof. apply build_model_without_nurses. Qed.

(** X6. With no departments the loops of lines 21 and 29 never bind [dep];
    with at least one nurse and two weekday slots the adjacent-slot loop reads
    it at line 40, and model construction raises the [NameError] of the
    unbound local [dep]. *)
Theorem no_departments_raises (cfg : Config) :
  num_departments cfg = 0 → 0 < num_nurses cfg → 2 ≤ num_weekday_shifts cfg →
  build_model cfg init_frame = Raise (NameError "dep").
Proof.
  intros HD HN Hwd.
  unfold build_model, create_variables, add_coverage, add_adjacent,
    all_departments, all_nurses.
  rewrite HD.
  destruct (num_nurses cfg) as [|n]; [lia|].
  destruct (num_weekday_shifts cfg) as [|[|w]] eqn:E; [lia..|].
  assert (Hlt : (Z.of_nat 0 <? Z.of_nat (S (S w)) - 1)%Z = true)
    by (apply Z.ltb_lt; lia).
  unfold range, weekdays, for_dep. cbn -[Z.ltb Z.of_nat Z.sub].
  unfold bind at 1 2 3 4 5. cbn -[Z.ltb Z.of_nat Z.sub].
  rewrite Hlt. reflexivity.
Qed.

Lemma add_weekend_visits_fails cfg sh d dp n day s :
  dp < num_departments cfg → n < num_nurses cfg → day = 5 ∨ day = 6 →
  s < num_weekend_shifts cfg → sh !! (dp, n, day, s) = None →
  fails sh d (add_weekend cfg).
Proof.
  intros Hdp Hn Hwe Hs Habsent. unfold add_weekend.
  apply (fails_for sh _ _ _ n); [|by apply elem_of_range|].
  - intros n' _.
    apply tries_read; [|intros vars; apply tries_Add].
    apply rtries_mapM. intros [dp' [day' s']] _. apply rtries_getitem.
  - apply fails_read_l. apply (fails_mapM sh _ _ _ (dp, (day, s))).
    + intros [dp' [day' s']] _. apply rtries_getitem.
    + apply elem_of_list_prod. split; [by apply elem_of_range|].
      apply elem_of_list_prod. split; [by apply elem_of_weekends|by apply elem_of_range].
    + by apply fails_getitem.
Qed.

Lemma emits_tries sh d d' m kcs : emits sh d d' m kcs → tries sh d d' m.
Proof.
  intros H st Hsh Hd. left.
  destruct (H st Hsh Hd) as (st' & Hrun & Hsh' & Hd' & _). eauto.
Qed.

(** X7. A horizon of 5 or 6 days: [weekends] is the fixed range(5, 7) (line
    14), so with at least one weekend slot the weekend rule (lines 71-74)
    subscripts [shifts] with a day the horizon lacks, and model construction
    raises [KeyError] for a key that is not in range. *)
Theorem short_horizon_raises (cfg : Config) :
  0 < num_departments cfg → 0 < num_nurses cfg →
  5 ≤ num_days cfg → num_days cfg < 7 → 0 < num_weekend_shifts cfg →
  ∃ k, build_model cfg init_frame = Raise (KeyError (TupleKey k)) ∧ ¬ legal cfg k.
Proof.
  intros HD HN Hdays5 Hdays7 Hwe.
  destruct (create_variables_run cfg) as (st0 & Hrun0 & Hsh0 & _ & _ & Hdep0).
  unfold all_departments in Hdep0. rewrite leak_range in Hdep0 by assumption.
  set (d := num_departments cfg - 1) in *.
  assert (Hd : d < num_departments cfg) by (subst d; lia).
  assert (Hcomplete : ∀ k, legal cfg k → is_Some (created cfg !! k)).
  { intros k. apply created_legal. }
  assert (Hleak : leak (all_departments cfg) (Some d) = Some d).
  { unfold all_departments. by rewrite leak_range. }
  assert (Habsent : created cfg !! (0, 0, 6, 0) = None).
  { destruct (created cfg !! (0, 0, 6, 0)) eqn:E; [|done].
    assert (Hl : legal cfg (0, 0, 6, 0)) by (apply created_legal; eauto).
    destruct Hl as (_ & _ & Hl & _). lia. }
  assert (Hfails : fails (created cfg) (Some d)
            (add_coverage cfg ;;; add_adjacent cfg ;;; add_rest cfg ;;;
             add_single_department cfg ;;; add_weekend cfg ;;; add_fairness cfg)).
  { apply (fails_seq_r _ (Some d) (Some d)).
    { apply (emits_tries _ _ _ _ (coverage_spec cfg)). rewrite <- Hleak at 2.
      by apply add_coverage_emits. }
    apply (fails_seq_r _ (Some d) (Some d)).
    { apply (emits_tries _ _ _ _ (adjacent_spec cfg d)). by apply add_adjacent_emits. }
    apply (fails_seq_r _ (Some d) (Some d)).
    { apply (emits_tries _ _ _ _ (rest_spec cfg d)). by apply add_rest_emits. }
    apply (fails_seq_r _ (Some d) (Some d)).
    { apply (emits_tries _ _ _ _ (single_department_spec cfg)).
      by apply add_single_department_emits. }
    apply fails_seq_l.
    apply (add_weekend_visits_fails cfg (created cfg) (Some d) 0 0 6 0); try done.
    by right. }
  destruct (Hfails st0 Hsh0 Hdep0) as (k & Hrun & Hk).
  exists k. split.
  - unfold build_model. rewrite (bind_Ok _ _ _ _ _ Hrun0). exact Hrun.
  - intros Hl%created_legal. rewrite Hk in Hl. by destruct Hl.
Qed.

(** ** Keys outside the variable space in a run of [main] *)

Lemma add_adjacent_tries cfg sh d : tries sh (Some d) (Some d) (add_adjacent cfg).
Proof.
  unfold add_adjacent.
  apply tries_for. intros n _. apply tries_for. intros day _.
  apply tries_for. intros s _. apply tries_when.
  apply tries_read; [apply rtries_shifts_at|]. intros a.
  apply tries_read; [apply rtries_shifts_at|]. intros b.
  apply tries_Add.
Qed.

Lemma created_absent cfg k : ¬ legal cfg k → created cfg !! k = None.
Proof.
  intros Hk. destruct (created cfg !! k) eqn:E; [|done].
  exfalso. apply Hk, created_legal. eauto.
Qed.

Lemma raises_outside cfg {A : Type} (r : result A) :
  raises_key_error (created cfg) r →
  ∃ k, r = Raise (KeyError (TupleKey k)) ∧ ¬ legal cfg k.
Proof.
  intros (k & Hr & Hk). exists k. split; [exact Hr|].
  intros Hl%created_legal. rewrite Hk in Hl. by destruct Hl.
Qed.

(** The frame after variable creation, and the loops that follow on it. *)
Lemma build_model_from_created cfg :
  0 < num_departments cfg →
  ∃ st0, create_variables cfg init_frame = Ok (tt, st0)
    ∧ shifts st0 = created cfg
    ∧ dep st0 = Some (num_departments cfg - 1)
    ∧ tries (created cfg) (Some (num_departments cfg - 1))
        (Some (num_departments cfg - 1)) (add_coverage cfg).
Proof.
  intros HD.
  destruct (create_variables_run cfg) as (st0 & Hrun0 & Hsh0 & _ & _ & Hdep0).
  unfold all_departments in Hdep0. rewrite leak_range in Hdep0 by assumption.
  exists st0. split; [exact Hrun0|]. split; [exact Hsh0|]. split; [exact Hdep0|].
  apply (emits_tries _ _ _ _ (coverage_spec cfg)).
  assert (Hleak : leak (all_departments cfg) (Some (num_departments cfg - 1))
                  = Some (num_departments cfg - 1)).
  { unfold all_departments. by rewrite leak_range. }
  rewrite <- Hleak at 2. apply add_coverage_emits. intros k. apply created_legal.
Qed.

(** A horizon of less than five days: the adjacent-slot loops reach a weekday
    beyond it. *)
Lemma build_model_raises_adjacent cfg :
  0 < num_departments cfg → 0 < num_nurses cfg →
  2 ≤ num_weekday_shifts cfg → num_days cfg < 5 →
  raises_key_error (created cfg) (build_model cfg init_frame).
Proof.
  intros HD HN Hwd Hdays.
  destruct (build_model_from_created cfg HD) as (st0 & Hrun0 & Hsh0 & Hdep0 & Hcov).
  set (d := num_departments cfg - 1) in *.
  assert (Hfails : fails (created cfg) (Some d)
            (add_coverage cfg ;;; add_adjacent cfg ;;; add_rest cfg ;;;
             add_single_department cfg ;;; add_weekend cfg ;;; add_fairness cfg)).
  { apply (fails_seq_r _ (Some d) (Some d)); [exact Hcov|].
    apply fails_seq_l.
    apply (add_adjacent_fails cfg (created cfg) d 0 (num_days cfg) 0); try lia.
    apply created_absent. intros (_ & _ & H & _). lia. }
  unfold build_model. rewrite (bind_Ok _ _ _ _ _ Hrun0). by apply Hfails.
Qed.

(** A horizon of less than seven days: the weekend loops reach day 6. *)
Lemma build_model_raises_weekend cfg :
  0 < num_departments cfg → 0 < num_nurses cfg →
  0 < num_weekend_shifts cfg → num_days cfg < 7 →
  raises_key_error (created cfg) (build_model cfg init_frame).
Proof.
  intros HD HN Hwe Hdays.
  destruct (build_model_from_created cfg HD) as (st0 & Hrun0 & Hsh0 & Hdep0 & Hcov).
  set (d := num_departments cfg - 1) in *.
  assert (Hd : d < num_departments cfg) by (subst d; lia).
  assert (Hcomplete : ∀ k, legal cfg k → is_Some (created cfg !! k)).
  { intros k. apply created_legal. }
  assert (Hfails : fails (created cfg) (Some d)
            (add_coverage cfg ;;; add_adjacent cfg ;;; add_rest cfg ;;;
             add_single_department cfg ;;; add_weekend cfg ;;; add_fairness cfg)).
  { apply (fails_seq_r _ (Some d) (Some d)); [exact Hcov|].
    apply (fails_seq_r _ (Some d) (Some d)); [apply add_adjacent_tries|].
    apply (fails_seq_r _ (Some d) (Some d)).
    { apply (emits_tries _ _ _ _ (rest_spec cfg d)). by apply add_rest_emits. }
    apply (fails_seq_r _ (Some d) (Some d)).
    { apply (emits_tries _ _ _ _ (single_department_spec cfg)).
      by apply add_single_department_emits. }
    apply fails_seq_l.
    apply (add_weekend_visits_fails cfg (created cfg) (Some d) 0 0 6 0); try done.
    - by right.
    - apply created_absent. intros (_ & _ & H & _). lia. }
  unfold build_model. rewrite (bind_Ok _ _ _ _ _ Hrun0). by apply Hfails.
Qed.

(** A key that a loop nest reaches outside the variable space is a key of
    the adjacent-slot loops or of the weekend loops, for a day beyond the
    horizon. *)
Lemma model_spec_outside cfg kc k :
  0 < num_departments cfg →
  kc ∈ model_spec cfg (num_departments cfg - 1) → k ∈ kkeys kc → ¬ legal cfg k →
  0 < num_nurses cfg
  ∧ ((2 ≤ num_weekday_shifts cfg ∧ num_days cfg < 5)
     ∨ (0 < num_weekend_shifts cfg ∧ num_days cfg < 7)).
Proof.
  intros HD Hkc Hk Hout. unfold model_spec in Hkc. rewrite !elem_of_app in Hkc.
  destruct Hkc as [H|[H|[H|[H|[H|H]]]]].
  - exfalso. apply Hout. unfold coverage_spec in H.
    apply list_elem_of_bind in H as (dp & H & Hdp%elem_of_range).
    apply list_elem_of_bind in H as (day & H & Hday%elem_of_range).
    apply list_elem_of_singleton in H as ->. simpl in Hk.
    apply list_elem_of_fmap in Hk as ([n s] & -> & Hns).
    apply elem_of_list_prod in Hns as [Hn%elem_of_range Hs%elem_of_range]. done.
  - apply elem_of_adjacent_spec in H as (n & day & s & Hn & Hday & Hs & ->).
    split; [lia|]. left. split; [lia|].
    destruct (decide (num_days cfg < 5)) as [|Hge]; [done|].
    exfalso. apply Hout. simpl in Hk. rewrite !elem_of_cons in Hk.
    destruct Hk as [->|[->|Hk]]; [| |by apply not_elem_of_nil in Hk];
      unfold legal; rewrite num_shifts_weekday by lia; repeat split; lia.
  - exfalso. apply Hout.
    apply elem_of_rest_spec in H as (n & day & s & Hn & Hday & Hs & [Hp|[Hlt Ht]]).
    + apply elem_of_rest_pairs in Hp as (nd & ns & Hnd%elem_of_next_days & Hns & ->).
      simpl in Hk. rewrite !elem_of_cons in Hk.
      destruct Hk as [->|[->|Hk]]; [| |by apply not_elem_of_nil in Hk];
        unfold legal; repeat split; lia.
    + apply elem_of_rest_triples in Ht as (nd & ns & Hnd%elem_of_next_days & Hns & ->).
      simpl in Hk. rewrite !elem_of_cons in Hk.
      destruct Hk as [->|[->|[->|Hk]]]; [| | |by apply not_elem_of_nil in Hk];
        unfold legal; repeat split; lia.
  - exfalso. apply Hout. unfold single_department_spec in H.
    apply list_elem_of_bind in H as (n & H & Hn%elem_of_range).
    apply list_elem_of_bind in H as (day & H & Hday%elem_of_range).
    apply list_elem_of_singleton in H as ->. simpl in Hk.
    by apply (elem_of_day_keys cfg n day k Hn Hday) in Hk as [Hk _].
  - unfold weekend_spec in H.
    apply list_elem_of_bind in H as (n & H & Hn%elem_of_range).
    apply list_elem_of_singleton in H as ->. simpl in Hk.
    unfold weekend_keys in Hk.
    apply list_elem_of_fmap in Hk as ([dp [day s]] & -> & Hds).
    apply elem_of_list_prod in Hds as [Hdp%elem_of_range Hds].
    apply elem_of_list_prod in Hds as [Hday%elem_of_weekends Hs%elem_of_range].
    split; [lia|]. right. split; [lia|].
    destruct (decide (num_days cfg < 7)) as [|Hge]; [done|].
    exfalso. apply Hout. unfold legal. rewrite num_shifts_weekend by lia.
    repeat split; lia.
  - exfalso. apply Hout. unfold fairness_spec in H.
    apply list_elem_of_bind in H as (n & H & Hn%elem_of_range).
    rewrite !elem_of_cons in H.
    destruct H as [->|[->|H]]; [| |by apply not_elem_of_nil in H]; simpl in Hk;
      by apply (elem_of_nurse_keys cfg n k Hn) in Hk as [Hk _].
Qed.

(** C9. In a run of [main] with at least one department a reference to a key
    outside the variable space always stops model construction, and none is
    skipped.  First, if any key that a loop nest reaches (the keys listed by
    [model_spec]) lies outside the variable space, model construction raises
    [KeyError], on a key outside the variable space.  Second, the only
    references that could pass over a key are the membership tests of the
    rest loops (lines 48, 53 and 61), and when those loops start [shifts]
    holds exactly the keys in range: every key they test is there, so every
    test succeeds, the subscript of slot s + 1 (line 62) finds its key, and
    the loops add every pair and every triple. *)
Theorem encoding_fails_fast (cfg : Config) :
  0 < num_departments cfg →
  let d := num_departments cfg - 1 in
  (∀ kc k, kc ∈ model_spec cfg d → k ∈ kkeys kc → ¬ legal cfg k →
     ∃ k', build_model cfg init_frame = Raise (KeyError (TupleKey k'))
           ∧ ¬ legal cfg k')
  ∧ ∀ st,
      (create_variables cfg ;;; add_coverage cfg ;;; add_adjacent cfg) init_frame
      = Ok (tt, st) →
      dep st = Some d
      ∧ (∀ k, is_Some (shifts st !! k) ↔ legal cfg k)
      ∧ (∀ n day s,
           n ∈ all_nurses cfg → day ∈ all_days cfg →
           (Z.of_nat day <? Z.of_nat (num_days cfg) - 2)%Z = true →
           s ∈ range (num_shifts_of cfg day) →
           reads (shifts st) (Some d) (in_shifts n day s) true
           ∧ (∀ next_day next_s,
                next_day ∈ next_days cfg day →
                next_s ∈ range (num_shifts_of cfg next_day) →
                reads (shifts st) (Some d) (in_shifts n next_day next_s) true)
           ∧ ((Z.of_nat s <? Z.of_nat (num_shifts_of cfg day) - 1)%Z = true →
                is_Some (shifts st !! (d, n, day, s + 1))))
      ∧ ∃ st', add_rest cfg st = Ok (tt, st')
          ∧ constraints (model st')
            = constraints (model st) ++ map (resolve (shifts st)) (rest_spec cfg d).
Proof.
  intros HD d. split.
  - intros kc k Hkc Hk Hout.
    destruct (model_spec_outside cfg kc k HD Hkc Hk Hout) as [HN [[Hwd Hdays]|[Hwe Hdays]]].
    + by apply raises_outside, build_model_raises_adjacent.
    + by apply raises_outside, build_model_raises_weekend.
  - intros st Hrun.
    destruct (build_model_from_created cfg HD) as (st0 & Hrun0 & Hsh0 & Hdep0 & Hcov).
    fold d in Hdep0, Hcov.
    assert (Hd : d < num_departments cfg) by (subst d; lia).
    assert (Hcomplete : ∀ k, legal cfg k → is_Some (created cfg !! k)).
    { intros k. apply created_legal. }
    rewrite (bind_Ok _ _ _ _ _ Hrun0) in Hrun.
    pose proof (tries_seq (created cfg) (Some d) (Some d) (Some d) _ _
                  Hcov (add_adjacent_tries cfg (created cfg) d) st0 Hsh0 Hdep0)
      as [(st1 & Hrun1 & Hsh1 & Hdep1)|(k & Hraise & _)];
      [|rewrite Hrun in Hraise; discriminate].
    rewrite Hrun in Hrun1. injection Hrun1 as <-.
    split; [exact Hdep1|]. rewrite Hsh1.
    split; [intros k; apply created_legal|]. split.
    + intros n day s Hn%elem_of_range Hday%elem_of_range _ Hs%elem_of_range.
      split; [|split].
      * by apply (reads_in_shifts cfg (created cfg) Hcomplete).
      * intros next_day next_s Hnd%elem_of_next_days Hns%elem_of_range.
        apply (reads_in_shifts cfg (created cfg) Hcomplete).
        unfold legal. repeat split; lia.
      * intros Hlt%Z.ltb_lt. apply created_legal. unfold legal. repeat split; lia.
    + destruct (add_rest_emits cfg (created cfg) Hcomplete d Hd st Hsh1 Hdep1)
        as (st' & Hrun' & _ & _ & _ & Hcs).
      exists st'. by split.
Qed.

Lemma encoding_fails_fast_witness :
  (∃ k', build_model six_day_config init_frame = Raise (KeyError (TupleKey k'))
         ∧ ¬ legal six_day_config k')
  ∧ reads (shifts (before_rest six_day_config)) (Some 0) (in_shifts 0 3 0) true
  ∧ reads (shifts (before_rest six_day_config)) (Some 0) (in_shifts 0 5 0) true.
Proof.
  assert (HD : 0 < num_departments six_day_config) by (simpl; lia).
  destruct (encoding_fails_fast six_day_config HD) as [Hraise Hrest].
  split.
  - apply (Hraise {| kkeys := weekend_keys six_day_config 0; kcmp := CmpLe; krhs := 1 |}
             (0, 0, 6, 0)).
    + unfold model_spec. rewrite !elem_of_app. do 4 right. left.
      apply (list_elem_of_lookup_2 _ 0). reflexivity.
    + apply (list_elem_of_lookup_2 _ 1). reflexivity.
    + intros (_ & _ & H & _). simpl in H. lia.
  - assert (Hrun : (create_variables six_day_config ;;; add_coverage six_day_config ;;;
                    add_adjacent six_day_config) init_frame
                   = Ok (tt, before_rest six_day_config)).
    { apply (final_ok (create_variables six_day_config ;;;
                       add_coverage six_day_config ;;;
                       add_adjacent six_day_config) init_frame).
      vm_compute. reflexivity. }
    destruct (Hrest (before_rest six_day_config) Hrun) as (_ & _ & Hguards & _).
    destruct (Hguards 0 3 0) as (H48 & H53 & _).
    + apply elem_of_range. simpl. lia.
    + apply elem_of_range. simpl. lia.
    + reflexivity.
    + apply elem_of_range. vm_compute. lia.
    + split; [exact H48|]. apply (H53 5 0).
      * apply elem_of_next_days. simpl. lia.
      * apply elem_of_range. vm_compute. lia.
Defined.

Lemma short_horizon_raises_witness :
  ∃ k, build_model
         {| num_departments := 1; num_nurses := 12; num_days := 6;
            num_weekday_shifts := 2; num_weekend_shifts := 1 |} init_frame
       = Raise (KeyError (TupleKey k)).
Proof.
  destruct (short_horizon_raises
              {| num_departments := 1; num_nurses := 12; num_days := 6;
                 num_weekday_shifts := 2; num_weekend_shifts := 1 |})
    as (k & Hrun & _); [simpl; lia..|].
  exists k. exact Hrun.
Defined.

Lemma no_nurses_raises_witness :
  build_model {| num_departments := 2; num_nurses := 0; num_days := 7;
                 num_weekday_shifts := 2; num_weekend_shifts := 1 |} init_frame
  = Raise ZeroDivisionError.
Proof. apply no_nurses_raises. reflexivity. Defined.

Lemma no_departments_raises_witness :
  build_model {| num_departments := 0; num_nurses := 3; num_days := 7;
                 num_weekday_shifts := 2; num_weekend_shifts := 1 |} init_frame
  = Raise (NameError "dep").
Proof. apply no_departments_raises; simpl; lia. Defined.

Lemma model_well_formed_witness :
  (13 < num_vars (model (built ward_config)))%N
  ∧ ∃ k, legal ward_config k ∧ shifts (built ward_config) !! k = Some 13%N.
Proof.
  assert (H1 : 0 < num_departments ward_config) by (simpl; lia).
  assert (H2 : 0 < num_nurses ward_config) by (simpl; lia).
  assert (H3 : 7 ≤ num_days ward_config) by (simpl; lia).
  assert (H4 : 0 < num_weekday_shifts ward_config) by (simpl; lia).
  assert (H5 : 0 < num_weekend_shifts ward_config) by (simpl; lia).
  assert (H6 : build_model ward_config init_frame = Ok (tt, built ward_config))
    by (apply built_ok; vm_compute; reflexivity).
  assert (H7 : {| lhs := [0; 1; 12; 13; 24; 25; 36; 37; 48; 49; 60; 61; 72; 73; 84; 85;
                          96; 97; 108; 109; 120; 121; 132; 133]%N;
                  cmp := CmpEq; rhs := 2 |} ∈ constraints (model (built ward_config))).
  { apply (list_elem_of_lookup_2 _ 0). vm_compute. reflexivity. }
  apply (proj2 (model_well_formed ward_config (built ward_config) _
                  H1 H2 H3 H4 H5 H6 H7)).
  simpl. apply (list_elem_of_lookup_2 _ 3). reflexivity.
Defined.

(** X8. With at least one department, one nurse and seven days, model
    construction (lines 17-88) raises nothing; it ends with [shifts] holding
    exactly the keys in range and with [dep] left at the last department.
    With at least one slot on weekdays and on weekend days the model then has
    departments x nurses x (slots of the horizon) variables. *)
Theorem build_model_succeeds (cfg : Config) :
  0 < num_departments cfg → 0 < num_nurses cfg → 7 ≤ num_days cfg →
  ∃ st, build_model cfg init_frame = Ok (tt, st)
    ∧ (∀ k, is_Some (shifts st !! k) ↔ legal cfg k)
    ∧ dep st = Some (num_departments cfg - 1)
    ∧ (0 < num_weekday_shifts cfg → 0 < num_weekend_shifts cfg →
         num_vars (model st)
         = N.of_nat (num_departments cfg * num_nurses cfg * slots_per_week cfg)).
Proof.
  intros HD HN Hdays.
  destruct (build_model_run cfg HD HN Hdays) as (st & Hrun & Hsh & Hdep & Hnv & _).
  exists st. split; [exact Hrun|]. rewrite Hsh, Hnv, length_all_keys.
  split; [apply created_legal|]. split; [exact Hdep|]. done.
Qed.

Lemma build_model_succeeds_witness :
  ∃ st, build_model main_config init_frame = Ok (tt, st)
    ∧ num_vars (model st) = N.of_nat (15 * 100 * 12).
Proof.
  destruct (build_model_succeeds main_config) as (st & Hrun & _ & _ & Hnv);
    [simpl; lia..|].
  exists st. split; [exact Hrun|].
  apply Hnv; simpl; lia.
Defined.

(** ** How many nurses a solution needs *)

Lemma coverage_sum cfg st sol dp day :
  0 < num_departments cfg → 0 < num_nurses cfg → 7 ≤ num_days cfg →
  build_model cfg init_frame = Ok (tt, st) →
  satisfies sol (model st) = true →
  dp < num_departments cfg → day < num_days cfg →
  ksum (works (shifts st) sol)
       (map (λ '(n, s), (dp, n, day, s))
            (list_prod (all_nurses cfg) (range (num_shifts_of cfg day))))
  = Z.of_nat (num_shifts_of cfg day).
Proof.
  intros HD HN Hdays Hrun Hsat Hdp Hday. apply Z.eqb_eq.
  apply (model_spec_holds cfg st sol _ HD HN Hdays Hrun Hsat
           (coverage_spec_elem cfg dp day Hdp Hday)).
  intros k Hk. simpl in Hk. apply list_elem_of_fmap in Hk as ([n s] & -> & Hns).
  apply elem_of_list_prod in Hns as [Hn%elem_of_range Hs%elem_of_range]. done.
Qed.

Lemma day_sum cfg st sol n day :
  0 < num_departments cfg → 0 < num_nurses cfg → 7 ≤ num_days cfg →
  build_model cfg init_frame = Ok (tt, st) →
  satisfies sol (model st) = true →
  n < num_nurses cfg → day < num_days cfg →
  (ksum (works (shifts st) sol) (day_keys cfg n day) ≤ 1)%Z.
Proof.
  intros HD HN Hdays Hrun Hsat Hn Hday. apply Z.leb_le.
  apply (model_spec_holds cfg st sol _ HD HN Hdays Hrun Hsat
           (single_department_spec_elem cfg n day Hn Hday)).
  intros k Hk. by apply (elem_of_day_keys cfg n day k Hn Hday) in Hk as [Hk _].
Qed.

Lemma ksum_Permutation f l l' : l ≡ₚ l' → ksum f l = ksum f l'.
Proof. induction 1; simpl; lia. Qed.

Lemma ksum_bind_eq {A : Type} f (g : A → list Key) l c :
  (∀ x, x ∈ l → ksum f (g x) = c) →
  ksum f (l ≫= g) = (Z.of_nat (length l) * c)%Z.
Proof.
  induction l as [|x l IH]; intros Hg; [simpl; lia|].
  rewrite bind_cons, ksum_app, IH, Hg.
  - simpl length. lia.
  - left.
  - intros y Hy. apply Hg. by right.
Qed.

Lemma ksum_bind_le {A : Type} f (g : A → list Key) l c :
  (∀ x, x ∈ l → (ksum f (g x) ≤ c)%Z) →
  (ksum f (l ≫= g) ≤ Z.of_nat (length l) * c)%Z.
Proof.
  induction l as [|x l IH]; intros Hg; [simpl; lia|].
  rewrite bind_cons, ksum_app.
  assert (ksum f (g x) ≤ c)%Z by (apply Hg; left).
  assert (ksum f (l ≫= g) ≤ Z.of_nat (length l) * c)%Z
    by (apply IH; intros y Hy; apply Hg; by right).
  simpl length. lia.
Qed.

Lemma NoDup_cell_keys cfg (dp day : nat) :
  NoDup (map (λ '(n, s), (dp, n, day, s))
             (list_prod (all_nurses cfg) (range (num_shifts_of cfg day)))).
Proof.
  apply NoDup_fmap_2.
  - intros [n s] [n' s'] Heq. by injection Heq as -> ->.
  - apply NoDup_list_prod; apply NoDup_range.
Qed.

Lemma elem_of_cell_keys cfg (dp day : nat) (k : Key) :
  dp < num_departments cfg → day < num_days cfg →
  k ∈ map (λ '(n, s), (dp, n, day, s))
          (list_prod (all_nurses cfg) (range (num_shifts_of cfg day)))
  ↔ legal cfg k ∧ k.1.1.1 = dp ∧ k.1.2 = day.
Proof.
  intros Hdp Hday. destruct k as [[[d n] day'] s]. unfold legal. cbn [fst snd].
  rewrite list_elem_of_fmap. split.
  - intros ([n' s'] & Heq & [Hn%elem_of_range Hs%elem_of_range]%elem_of_list_prod).
    injection Heq as -> -> -> ->. done.
  - intros ((_ & Hn & _ & Hs) & -> & ->). exists (n, s). split; [done|].
    apply elem_of_list_prod. split; by apply elem_of_range.
Qed.

(** The keys of one day, listed by department and listed by nurse. *)
Lemma day_by_department_by_nurse cfg day :
  day < num_days cfg →
  all_departments cfg ≫=
    (λ dp : nat,
       map (λ ns : nat * nat, let '(n, s) := ns in (dp, n, day, s))
           (list_prod (all_nurses cfg) (range (num_shifts_of cfg day))))
  ≡ₚ all_nurses cfg ≫= (λ n : nat, day_keys cfg n day).
Proof.
  intros Hday. apply NoDup_Permutation.
  - apply NoDup_bind; [| |apply NoDup_range].
    + intros d1 d2 k Hd1%elem_of_range Hd2%elem_of_range H1 H2.
      apply (elem_of_cell_keys cfg d1 day k Hd1 Hday) in H1 as (_ & <- & _).
      by apply (elem_of_cell_keys cfg d2 day k Hd2 Hday) in H2 as (_ & <- & _).
    + intros dp _. apply NoDup_cell_keys.
  - apply NoDup_bind; [| |apply NoDup_range].
    + intros n1 n2 k Hn1%elem_of_range Hn2%elem_of_range H1 H2.
      apply (elem_of_day_keys cfg n1 day k Hn1 Hday) in H1 as (_ & <- & _).
      by apply (elem_of_day_keys cfg n2 day k Hn2 Hday) in H2 as (_ & <- & _).
    + intros n _. apply NoDup_day_keys.
  - intros k. rewrite !list_elem_of_bind. split.
    + intros (dp & Hk & Hdp%elem_of_range).
      apply (elem_of_cell_keys cfg dp day k Hdp Hday) in Hk as (Hl & Hkd & Hkday).
      exists (k.1.1.2). destruct k as [[[d n] day'] s]. cbn [fst snd] in *.
      assert (Hn : n < num_nurses cfg) by (destruct Hl as (_ & Hn & _); done).
      split; [|by apply elem_of_range].
      by apply (elem_of_day_keys cfg n day _ Hn Hday).
    + intros (n & Hk & Hn%elem_of_range).
      apply (elem_of_day_keys cfg n day k Hn Hday) in Hk as (Hl & Hkn & Hkday).
      exists (k.1.1.1). destruct k as [[[d n'] day'] s]. cbn [fst snd] in *.
      assert (Hd : d < num_departments cfg) by (destruct Hl as (Hd & _); done).
      split; [|by apply elem_of_range].
      by apply (elem_of_cell_keys cfg d day _ Hd Hday).
Qed.

Lemma weekday_staffing (cfg : Config) (st : Frame) (sol : Solution) :
  0 < num_departments cfg → 7 ≤ num_days cfg →
  build_model cfg init_frame = Ok (tt, st) →
  satisfies sol (model st) = true →
  num_departments cfg * num_weekday_shifts cfg ≤ num_nurses cfg.
Proof.
  intros HD Hdays Hrun Hsat.
  pose proof (build_model_needs_nurses cfg st Hrun) as HN.
  assert (Hday : 0 < num_days cfg) by lia.
  pose proof (ksum_Permutation (works (shifts st) sol) _ _
                (day_by_department_by_nurse cfg 0 Hday)) as Hperm.
  rewrite (ksum_bind_eq _ _ _ (Z.of_nat (num_shifts_of cfg 0))) in Hperm.
  2:{ intros dp Hdp%elem_of_range.
      by apply (coverage_sum cfg st sol dp 0 HD HN Hdays Hrun Hsat). }
  pose proof (ksum_bind_le (works (shifts st) sol) (λ n, day_keys cfg n 0)
                (all_nurses cfg) 1) as Hle.
  unfold all_departments, all_nurses in *. rewrite !length_range in *.
  rewrite num_shifts_weekday in Hperm by lia.
  assert (ksum (works (shifts st) sol) (range (num_nurses cfg) ≫= λ n, day_keys cfg n 0)
          ≤ Z.of_nat (num_nurses cfg) * 1)%Z.
  { apply Hle. intros n Hn%elem_of_range.
    by apply (day_sum cfg st sol n 0 HD HN Hdays Hrun Hsat). }
  nia.
Qed.

Lemma weekend_by_department_by_nurse cfg :
  7 ≤ num_days cfg →
  all_departments cfg ≫=
    (λ dp : nat,
       map (λ ns : nat * nat, let '(n, s) := ns in (dp, n, 5, s))
           (list_prod (all_nurses cfg) (range (num_shifts_of cfg 5)))
       ++ map (λ ns : nat * nat, let '(n, s) := ns in (dp, n, 6, s))
              (list_prod (all_nurses cfg) (range (num_shifts_of cfg 6))))
  ≡ₚ all_nurses cfg ≫= (λ n : nat, weekend_keys cfg n).
Proof.
  intros Hdays.
  assert (H5 : 5 < num_days cfg) by lia. assert (H6 : 6 < num_days cfg) by lia.
  assert (Hcell : ∀ dp k, dp < num_departments cfg →
            k ∈ map (λ ns : nat * nat, let '(n, s) := ns in (dp, n, 5, s))
                    (list_prod (all_nurses cfg) (range (num_shifts_of cfg 5)))
                ++ map (λ ns : nat * nat, let '(n, s) := ns in (dp, n, 6, s))
                       (list_prod (all_nurses cfg) (range (num_shifts_of cfg 6)))
            ↔ legal cfg k ∧ k.1.1.1 = dp ∧ (k.1.2 = 5 ∨ k.1.2 = 6)).
  { intros dp k Hdp. rewrite elem_of_app.
    rewrite (elem_of_cell_keys cfg dp 5 k Hdp H5), (elem_of_cell_keys cfg dp 6 k Hdp H6).
    tauto. }
  apply NoDup_Permutation.
  - apply NoDup_bind; [| |apply NoDup_range].
    + intros d1 d2 k Hd1%elem_of_range Hd2%elem_of_range H1 H2.
      apply (Hcell d1 k Hd1) in H1 as (_ & <- & _).
      by apply (Hcell d2 k Hd2) in H2 as (_ & <- & _).
    + intros dp Hdp%elem_of_range. apply NoDup_app. split; [apply NoDup_cell_keys|].
      split; [|apply NoDup_cell_keys].
      intros k Hk5 Hk6.
      apply (elem_of_cell_keys cfg dp 5 k Hdp H5) in Hk5 as (_ & _ & Hk5).
      apply (elem_of_cell_keys cfg dp 6 k Hdp H6) in Hk6 as (_ & _ & Hk6). lia.
  - apply NoDup_bind; [| |apply NoDup_range].
    + intros n1 n2 k Hn1%elem_of_range Hn2%elem_of_range H1 H2.
      apply (elem_of_weekend_keys cfg n1 k Hn1 Hdays) in H1 as (_ & <- & _).
      by apply (elem_of_weekend_keys cfg n2 k Hn2 Hdays) in H2 as (_ & <- & _).
    + intros n _. apply NoDup_weekend_keys.
  - intros k. rewrite !list_elem_of_bind. split.
    + intros (dp & Hk & Hdp%elem_of_range).
      apply (Hcell dp k Hdp) in Hk as (Hl & Hkd & Hkday).
      exists (k.1.1.2). destruct k as [[[d n] day'] s]. cbn [fst snd] in *.
      assert (Hn : n < num_nurses cfg) by (destruct Hl as (_ & Hn & _); done).
      split; [|by apply elem_of_range].
      by apply (elem_of_weekend_keys cfg n _ Hn Hdays).
    + intros (n & Hk & Hn%elem_of_range).
      apply (elem_of_weekend_keys cfg n k Hn Hdays) in Hk as (Hl & Hkn & Hkday).
      exists (k.1.1.1). destruct k as [[[d n'] day'] s]. cbn [fst snd] in *.
      assert (Hd : d < num_departments cfg) by (destruct Hl as (Hd & _); done).
      split; [|by apply elem_of_range].
      by apply (Hcell d _ Hd).
Qed.

Lemma weekend_sum cfg st sol n :
  0 < num_departments cfg → 0 < num_nurses cfg → 7 ≤ num_days cfg →
  build_model cfg init_frame = Ok (tt, st) →
  satisfies sol (model st) = true →
  n < num_nurses cfg →
  (ksum (works (shifts st) sol) (weekend_keys cfg n) ≤ 1)%Z.
Proof.
  intros HD HN Hdays Hrun Hsat Hn. apply Z.leb_le.
  apply (model_spec_holds cfg st sol _ HD HN Hdays Hrun Hsat (weekend_spec_elem cfg n Hn)).
  intros k Hk. by apply (elem_of_weekend_keys cfg n k Hn Hdays) in Hk as [Hk _].
Qed.

Lemma weekend_staffing (cfg : Config) (st : Frame) (sol : Solution) :
  0 < num_departments cfg → 7 ≤ num_days cfg →
  build_model cfg init_frame = Ok (tt, st) →
  satisfies sol (model st) = true →
  num_departments cfg * (2 * num_weekend_shifts cfg) ≤ num_nurses cfg.
Proof.
  intros HD Hdays Hrun Hsat.
  pose proof (build_model_needs_nurses cfg st Hrun) as HN.
  pose proof (ksum_Permutation (works (shifts st) sol) _ _
                (weekend_by_department_by_nurse cfg Hdays)) as Hperm.
  rewrite (ksum_bind_eq _ _ _ (2 * Z.of_nat (num_weekend_shifts cfg))) in Hperm.
  2:{ intros dp Hdp%elem_of_range. rewrite ksum_app.
      rewrite (coverage_sum cfg st sol dp 5 HD HN Hdays Hrun Hsat Hdp) by lia.
      rewrite (coverage_sum cfg st sol dp 6 HD HN Hdays Hrun Hsat Hdp) by lia.
      rewrite !num_shifts_weekend by lia. lia. }
  pose proof (ksum_bind_le (works (shifts st) sol) (λ n, weekend_keys cfg n)
                (all_nurses cfg) 1) as Hle.
  unfold all_departments, all_nurses in *. rewrite !length_range in *.
  assert (ksum (works (shifts st) sol) (range (num_nurses cfg) ≫= λ n, weekend_keys cfg n)
          ≤ Z.of_nat (num_nurses cfg) * 1)%Z.
  { apply Hle. intros n Hn%elem_of_range.
    by apply (weekend_sum cfg st sol n HD HN Hdays Hrun Hsat). }
  nia.
Qed.

(** X9. What a solution needs: if the model has any solution, the nurses are
    at least departments x weekday slots, and at least departments x 2 x
    weekend slots.  (Coverage, lines 29-32, asks for that many worked slots on
    a weekday and over the weekend; lines 65-68 and 71-74 allow a nurse one
    slot a day and one weekend day.) *)
Theorem staffing_bounds (cfg : Config) (st : Frame) (sol : Solution) :
  0 < num_departments cfg → 7 ≤ num_days cfg →
  build_model cfg init_frame = Ok (tt, st) →
  satisfies sol (model st) = true →
  num_departments cfg * num_weekday_shifts cfg ≤ num_nurses cfg
  ∧ num_departments cfg * (2 * num_weekend_shifts cfg) ≤ num_nurses cfg.
Proof.
  intros HD Hdays Hrun Hsat. split.
  - by apply (weekday_staffing cfg st sol).
  - by apply (weekend_staffing cfg st sol).
Qed.

Lemma staffing_bounds_witness :
  num_departments ward_config * num_weekday_shifts ward_config ≤ num_nurses ward_config
  ∧ num_departments ward_config * (2 * num_weekend_shifts ward_config)
    ≤ num_nurses ward_config.
Proof.
  assert (H1 : 0 < num_departments ward_config) by (simpl; lia).
  assert (H3 : 7 ≤ num_days ward_config) by (simpl; lia).
  assert (H4 : build_model ward_config init_frame = Ok (tt, built ward_config))
    by (apply built_ok; vm_compute; reflexivity).
  assert (H5 : satisfies ward_solution (model (built ward_config)) = true)
    by (vm_compute; reflexivity).
  exact (staffing_bounds ward_config (built ward_config) ward_solution H1 H3 H4 H5).
Defined.

(** * Further properties of the solution callback *)

Lemma callback_effects cfg sh sol p :
  (∀ k, legal cfg k → is_Some (sh !! k)) →
  params cfg sh p → has_days cfg (_department_schedule p) →
  ∃ p', on_solution_callback sol p = Ok (tt, p')
        ∧ params cfg sh p'
        ∧ has_days cfg (_department_schedule p')
        ∧ _department_schedule p'
          = fold_left (step cfg sh sol) (all_cells cfg) (_department_schedule p)
        ∧ _solution_count p' = _solution_count p + 1
        ∧ _solution_limit p' = _solution_limit p
        ∧ stop_requested p'
          = (if _solution_limit p <=? _solution_count p + 1 then true
             else stop_requested p).
Proof.
  intros Hsh Hp Hhas. unfold on_solution_callback.
  assert (Hincr : ∃ p1, incr_solution_count p = Ok (tt, p1) ∧ params cfg sh p1
            ∧ _department_schedule p1 = _department_schedule p
            ∧ _solution_count p1 = _solution_count p + 1
            ∧ _solution_limit p1 = _solution_limit p
            ∧ stop_requested p1 = stop_requested p).
  { eexists. split; [reflexivity|]. split; [exact Hp|]. by repeat split. }
  destruct Hincr as (p1 & Hrun1 & Hp1 & Hsched1 & Hcount1 & Hlimit1 & Hstop1).
  rewrite (bind_Ok _ _ _ _ _ Hrun1).
  assert (Hhas1 : has_days cfg (_department_schedule p1)) by (by rewrite Hsched1).
  assert (Hgets : gets _num_departments p1 = Ok (num_departments cfg, p1)).
  { unfold gets. by destruct Hp1 as (_ & _ & _ & _ & _ & ->). }
  rewrite (bind_Ok _ _ _ _ _ Hgets).
  rewrite (bind_Ok _ _ _ _ _ (scan_cells_rewrites cfg sh sol Hsh p1 Hp1 Hhas1)).
  unfold bind, gets, when_. simpl. rewrite <- Hlimit1, <- Hcount1, <- Hstop1.
  destruct (_solution_limit p1 <=? _solution_count p1);
    eexists; (split; [reflexivity|]); simpl;
    (split; [exact Hp1|]);
    (split; [by apply has_days_fold|]);
    (split; [by rewrite Hsched1|]); done.
Qed.

Lemma cell_fold_all cfg sh sol sched dep day s :
  has_days cfg sched →
  dep < num_departments cfg → day < num_days cfg → s < num_shifts_of cfg day →
  cell (fold_left (step cfg sh sol) (all_cells cfg) sched) dep day s
  = match last_true cfg sh sol dep day s with
    | Some n => Some (Some n)
    | None => cell sched dep day s
    end.
Proof.
  intros Hhas Hdep Hday Hs. apply cell_fold_in; try done.
  - apply NoDup_all_cells.
  - by apply elem_of_all_cells.
Qed.

(** The printer after the callback has seen a list of solutions. *)
Lemma on_solutions_run cfg sh sols p :
  (∀ k, legal cfg k → is_Some (sh !! k)) →
  params cfg sh p → has_days cfg (_department_schedule p) →
  ∃ p', on_solutions sols p = Ok (tt, p')
        ∧ params cfg sh p'
        ∧ has_days cfg (_department_schedule p')
        ∧ _solution_count p' = _solution_count p + length sols
        ∧ _solution_limit p' = _solution_limit p
        ∧ stop_requested p'
          = (stop_requested p
             || ((0 <? length sols)
                 && (_solution_limit p <=? _solution_count p + length sols)))
        ∧ ∀ dep day s,
            dep < num_departments cfg → day < num_days cfg →
            s < num_shifts_of cfg day →
            ∀ acc, cell (_department_schedule p) dep day s = Some acc →
              cell (_department_schedule p') dep day s
              = Some (latest_nurse cfg sh sols dep day s acc).
Proof.
  intros Hsh. revert p. induction sols as [|sol sols IH]; intros p Hp Hhas.
  - exists p. split; [reflexivity|]. split; [done|]. split; [done|].
    simpl. rewrite Nat.add_0_r, orb_false_r. repeat split; try done.
  - destruct (callback_effects cfg sh sol p Hsh Hp Hhas)
      as (p1 & Hrun1 & Hp1 & Hhas1 & Hsched1 & Hcount1 & Hlimit1 & Hstop1).
    destruct (IH p1 Hp1 Hhas1)
      as (p2 & Hrun2 & Hp2 & Hhas2 & Hcount2 & Hlimit2 & Hstop2 & Hcell2).
    exists p2. unfold on_solutions in *.
    change (for_ (sol :: sols) on_solution_callback)
      with (on_solution_callback sol ;;; for_ sols on_solution_callback).
    rewrite (bind_Ok _ _ _ _ _ Hrun1).
    split; [exact Hrun2|]. split; [exact Hp2|]. split; [exact Hhas2|].
    split; [simpl; lia|]. split; [congruence|]. split.
    + rewrite Hstop2, Hstop1, Hlimit1, Hcount1. simpl length.
      replace (_solution_count p + 1 + length sols)
        with (_solution_count p + S (length sols)) by lia.
      destruct (stop_requested p); simpl.
      { by destruct (_solution_limit p <=? _solution_count p + 1). }
      destruct (Nat.leb_spec (_solution_limit p) (_solution_count p + 1)) as [H1|H1];
        destruct (Nat.leb_spec (_solution_limit p) (_solution_count p + S (length sols)))
          as [H2|H2]; destruct (Nat.ltb_spec 0 (length sols)) as [H3|H3];
        simpl; try reflexivity; lia.
    + intros dep day s Hdep Hday Hs acc Hacc. simpl.
      apply Hcell2; try done.
      rewrite Hsched1, cell_fold_all by done.
      by destruct (last_true cfg sh sol dep day s).
Qed.

Lemma solution_printer_ok cfg sh limit : printer_ok cfg sh (solution_printer cfg sh limit).
Proof. split; [apply solution_printer_params|apply solution_printer_has_days]. Qed.

(** X10. The printer after the solver has reported a list of solutions (lines
    110-124), for a dict that holds every key in range: no exception is
    raised, [solutionCount()] is the number of solutions reported, and
    [StopSearch] has been called exactly when at least one solution was
    reported and the limit is at most that number. *)
Theorem solution_count_and_stop (cfg : Config) (sh : gmap Key BoolVar)
    (sols : list Solution) (limit : nat) :
  complete cfg sh = true →
  ∃ p, on_solutions sols (solution_printer cfg sh limit) = Ok (tt, p)
    ∧ solutionCount p = length sols
    ∧ stop_requested p = (0 <? length sols) && (limit <=? length sols).
Proof.
  intros Hcomplete. pose proof (complete_legal cfg sh Hcomplete) as Hsh.
  destruct (on_solutions_run cfg sh sols (solution_printer cfg sh limit) Hsh
              (solution_printer_params cfg sh limit)
              (solution_printer_has_days cfg sh limit))
    as (p & Hrun & _ & _ & Hcount & _ & Hstop & _).
  exists p. split; [exact Hrun|]. split; [exact Hcount|exact Hstop].
Qed.

Lemma solution_count_and_stop_witness :
  ∃ p, on_solutions [ward_solution; ward_solution]
         (solution_printer ward_config (shifts (built ward_config)) 1) = Ok (tt, p)
    ∧ solutionCount p = 2 ∧ stop_requested p = true.
Proof.
  apply (solution_count_and_stop ward_config (shifts (built ward_config))
           [ward_solution; ward_solution] 1).
  vm_compute. reflexivity.
Defined.

(** X11. The schedule is never reset between solutions (lines 110-118): when a
    further solution is reported, a cell for which that solution has no
    working nurse keeps what it showed before, and a cell for which it has one
    shows the largest such nurse. *)
Theorem later_solution_overwrites (cfg : Config) (sh : gmap Key BoolVar)
    (sols : list Solution) (sol : Solution) (limit dep day s : nat) :
  complete cfg sh = true →
  dep < num_departments cfg → day < num_days cfg → s < num_shifts_of cfg day →
  ∃ p1 p2,
    on_solutions sols (solution_printer cfg sh limit) = Ok (tt, p1)
    ∧ on_solution_callback sol p1 = Ok (tt, p2)
    ∧ ((∀ n, n < num_nurses cfg → works sh sol (dep, n, day, s) = false) →
         cell (get_department_schedule p2) dep day s
         = cell (get_department_schedule p1) dep day s)
    ∧ (∀ n, n < num_nurses cfg → works sh sol (dep, n, day, s) = true →
         (∀ n', n < n' → n' < num_nurses cfg → works sh sol (dep, n', day, s) = false) →
         cell (get_department_schedule p2) dep day s = Some (Some n)).
Proof.
  intros Hcomplete Hdep Hday Hs. pose proof (complete_legal cfg sh Hcomplete) as Hsh.
  destruct (on_solutions_run cfg sh sols (solution_printer cfg sh limit) Hsh
              (solution_printer_params cfg sh limit)
              (solution_printer_has_days cfg sh limit))
    as (p1 & Hrun1 & Hp1 & Hhas1 & _).
  destruct (callback_effects cfg sh sol p1 Hsh Hp1 Hhas1)
    as (p2 & Hrun2 & _ & _ & Hsched2 & _).
  exists p1, p2. split; [exact Hrun1|]. split; [exact Hrun2|].
  unfold get_department_schedule. rewrite Hsched2, cell_fold_all by done.
  pose proof (last_true_spec cfg sh sol dep day s) as Hspec.
  destruct (last_true cfg sh sol dep day s) as [m|].
  - destruct Hspec as (Hm & Hwm & Hmax). split.
    + intros Hnone. rewrite Hnone in Hwm by done. discriminate.
    + intros n Hn Hwn Hmaxn. do 2 f_equal.
      destruct (lt_eq_lt_dec m n) as [[Hlt| ->]|Hgt]; [|done|].
      * rewrite Hmax in Hwn by done. discriminate.
      * rewrite Hmaxn in Hwm by done. discriminate.
  - split; [done|]. intros n Hn Hwn. rewrite Hspec in Hwn by done. discriminate.
Qed.

Lemma later_solution_overwrites_witness :
  ∃ p1 p2,
    on_solutions [ward_solution]
      (solution_printer ward_config (shifts (built ward_config)) 2) = Ok (tt, p1)
    ∧ on_solution_callback (λ _, false) p1 = Ok (tt, p2)
    ∧ cell (get_department_schedule p2) 0 1 0 = cell (get_department_schedule p1) 0 1 0.
Proof.
  assert (H0 : complete ward_config (shifts (built ward_config)) = true)
    by (vm_compute; reflexivity).
  assert (H1 : 0 < num_departments ward_config) by (simpl; lia).
  assert (H2 : 1 < num_days ward_config) by (simpl; lia).
  assert (H3 : 0 < num_shifts_of ward_config 1) by (vm_compute; lia).
  destruct (later_solution_overwrites ward_config (shifts (built ward_config))
              [ward_solution] (λ _, false) 2 0 1 0 H0 H1 H2 H3)
    as (p1 & p2 & Hrun1 & Hrun2 & Hkeep & _).
  exists p1, p2. split; [exact Hrun1|]. split; [exact Hrun2|].
  apply Hkeep. intros n _. unfold works.
  by destruct (shifts (built ward_config) !! (0, n, 1, 0)).
Defined.

Lemma on_solutions_other_cells cfg sh sols p dep day s :
  (∀ k, legal cfg k → is_Some (sh !! k)) →
  params cfg sh p → has_days cfg (_department_schedule p) →
  (dep, day, s) ∉ all_cells cfg →
  ∀ p', on_solutions sols p = Ok (tt, p') →
        cell (_department_schedule p') dep day s = cell (_department_schedule p) dep day s.
Proof.
  intros Hsh Hp Hhas Hnotin. revert p Hp Hhas.
  induction sols as [|sol sols IH]; intros p Hp Hhas p' Hrun.
  - injection Hrun as <-. reflexivity.
  - destruct (callback_effects cfg sh sol p Hsh Hp Hhas)
      as (p1 & Hrun1 & Hp1 & Hhas1 & Hsched1 & _).
    unfold on_solutions in *.
    change (for_ (sol :: sols) on_solution_callback)
      with (on_solution_callback sol ;;; for_ sols on_solution_callback) in Hrun.
    rewrite (bind_Ok _ _ _ _ _ Hrun1) in Hrun.
    rewrite (IH p1 Hp1 Hhas1 p' Hrun), Hsched1.
    by apply cell_fold_notin.
Qed.

Lemma solution_printer_cell_outside cfg sh limit dep day s :
  ¬ (dep < num_departments cfg ∧ day < num_days cfg ∧ s < num_shifts_of cfg day) →
  cell (_department_schedule (solution_printer cfg sh limit)) dep day s = None.
Proof.
  intros Hout. unfold cell. simpl. rewrite dict_comp_lookup.
  destruct (decide (dep ∈ range (num_departments cfg))) as [Hdep%elem_of_range|]; [|done].
  simpl. rewrite dict_comp_lookup.
  destruct (decide (day ∈ range (num_days cfg))) as [Hday%elem_of_range|]; [|done].
  simpl. rewrite dict_comp_lookup, <- num_shifts_of_ltb.
  destruct (decide (s ∈ range (num_shifts_of cfg day))) as [Hs%elem_of_range|]; [|done].
  tauto.
Qed.

Lemma latest_nurse_spec cfg sh sols dep day s acc n :
  latest_nurse cfg sh sols dep day s acc = Some n →
  acc = Some n
  ∨ (n < num_nurses cfg ∧ ∃ sol, sol ∈ sols ∧ works sh sol (dep, n, day, s) = true).
Proof.
  revert acc. induction sols as [|sol sols IH]; intros acc H; simpl in H; [by left|].
  apply IH in H as [H|(Hn & sol' & Hin & Hw)].
  - pose proof (last_true_spec cfg sh sol dep day s) as Hspec.
    destruct (last_true cfg sh sol dep day s) as [m|]; [|by left].
    injection H as ->. destruct Hspec as (Hn & Hw & _).
    right. split; [done|]. exists sol. split; [left|done].
  - right. split; [done|]. exists sol'. split; [by right|done].
Qed.

(** X12. The schedule returned by [get_department_schedule()] (lines 108-118,
    126-127) after any list of solutions: it has a cell exactly for the
    departments, days and slots in range, and a nurse shown in a cell is in
    range and works that cell in one of the reported solutions. *)
Theorem schedule_shape (cfg : Config) (sh : gmap Key BoolVar) (sols : list Solution)
    (limit : nat) :
  complete cfg sh = true →
  ∃ p, on_solutions sols (solution_printer cfg sh limit) = Ok (tt, p)
    ∧ ∀ dep day s,
        (is_Some (cell (get_department_schedule p) dep day s)
         ↔ dep < num_departments cfg ∧ day < num_days cfg ∧ s < num_shifts_of cfg day)
        ∧ ∀ n, cell (get_department_schedule p) dep day s = Some (Some n) →
               n < num_nurses cfg
               ∧ ∃ sol, sol ∈ sols ∧ works sh sol (dep, n, day, s) = true.
Proof.
  intros Hcomplete. pose proof (complete_legal cfg sh Hcomplete) as Hsh.
  destruct (on_solutions_run cfg sh sols (solution_printer cfg sh limit) Hsh
              (solution_printer_params cfg sh limit)
              (solution_printer_has_days cfg sh limit))
    as (p & Hrun & _ & _ & _ & _ & _ & Hcell).
  exists p. split; [exact Hrun|]. intros dep day s. unfold get_department_schedule.
  destruct (decide (dep < num_departments cfg ∧ day < num_days cfg
                    ∧ s < num_shifts_of cfg day)) as [(Hdep & Hday & Hs)|Hout].
  - rewrite (Hcell dep day s Hdep Hday Hs None) by (by apply solution_printer_cell).
    split; [split; eauto|].
    intros n [= Hn]. apply latest_nurse_spec in Hn as [Hn|Hn]; [discriminate|done].
  - rewrite (on_solutions_other_cells cfg sh sols _ dep day s Hsh
               (solution_printer_params cfg sh limit)
               (solution_printer_has_days cfg sh limit)) with (p' := p).
    + rewrite solution_printer_cell_outside by done.
      split; [split; [by intros [? ?]|tauto]|discriminate].
    + by intros ?%elem_of_all_cells.
    + exact Hrun.
Qed.

Lemma schedule_shape_witness :
  ∃ p, on_solutions [ward_solution]
         (solution_printer ward_config (shifts (built ward_config)) 1) = Ok (tt, p)
    ∧ (is_Some (cell (get_department_schedule p) 0 5 1)
       ↔ 0 < num_departments ward_config ∧ 5 < num_days ward_config
         ∧ 1 < num_shifts_of ward_config 5).
Proof.
  assert (H0 : complete ward_config (shifts (built ward_config)) = true)
    by (vm_compute; reflexivity).
  destruct (schedule_shape ward_config (shifts (built ward_config)) [ward_solution] 1 H0)
    as (p & Hrun & Hshape).
  exists p. split; [exact Hrun|]. exact (proj1 (Hshape 0 5 1)).
Defined.

(** ** The callback on a dict that lacks a key *)

Section printer_absent.
Context (cfg : Config) (sh : gmap Key BoolVar) (sol : Solution).

Lemma pfails_ptries m : pfails cfg sh m → ptries cfg sh m.
Proof. intros H p Hp. right. by apply H. Qed.

Lemma ptries_ret : ptries cfg sh (ret tt).
Proof. intros p Hp. left. by exists p. Qed.

Lemma ptries_seq m1 m2 :
  ptries cfg sh m1 → ptries cfg sh m2 → ptries cfg sh (m1 ;;; m2).
Proof.
  intros H1 H2 p Hp. destruct (H1 p Hp) as [(p1 & Hrun & Hp1)|(k & Hrun & Hk)].
  - rewrite (bind_Ok _ _ _ _ _ Hrun). by apply H2.
  - right. exists k. by rewrite (bind_Raise _ _ _ _ Hrun).
Qed.

Lemma pfails_seq_l m1 m2 : pfails cfg sh m1 → pfails cfg sh (m1 ;;; m2).
Proof.
  intros H p Hp. destruct (H p Hp) as (k & Hrun & Hk).
  exists k. by rewrite (bind_Raise _ _ _ _ Hrun).
Qed.

Lemma pfails_seq_r m1 m2 :
  ptries cfg sh m1 → pfails cfg sh m2 → pfails cfg sh (m1 ;;; m2).
Proof.
  intros H1 H2 p Hp. destruct (H1 p Hp) as [(p1 & Hrun & Hp1)|(k & Hrun & Hk)].
  - rewrite (bind_Ok _ _ _ _ _ Hrun). by apply H2.
  - exists k. by rewrite (bind_Raise _ _ _ _ Hrun).
Qed.

Lemma ptries_for {A : Type} (xs : list A) body :
  (∀ x, x ∈ xs → ptries cfg sh (body x)) → ptries cfg sh (for_ xs body).
Proof.
  induction xs as [|x xs IH]; intros Hbody; [apply ptries_ret|].
  simpl. apply ptries_seq; [apply Hbody; left|].
  apply IH. intros y Hy. apply Hbody. by right.
Qed.

Lemma pfails_for {A : Type} (xs : list A) body x :
  (∀ y, y ∈ xs → ptries cfg sh (body y)) →
  x ∈ xs → pfails cfg sh (body x) → pfails cfg sh (for_ xs body).
Proof.
  induction xs as [|y xs IH]; intros Hbody Hx Hfail;
    [by apply not_elem_of_nil in Hx|].
  simpl. apply elem_of_cons in Hx as [<-|Hx].
  - by apply pfails_seq_l.
  - apply pfails_seq_r; [apply Hbody; left|].
    apply IH; [|done..]. intros z Hz. apply Hbody. by right.
Qed.

Lemma ptries_gets {A : Type} (f : Printer → A) (a : A) k :
  (∀ p, params cfg sh p → f p = a) → ptries cfg sh (k a) →
  ptries cfg sh (x <- gets f ;; k x).
Proof.
  intros Hf Hk p Hp.
  assert (Hg : gets f p = Ok (a, p)) by (unfold gets; by rewrite (Hf p (proj1 Hp))).
  rewrite (bind_Ok _ _ _ _ _ Hg). by apply Hk.
Qed.

Lemma pfails_gets {A : Type} (f : Printer → A) (a : A) k :
  (∀ p, params cfg sh p → f p = a) → pfails cfg sh (k a) →
  pfails cfg sh (x <- gets f ;; k x).
Proof.
  intros Hf Hk p Hp.
  assert (Hg : gets f p = Ok (a, p)) by (unfold gets; by rewrite (Hf p (proj1 Hp))).
  rewrite (bind_Ok _ _ _ _ _ Hg). by apply Hk.
Qed.

Lemma ptries_visit dep n day s :
  dep < num_departments cfg → day < num_days cfg →
  ptries cfg sh (v <- self_shifts (dep, n, day, s) ;;
                 when_ (sol v) (store_nurse dep day s n)).
Proof.
  intros Hdep Hday p [Hp Hhas]. pose proof Hp as (Hsh & Hrest).
  destruct (sh !! (dep, n, day, s)) as [v|] eqn:E.
  - left.
    assert (Hread : self_shifts (dep, n, day, s) p = Ok (v, p)).
    { unfold self_shifts, bind, gets. by rewrite Hsh, E. }
    rewrite (bind_Ok _ _ _ _ _ Hread). destruct (sol v); simpl.
    + rewrite store_nurse_run by (by apply Hhas). eexists. split; [reflexivity|].
      split; [exact Hp|]. simpl. intros dep' day' Hd' Hday'.
      apply has_day_store. by apply Hhas.
    + exists p. split; [reflexivity|]. by split.
  - right. exists (dep, n, day, s). split; [|done].
    apply bind_Raise. unfold self_shifts, bind, gets. by rewrite Hsh, E.
Qed.

Lemma pfails_visit dep n day s :
  sh !! (dep, n, day, s) = None →
  pfails cfg sh (v <- self_shifts (dep, n, day, s) ;;
                 when_ (sol v) (store_nurse dep day s n)).
Proof.
  intros Habsent p [(Hsh & _) _]. exists (dep, n, day, s). split; [|done].
  apply bind_Raise. unfold self_shifts, bind, gets. by rewrite Hsh, Habsent.
Qed.

Lemma ptries_scan dep day s :
  dep < num_departments cfg → day < num_days cfg →
  ptries cfg sh (scan_nurses sol dep day s).
Proof.
  intros Hdep Hday. unfold scan_nurses.
  eapply ptries_gets; [by intros p (_ & H & _)|].
  apply ptries_for. intros n _. by apply ptries_visit.
Qed.

Lemma pfails_scan dep n day s :
  dep < num_departments cfg → day < num_days cfg → n < num_nurses cfg →
  sh !! (dep, n, day, s) = None →
  pfails cfg sh (scan_nurses sol dep day s).
Proof.
  intros Hdep Hday Hn Habsent. unfold scan_nurses.
  eapply pfails_gets; [by intros p (_ & H & _)|].
  apply (pfails_for _ _ n); [|by apply elem_of_range|by apply pfails_visit].
  intros n' _. by apply ptries_visit.
Qed.

Lemma ptries_day dep day :
  dep < num_departments cfg → day < num_days cfg →
  ptries cfg sh
    (num_shifts <- (if day <? 5 then gets _num_weekday_shifts
                    else gets _num_weekend_shifts) ;;
     for_ (range num_shifts) (λ s, scan_nurses sol dep day s)).
Proof.
  intros Hdep Hday. destruct (day <? 5).
  - eapply ptries_gets; [by intros p (_ & _ & _ & H & _)|].
    apply ptries_for. intros s _. by apply ptries_scan.
  - eapply ptries_gets; [by intros p (_ & _ & _ & _ & H & _)|].
    apply ptries_for. intros s _. by apply ptries_scan.
Qed.

Lemma pfails_day dep n day s :
  legal cfg (dep, n, day, s) → sh !! (dep, n, day, s) = None →
  pfails cfg sh
    (num_shifts <- (if day <? 5 then gets _num_weekday_shifts
                    else gets _num_weekend_shifts) ;;
     for_ (range num_shifts) (λ s, scan_nurses sol dep day s)).
Proof.
  intros (Hdep & Hn & Hday & Hs) Habsent. rewrite num_shifts_of_ltb in Hs.
  destruct (day <? 5).
  - eapply pfails_gets; [by intros p (_ & _ & _ & H & _)|].
    apply (pfails_for _ _ s); [|by apply elem_of_range|by apply (pfails_scan dep n)].
    intros s' _. by apply ptries_scan.
  - eapply pfails_gets; [by intros p (_ & _ & _ & _ & H & _)|].
    apply (pfails_for _ _ s); [|by apply elem_of_range|by apply (pfails_scan dep n)].
    intros s' _. by apply ptries_scan.
Qed.

Lemma callback_fails dep n day s :
  legal cfg (dep, n, day, s) → sh !! (dep, n, day, s) = None →
  pfails cfg sh (on_solution_callback sol).
Proof.
  intros Hlegal Habsent. pose proof Hlegal as (Hdep & Hn & Hday & Hs).
  unfold on_solution_callback.
  apply pfails_seq_r.
  { intros p [Hp Hhas]. left. eexists. split; [reflexivity|]. by split. }
  eapply pfails_gets; [by intros p (_ & _ & _ & _ & _ & H)|].
  apply pfails_seq_l.
  apply (pfails_for _ _ dep); [|by apply elem_of_range|].
  - intros dep' Hdep'%elem_of_range.
    eapply ptries_gets; [by intros p (_ & _ & H & _)|].
    apply ptries_for. intros day' Hday'%elem_of_range. by apply ptries_day.
  - eapply pfails_gets; [by intros p (_ & _ & H & _)|].
    apply (pfails_for _ _ day); [|by apply elem_of_range|].
    + intros day' Hday'%elem_of_range. by apply ptries_day.
    + by apply (pfails_day dep n day s).
Qed.

End printer_absent.

(** X13. The callback has no guard on [self._shifts] (line 117): if the dict
    lacks a key that is in range, the callback raises [KeyError] for a key the
    dict does not hold. *)
Theorem callback_missing_key (cfg : Config) (sh : gmap Key BoolVar) (sol : Solution)
    (limit dep n day s : nat) :
  legal cfg (dep, n, day, s) → sh !! (dep, n, day, s) = None →
  ∃ k, on_solution_callback sol (solution_printer cfg sh limit)
       = Raise (KeyError (TupleKey k))
       ∧ sh !! k = None.
Proof.
  intros Hlegal Habsent.
  exact (callback_fails cfg sh sol dep n day s Hlegal Habsent
           (solution_printer cfg sh limit) (solution_printer_ok cfg sh limit)).
Qed.

Lemma callback_missing_key_witness :
  ∃ k, on_solution_callback ward_solution
         (solution_printer wide_weekend_config (shifts ward_frame) 1)
       = Raise (KeyError (TupleKey k))
       ∧ shifts ward_frame !! k = None.
Proof.
  apply (callback_missing_key wide_weekend_config (shifts ward_frame) ward_solution
           1 0 0 5 1).
  - vm_compute. lia.
  - vm_compute. reflexivity.
Defined.

(** ** The schedule of a solution of the model *)

Lemma ksum_pos_exists f keys : (0 < ksum f keys)%Z → ∃ k, k ∈ keys ∧ f k = true.
Proof.
  induction keys as [|k keys IH]; simpl; [lia|]. intros H.
  destruct (f k) eqn:E.
  - exists k. split; [left|done].
  - destruct IH as (k' & Hin & Hk'); [simpl in H; lia|].
    exists k'. split; [by right|done].
Qed.

(** X14. Model and callback together: for a solution of the model [main]
    builds, on a day with a single slot every department's cell for that slot
    shows a nurse, and that nurse is the only one working the cell. *)
Theorem one_slot_day_named (cfg : Config) (st : Frame) (sol : Solution)
    (limit dep day : nat) :
  0 < num_departments cfg → 7 ≤ num_days cfg →
  build_model cfg init_frame = Ok (tt, st) →
  satisfies sol (model st) = true →
  dep < num_departments cfg → day < num_days cfg → num_shifts_of cfg day = 1 →
  ∃ p n,
    on_solution_callback sol (solution_printer cfg (shifts st) limit) = Ok (tt, p)
    ∧ n < num_nurses cfg
    ∧ cell (get_department_schedule p) dep day 0 = Some (Some n)
    ∧ ∀ n', works (shifts st) sol (dep, n', day, 0) = true ↔ n' = n.
Proof.
  intros HD Hdays Hrun Hsat Hdep Hday Hone.
  pose proof (build_model_needs_nurses cfg st Hrun) as HN.
  destruct (built_inv cfg st HD HN Hdays Hrun) as [Hshifts _].
  assert (Hsh : ∀ k, legal cfg k → is_Some (shifts st !! k)).
  { intros k. rewrite Hshifts. apply created_legal. }
  pose proof (coverage_sum cfg st sol dep day HD HN Hdays Hrun Hsat Hdep Hday) as Hsum.
  rewrite Hone in Hsum.
  destruct (ksum_pos_exists _ _ ltac:(rewrite Hsum; lia)) as (k & Hk & Hwk).
  apply list_elem_of_fmap in Hk as ([n s] & -> & Hns).
  apply elem_of_list_prod in Hns as [Hn%elem_of_range Hs%elem_of_range].
  assert (s = 0) as -> by lia.
  assert (Huniq : ∀ n', works (shifts st) sol (dep, n', day, 0) = true → n' = n).
  { intros n' Hw'. destruct (decide (n' = n)) as [|Hne]; [done|]. exfalso.
    assert (Hlegal' : legal cfg (dep, n', day, 0)).
    { rewrite Hshifts in Hw'. by apply works_legal in Hw'. }
    assert (Hin : ∀ m, m < num_nurses cfg →
              (dep, m, day, 0)
              ∈ map (λ '(n0, s0), (dep, n0, day, s0))
                    (list_prod (all_nurses cfg) (range 1))).
    { intros m Hm. apply list_elem_of_fmap. exists (m, 0). split; [done|].
      apply elem_of_list_prod. split; apply elem_of_range; lia. }
    assert (Hnd : NoDup (map (λ '(n0, s0), (dep, n0, day, s0))
                             (list_prod (all_nurses cfg) (range 1)))).
    { rewrite <- Hone. apply NoDup_cell_keys. }
    pose proof (ksum_two (works (shifts st) sol) _ (dep, n', day, 0) (dep, n, day, 0)
                  Hnd (Hin n' (proj1 (proj2 Hlegal'))) (Hin n Hn)
                  ltac:(congruence) Hw' Hwk). lia. }
  destruct (callback_effects cfg (shifts st) sol (solution_printer cfg (shifts st) limit)
              Hsh (solution_printer_params cfg (shifts st) limit)
              (solution_printer_has_days cfg (shifts st) limit))
    as (p & Hcb & _ & _ & Hsched & _).
  exists p, n. split; [exact Hcb|]. split; [exact Hn|]. split.
  - unfold get_department_schedule.
    rewrite Hsched, cell_fold_all; try done.
    + pose proof (last_true_spec cfg (shifts st) sol dep day 0) as Hspec.
      destruct (last_true cfg (shifts st) sol dep day 0) as [m|].
      * destruct Hspec as (_ & Hwm & _). by rewrite (Huniq m Hwm).
      * rewrite Hspec in Hwk by done. discriminate.
    + apply solution_printer_has_days.
    + lia.
  - intros n'. split; [apply Huniq|by intros ->].
Qed.

Lemma one_slot_day_named_witness :
  ∃ p n,
    on_solution_callback ward_solution
      (solution_printer ward_config (shifts (built ward_config)) 1) = Ok (tt, p)
    ∧ n < num_nurses ward_config
    ∧ cell (get_department_schedule p) 0 5 0 = Some (Some n)
    ∧ ∀ n', works (shifts (built ward_config)) ward_solution (0, n', 5, 0) = true
            ↔ n' = n.
Proof.
  assert (H1 : 0 < num_departments ward_config) by (simpl; lia).
  assert (H3 : 7 ≤ num_days ward_config) by (simpl; lia).
  assert (H4 : build_model ward_config init_frame = Ok (tt, built ward_config))
    by (apply built_ok; vm_compute; reflexivity).
  assert (H5 : satisfies ward_solution (model (built ward_config)) = true)
    by (vm_compute; reflexivity).
  assert (H6 : 5 < num_days ward_config) by (simpl; lia).
  assert (H7 : num_shifts_of ward_config 5 = 1) by (vm_compute; reflexivity).
  exact (one_slot_day_named ward_config (built ward_config) ward_solution 1 0 5
           H1 H3 H4 H5 H1 H6 H7).
Defined.

(** * The display loop *)

Lemma index_day_names day :
  day < 7 → ∃ name, day_names !! day = Some name ∧ index day_names day = inr name.
Proof.
  intros Hday. destruct (lookup_lt_is_Some_2 day_names day Hday) as [name Hname].
  exists name. split; [done|]. unfold index. by rewrite Hname.
Qed.

Lemma slot_rows_run sched dep day name slots :
  (∀ s, s ∈ slots → is_Some (cell sched dep day s)) →
  slot_rows sched dep day name slots
  = inr (map (λ s, [name; shift_type s; nurse_str (default None (cell sched dep day s))])
             slots).
Proof.
  induction slots as [|s slots IH]; intros H; simpl; [done|].
  destruct (H s) as [v Hv]; [left|].
  rewrite Hv. unfold cell in Hv.
  destruct (sched !! dep) as [by_day|] eqn:E1; [|done]. simpl in Hv.
  destruct (by_day !! day) as [by_slot|] eqn:E2; [|done]. simpl in Hv.
  unfold item. rewrite E1. simpl. rewrite E2. simpl. rewrite Hv. simpl.
  rewrite IH; [done|]. intros s' Hs'. apply H. by right.
Qed.

Lemma day_rows_run cfg sched dep days :
  (∀ day, day ∈ days → day < 7) →
  (∀ day s, day ∈ days → s < num_shifts_of cfg day → is_Some (cell sched dep day s)) →
  day_rows cfg sched dep days
  = inr (day ← days; s ← range (num_shifts_of cfg day);
         [[default "" (day_names !! day); shift_type s;
           nurse_str (default None (cell sched dep day s))]]).
Proof.
  induction days as [|day days IH]; intros Hweek Hcells; [done|].
  cbn [day_rows].
  destruct (index_day_names day) as (name & Hname & ->); [apply Hweek; left|].
  cbn [try_]. rewrite <- num_shifts_of_ltb.
  rewrite slot_rows_run.
  2:{ intros s Hs%elem_of_range. apply Hcells; [left|done]. }
  cbn [try_]. rewrite IH.
  2:{ intros d Hd. apply Hweek. by right. }
  2:{ intros d s Hd Hs. apply Hcells; [by right|done]. }
  cbn [try_]. f_equal. rewrite bind_cons. f_equal.
  rewrite Hname. simpl. induction (range (num_shifts_of cfg day)) as [|s l IHl]; [done|].
  simpl. by rewrite IHl.
Qed.

Lemma day_rows_app cfg sched dep days1 days2 :
  day_rows cfg sched dep (days1 ++ days2)
  = try_ (day_rows cfg sched dep days1) (λ rows1,
    try_ (day_rows cfg sched dep days2) (λ rows2, inr (rows1 ++ rows2))).
Proof.
  induction days1 as [|day days1 IH].
  - simpl. destruct (day_rows cfg sched dep days2); [done|]. done.
  - cbn [app day_rows]. destruct (index day_names day) as [e|name]; [done|].
    cbn [try_]. destruct (slot_rows sched dep day name _) as [e|rows]; [done|].
    cbn [try_]. rewrite IH.
    destruct (day_rows cfg sched dep days1) as [e|rows1]; [done|]. cbn [try_].
    destruct (day_rows cfg sched dep days2) as [e|rows2]; [done|]. cbn [try_].
    by rewrite app_assoc.
Qed.

(** A schedule whose cells in range all exist. *)
Lemma display_run cfg sched :
  num_days cfg ≤ 7 →
  (∀ dep day s, dep < num_departments cfg → day < num_days cfg →
     s < num_shifts_of cfg day → is_Some (cell sched dep day s)) →
  display cfg sched
  = (dep ← range (num_departments cfg);
       [Line (header dep);
        Table ["Day"; "Shift"; "Nurse"]
          (day ← range (num_days cfg); s ← range (num_shifts_of cfg day);
           [[default "" (day_names !! day); shift_type s;
             nurse_str (default None (cell sched dep day s))]])],
     None).
Proof.
  intros Hweek Hcells. unfold display.
  assert (H : ∀ deps, (∀ dep, dep ∈ deps → dep < num_departments cfg) →
    display_departments cfg sched deps
    = (dep ← deps;
         [Line (header dep);
          Table ["Day"; "Shift"; "Nurse"]
            (day ← range (num_days cfg); s ← range (num_shifts_of cfg day);
             [[default "" (day_names !! day); shift_type s;
               nurse_str (default None (cell sched dep day s))]])],
       None)).
  { induction deps as [|dep deps IH]; intros Hdeps; [done|].
    cbn [display_departments]. unfold schedule_data.
    rewrite day_rows_run.
    2:{ intros day Hday%elem_of_range. lia. }
    2:{ intros day s Hday%elem_of_range Hs. apply Hcells; [apply Hdeps; left|done..]. }
    rewrite IH by (intros d Hd; apply Hdeps; by right). done. }
  apply H. by intros dep Hdep%elem_of_range.
Qed.

Lemma display_stops cfg sched :
  0 < num_departments cfg → 7 < num_days cfg →
  (∀ day s, day < num_days cfg →
     s < num_shifts_of cfg day → is_Some (cell sched 0 day s)) →
  display cfg sched = ([Line (header 0)], Some IndexError).
Proof.
  intros HD Hdays Hcells. unfold display, range.
  destruct (num_departments cfg) as [|D]; [lia|].
  cbn [seq display_departments]. unfold schedule_data, range.
  replace (num_days cfg) with (7 + (num_days cfg - 7)) at 1 by lia.
  rewrite seq_app, day_rows_app, day_rows_run.
  2:{ intros day Hday%elem_of_seq. lia. }
  2:{ intros day s Hday%elem_of_seq Hs. apply Hcells; [lia|done]. }
  cbn [try_]. destruct (num_days cfg - 7) as [|m] eqn:E; [lia|].
  reflexivity.
Qed.

(** X15. The display loop (lines 137-152) on the schedule the printer holds
    after any list of solutions, for a horizon of at most seven days: it
    raises nothing and prints, per department in order, the header line and
    one table with one row per day and slot in order; the row gives the day's
    name, [Shift s], and the nurse of the most recent solution that has a
    working nurse for the cell (the largest such nurse), or
    [No nurse assigned] when no solution had one. *)
Theorem display_shows_latest (cfg : Config) (sh : gmap Key BoolVar)
    (sols : list Solution) (limit : nat) :
  complete cfg sh = true → num_days cfg ≤ 7 →
  ∃ p, on_solutions sols (solution_printer cfg sh limit) = Ok (tt, p)
    ∧ display cfg (get_department_schedule p)
      = (dep ← range (num_departments cfg);
           [Line (header dep);
            Table ["Day"; "Shift"; "Nurse"]
              (day ← range (num_days cfg); s ← range (num_shifts_of cfg day);
               [[default "" (day_names !! day); shift_type s;
                 nurse_str (latest_nurse cfg sh sols dep day s None)]])],
         None).
Proof.
  intros Hcomplete Hweek. pose proof (complete_legal cfg sh Hcomplete) as Hsh.
  destruct (on_solutions_run cfg sh sols (solution_printer cfg sh limit) Hsh
              (solution_printer_params cfg sh limit)
              (solution_printer_has_days cfg sh limit))
    as (p & Hrun & _ & _ & _ & _ & _ & Hcell).
  exists p. split; [exact Hrun|]. unfold get_department_schedule.
  assert (Hc : ∀ dep day s, dep < num_departments cfg → day < num_days cfg →
            s < num_shifts_of cfg day →
            cell (_department_schedule p) dep day s
            = Some (latest_nurse cfg sh sols dep day s None)).
  { intros dep day s Hdep Hday Hs.
    apply Hcell; try done. by apply solution_printer_cell. }
  rewrite display_run; [|done|].
  2:{ intros dep day s Hdep Hday Hs. rewrite Hc by done. eauto. }
  f_equal. apply Forall_bind_ext, Forall_forall. intros dep Hdep%elem_of_range.
  do 3 f_equal. apply Forall_bind_ext, Forall_forall.
  intros day Hday%elem_of_range.
  apply Forall_bind_ext, Forall_forall. intros s Hs%elem_of_range.
  by rewrite Hc.
Qed.

(** X16. A horizon of more than seven days: the model is built and the
    callback runs, but the display loop indexes the seven day names with the
    day (line 145); it prints the header of department 0 and raises
    [IndexError] before any table is printed. *)
Theorem display_beyond_week (cfg : Config) (sh : gmap Key BoolVar)
    (sols : list Solution) (limit : nat) :
  complete cfg sh = true → 0 < num_departments cfg → 7 < num_days cfg →
  ∃ p, on_solutions sols (solution_printer cfg sh limit) = Ok (tt, p)
    ∧ display cfg (get_department_schedule p) = ([Line (header 0)], Some IndexError).
Proof.
  intros Hcomplete HD Hdays. pose proof (complete_legal cfg sh Hcomplete) as Hsh.
  destruct (on_solutions_run cfg sh sols (solution_printer cfg sh limit) Hsh
              (solution_printer_params cfg sh limit)
              (solution_printer_has_days cfg sh limit))
    as (p & Hrun & _ & _ & _ & _ & _ & Hcell).
  exists p. split; [exact Hrun|]. unfold get_department_schedule.
  apply display_stops; try done.
  intros day s Hday Hs.
  rewrite (Hcell 0 day s HD Hday Hs None) by (by apply solution_printer_cell).
  eauto.
Qed.

(** X17. The text of a row (lines 145, 150-152) determines the cell: two rows
    with the same three strings are rows of the same day, the same slot and
    the same content (the same nurse, or no nurse). *)
Theorem row_text_injective (day day' s s' : nat) (name name' : string)
    (nurse nurse' : option nat) :
  day_names !! day = Some name → day_names !! day' = Some name' →
  [name; shift_type s; nurse_str nurse] = [name'; shift_type s'; nurse_str nurse'] →
  day = day' ∧ s = s' ∧ nurse = nurse'.
Proof.
  intros Hname Hname' [= <- Hs Hnurse]. split; [|split].
  - assert (Hnd : NoDup day_names)
      by (apply (bool_decide_unpack (NoDup day_names)); vm_compute; reflexivity).
    exact (NoDup_lookup day_names day day' name Hnd Hname Hname').
  - change (pretty s = pretty s') in Hs. by apply (inj pretty) in Hs.
  - destruct nurse as [n|], nurse' as [n'|]; simpl in Hnurse.
    + injection Hnurse as Hnurse. change (pretty n = pretty n') in Hnurse.
      apply (inj pretty) in Hnurse. by subst.
    + discriminate Hnurse.
    + discriminate Hnurse.
    + done.
Qed.

Lemma row_text_injective_witness : 5 = 5 ∧ 0 = 0 ∧ Some 10 = Some 10.
Proof.
  apply (row_text_injective 5 5 0 0 "Saturday" "Saturday" (Some 10) (Some 10));
    reflexivity.
Defined.

Lemma display_shows_latest_witness :
  ∃ p, on_solutions [ward_solution]
         (solution_printer ward_config (shifts (built ward_config)) 1) = Ok (tt, p)
    ∧ display ward_config (get_department_schedule p)
      = (dep ← range (num_departments ward_config);
           [Line (header dep);
            Table ["Day"; "Shift"; "Nurse"]
              (day ← range (num_days ward_config);
               s ← range (num_shifts_of ward_config day);
               [[default "" (day_names !! day); shift_type s;
                 nurse_str (latest_nurse ward_config (shifts (built ward_config))
                              [ward_solution] dep day s None)]])],
         None).
Proof.
  apply (display_shows_latest ward_config (shifts (built ward_config))
           [ward_solution] 1).
  - vm_compute. reflexivity.
  - simpl. lia.
Defined.

Lemma display_beyond_week_witness :
  ∃ p, on_solutions [λ _, true]
         (solution_printer ten_day_config (created ten_day_config) 1) = Ok (tt, p)
    ∧ display ten_day_config (get_department_schedule p)
      = ([Line (header 0)], Some IndexError).
Proof.
  apply (display_beyond_week ten_day_config (created ten_day_config) [λ _, true] 1).
  - vm_compute. reflexivity.
  - simpl. lia.
  - simpl. lia.
Defined.
